(** * PagedInputStream: a Rocq model of
      velox/dwio/common/compression/PagedInputStream.cpp

    The stream decodes a sequence of blocks, each introduced by a
    three-byte header, from a chunked byte source.  Every member function
    of the C++ class is rendered as a function on an explicit stream
    state; a function that can throw returns a [result].

    The class declaration (PagedInputStream.h) and the collaborators
    (SeekableInputStream, Decompressor, Decrypter, DataBuffer) are not in
    the source file modelled here.  Integer members are kept as
    mathematical integers; the conversions that the .cpp file itself
    spells out (int32_t and uint32_t locals and parameters, size_t casts,
    the uint64_t offsets of a seek and what is compared with them) are
    written out with their wrap-around. *)

From Stdlib Require Import ZArith List Bool Lia.
From Stdlib.Strings Require Import Byte.
Import ListNotations.
Local Open Scope Z_scope.

(** ** Machine integers *)

(** Conversion of an integer to a C++ integer type: the value modulo the
    width, read as unsigned or as signed. *)
Definition uint32 (z : Z) : Z := z mod 2 ^ 32.
Definition uint64 (z : Z) : Z := z mod 2 ^ 64.
Definition int32 (z : Z) : Z := (z + 2 ^ 31) mod 2 ^ 32 - 2 ^ 31.
Definition int64 (z : Z) : Z := (z + 2 ^ 63) mod 2 ^ 64 - 2 ^ 63.

(** static_cast<size_t>; size_t is 64 bits wide. *)
Definition to_size_t (z : Z) : Z := z mod 2 ^ 64.

(** ** Outcomes *)

Inductive error : Set :=
| ReadPastEOF          (* DWIO_ENSURE(!failOnEof, ..., "read past EOF") *)
| CheckFailed          (* a VELOX_CHECK that does not hold *)
| BackupWithoutNext    (* "Backup without previous Next" *)
| InvalidStreamState   (* compressed block without a decompressor *)
| NullInput            (* DWIO_ENSURE_NOT_NULL(input) *)
| Undefined.           (* a read through a pointer that designates no byte *)

Inductive result (A : Type) : Type :=
| Ok (a : A)
| Fatal (e : error)
| OutOfFuel.
Arguments Ok {A} a.
Arguments Fatal {A} e.
Arguments OutOfFuel {A}.

Definition bind {A B} (m : result A) (k : A -> result B) : result B :=
  match m with
  | Ok a => k a
  | Fatal e => Fatal e
  | OutOfFuel => OutOfFuel
  end.

Notation "x <- m ;; k" := (bind m (fun x => k))
  (at level 61, m at next level, right associativity).
Notation "' p <- m ;; k" := (bind m (fun x => let 'p := x in k))
  (at level 61, p pattern, m at next level, right associativity).

Definition ensure (c : bool) (e : error) : result unit :=
  if c then Ok tt else Fatal e.

(** ** Bytes and buffers *)

Definition byte_val (b : byte) : Z := Z.of_N (Byte.to_N b).

Definition byte_of_Z (z : Z) : byte :=
  match Byte.of_N (Z.to_N (z mod 256)) with
  | Some b => b
  | None => x00
  end.

(** [slice off n l]: the [n] bytes of [l] that start at index [off]. *)
Definition slice (off n : Z) (l : list byte) : list byte :=
  firstn (Z.to_nat n) (skipn (Z.to_nat off) l).

(** [blit dst pos src]: [dst] with [src] copied over it from index [pos]
    on (std::copy into a buffer). *)
Definition blit (dst : list byte) (pos : Z) (src : list byte) : list byte :=
  firstn (Z.to_nat pos) dst ++ src
    ++ skipn (Z.to_nat pos + length src) dst.

(** Modelled from the spec: dwio::common::DataBuffer<char>, an "owned
    growable buffer" with "an explicit valid length distinct from
    allocated capacity": a capacity and the bytes it holds. *)
Record DataBuffer : Type := MkBuffer {
  capacity : Z;
  data : list byte
}.

(** A buffer of [n] bytes whose contents are not yet written. *)
Definition alloc (n : Z) : DataBuffer :=
  MkBuffer n (repeat x00 (Z.to_nat n)).

(** DataBuffer::reserve: the capacity becomes [n], the bytes held stay. *)
Definition reserve (n : Z) (b : DataBuffer) : DataBuffer :=
  MkBuffer n (data b ++ repeat x00 (Z.to_nat n - length (data b))).

(** The buffer after [src] is written from index [pos] on. *)
Definition store (b : DataBuffer) (pos : Z) (src : list byte) : DataBuffer :=
  MkBuffer (capacity b) (blit (data b) pos src).

(** ** Pointers

    A pointer is null or designates an offset in one of the four byte
    ranges the stream hands out views of.  A chunk is a range of the
    content of the source, and an offset into it counts from the start of
    that content. *)

Inductive region : Set :=
| InputChunk       (* the chunks returned by input_->Next() *)
| ReassemblyBuf    (* inputBuffer_ *)
| OutputBuf        (* outputBuffer_ *)
| DecryptionBuf.   (* decryptionBuffer_ *)

Inductive ptr : Set :=
| nullptr
| Ptr (r : region) (off : Z).

Definition region_eqb (a b : region) : bool :=
  match a, b with
  | InputChunk, InputChunk | ReassemblyBuf, ReassemblyBuf
  | OutputBuf, OutputBuf | DecryptionBuf, DecryptionBuf => true
  | _, _ => false
  end.

Definition ptr_eqb (p q : ptr) : bool :=
  match p, q with
  | nullptr, nullptr => true
  | Ptr r a, Ptr r' b => region_eqb r r' && (a =? b)
  | _, _ => false
  end.

(** [p <= q]; pointers into distinct ranges are unordered. *)
Definition ptr_leb (p q : ptr) : bool :=
  match p, q with
  | nullptr, _ => true
  | Ptr _ _, nullptr => false
  | Ptr r a, Ptr r' b => region_eqb r r' && (a <=? b)
  end.

Definition ptr_add (p : ptr) (n : Z) : ptr :=
  match p with
  | nullptr => nullptr
  | Ptr r a => Ptr r (a + n)
  end.

(** [p - q] *)
Definition ptr_diff (p q : ptr) : Z :=
  match p, q with
  | Ptr _ a, Ptr _ b => a - b
  | _, _ => 0
  end.

Definition is_null (p : ptr) : bool :=
  match p with nullptr => true | Ptr _ _ => false end.

(** ** Collaborators *)

(** Calls made to the collaborators, most recent first. *)
Inductive event : Type :=
| EvNext                                   (* input_->Next *)
| EvSeek (offset : Z)                      (* input_->seekToPosition *)
| EvDecrypt (input : list byte)            (* decrypter_->decrypt *)
| EvGetDecompressedLength (input : list byte)
| EvDecompress (input : list byte) (outputCapacity : Z).

(** Modelled from the spec: the underlying chunked source, whose class is
    not in the source file modelled here.  It hands out its bytes chunk by
    chunk, reports how many bytes it has delivered so far, and can be
    repositioned to an offset.  The source owns [content]; a chunk is the
    range of at most [blockSize] bytes that starts at [position]. *)
Record SeekableInputStream : Type := MkInput {
  content : list byte;
  blockSize : Z;
  position : Z
}.

Module Input.

(** Modelled from the spec: "next() -> chunk | end".  The chunk is given
    by its address and its length, an int32_t. *)
Definition Next (i : SeekableInputStream)
  : option (ptr * Z) * SeekableInputStream :=
  let currentSize :=
    Z.min (Z.of_nat (length (content i)) - position i) (blockSize i) in
  if 0 <? currentSize
  then (Some (Ptr InputChunk (position i), int32 currentSize),
        MkInput (content i) (blockSize i) (position i + currentSize))
  else (None, i).

(** Modelled from the spec: "byteCount() -> integer, cumulative bytes
    delivered so far". *)
Definition ByteCount (i : SeekableInputStream) : Z := position i.

(** Modelled from the spec: "seekToPosition(offset), repositions to an
    arbitrary previously-valid offset". *)
Definition seekToPosition (offset : Z) (i : SeekableInputStream)
  : SeekableInputStream :=
  MkInput (content i) (blockSize i) offset.

End Input.

(** Modelled from the spec: the decompressor capability.
    "getDecompressedLength(bytes) -> (length, isExact);
    decompress(input, inputLength, outputBuffer, outputCapacity) ->
    producedLength."  [decompress input cap] is the bytes written to the
    output buffer; their number is the produced length. *)
Record Decompressor : Type := MkDecompressor {
  getDecompressedLength : list byte -> Z * bool;
  decompress : list byte -> Z -> list byte
}.

(** Modelled from the spec: the decrypter capability,
    "decrypt(bytes) -> ownedBuffer". *)
Record Decrypter : Type := MkDecrypter {
  decrypt : list byte -> list byte
}.

(** ** Stream state *)

Inductive State : Set := HEADER | START | ORIGINAL | END.

Definition State_eqb (a b : State) : bool :=
  match a, b with
  | HEADER, HEADER | START, START | ORIGINAL, ORIGINAL | END, END => true
  | _, _ => false
  end.

(** The data members the .cpp file uses, under their C++ names, and the
    log of collaborator calls. *)
Record PagedInputStream : Type := MkStream {
  input_ : SeekableInputStream;
  decompressor_ : option Decompressor;
  decrypter_ : option Decrypter;
  inputBuffer_ : DataBuffer;
  outputBuffer_ : option DataBuffer;
  decryptionBuffer_ : option (list byte);
  state_ : State;
  outputBufferPtr_ : ptr;
  outputBufferLength_ : Z;
  remainingLength_ : Z;
  inputBufferStart_ : ptr;
  inputBufferPtr_ : ptr;
  inputBufferPtrEnd_ : ptr;
  bytesReturned_ : Z;
  lastWindowSize_ : Z;
  lastHeaderOffset_ : Z;
  bytesReturnedAtLastHeaderOffset_ : Z;
  pendingSkip_ : Z;
  calls_ : list event
}.

(** Updates of one data member. *)

Definition set_input (v : SeekableInputStream) (s : PagedInputStream)
  : PagedInputStream :=
  MkStream v (decompressor_ s) (decrypter_ s) (inputBuffer_ s)
    (outputBuffer_ s) (decryptionBuffer_ s) (state_ s) (outputBufferPtr_ s)
    (outputBufferLength_ s) (remainingLength_ s) (inputBufferStart_ s)
    (inputBufferPtr_ s) (inputBufferPtrEnd_ s) (bytesReturned_ s)
    (lastWindowSize_ s) (lastHeaderOffset_ s)
    (bytesReturnedAtLastHeaderOffset_ s) (pendingSkip_ s) (calls_ s).

Definition set_inputBuffer (v : DataBuffer) (s : PagedInputStream)
  : PagedInputStream :=
  MkStream (input_ s) (decompressor_ s) (decrypter_ s) v (outputBuffer_ s)
    (decryptionBuffer_ s) (state_ s) (outputBufferPtr_ s)
    (outputBufferLength_ s) (remainingLength_ s) (inputBufferStart_ s)
    (inputBufferPtr_ s) (inputBufferPtrEnd_ s) (bytesReturned_ s)
    (lastWindowSize_ s) (lastHeaderOffset_ s)
    (bytesReturnedAtLastHeaderOffset_ s) (pendingSkip_ s) (calls_ s).

Definition set_outputBuffer (v : option DataBuffer) (s : PagedInputStream)
  : PagedInputStream :=
  MkStream (input_ s) (decompressor_ s) (decrypter_ s) (inputBuffer_ s) v
    (decryptionBuffer_ s) (state_ s) (outputBufferPtr_ s)
    (outputBufferLength_ s) (remainingLength_ s) (inputBufferStart_ s)
    (inputBufferPtr_ s) (inputBufferPtrEnd_ s) (bytesReturned_ s)
    (lastWindowSize_ s) (lastHeaderOffset_ s)
    (bytesReturnedAtLastHeaderOffset_ s) (pendingSkip_ s) (calls_ s).

Definition set_decryptionBuffer (v : option (list byte)) (s : PagedInputStream)
  : PagedInputStream :=
  MkStream (input_ s) (decompressor_ s) (decrypter_ s) (inputBuffer_ s)
    (outputBuffer_ s) v (state_ s) (outputBufferPtr_ s)
    (outputBufferLength_ s) (remainingLength_ s) (inputBufferStart_ s)
    (inputBufferPtr_ s) (inputBufferPtrEnd_ s) (bytesReturned_ s)
    (lastWindowSize_ s) (lastHeaderOffset_ s)
    (bytesReturnedAtLastHeaderOffset_ s) (pendingSkip_ s) (calls_ s).

Definition set_state (v : State) (s : PagedInputStream)
  : PagedInputStream :=
  MkStream (input_ s) (decompressor_ s) (decrypter_ s) (inputBuffer_ s)
    (outputBuffer_ s) (decryptionBuffer_ s) v (outputBufferPtr_ s)
    (outputBufferLength_ s) (remainingLength_ s) (inputBufferStart_ s)
    (inputBufferPtr_ s) (inputBufferPtrEnd_ s) (bytesReturned_ s)
    (lastWindowSize_ s) (lastHeaderOffset_ s)
    (bytesReturnedAtLastHeaderOffset_ s) (pendingSkip_ s) (calls_ s).

Definition set_outputBufferPtr (v : ptr) (s : PagedInputStream)
  : PagedInputStream :=
  MkStream (input_ s) (decompressor_ s) (decrypter_ s) (inputBuffer_ s)
    (outputBuffer_ s) (decryptionBuffer_ s) (state_ s) v
    (outputBufferLength_ s) (remainingLength_ s) (inputBufferStart_ s)
    (inputBufferPtr_ s) (inputBufferPtrEnd_ s) (bytesReturned_ s)
    (lastWindowSize_ s) (lastHeaderOffset_ s)
    (bytesReturnedAtLastHeaderOffset_ s) (pendingSkip_ s) (calls_ s).

Definition set_outputBufferLength (v : Z) (s : PagedInputStream)
  : PagedInputStream :=
  MkStream (input_ s) (decompressor_ s) (decrypter_ s) (inputBuffer_ s)
    (outputBuffer_ s) (decryptionBuffer_ s) (state_ s) (outputBufferPtr_ s) v
    (remainingLength_ s) (inputBufferStart_ s) (inputBufferPtr_ s)
    (inputBufferPtrEnd_ s) (bytesReturned_ s) (lastWindowSize_ s)
    (lastHeaderOffset_ s) (bytesReturnedAtLastHeaderOffset_ s)
    (pendingSkip_ s) (calls_ s).

Definition set_remainingLength (v : Z) (s : PagedInputStream)
  : PagedInputStream :=
  MkStream (input_ s) (decompressor_ s) (decrypter_ s) (inputBuffer_ s)
    (outputBuffer_ s) (decryptionBuffer_ s) (state_ s) (outputBufferPtr_ s)
    (outputBufferLength_ s) v (inputBufferStart_ s) (inputBufferPtr_ s)
    (inputBufferPtrEnd_ s) (bytesReturned_ s) (lastWindowSize_ s)
    (lastHeaderOffset_ s) (bytesReturnedAtLastHeaderOffset_ s)
    (pendingSkip_ s) (calls_ s).

Definition set_inputBufferStart (v : ptr) (s : PagedInputStream)
  : PagedInputStream :=
  MkStream (input_ s) (decompressor_ s) (decrypter_ s) (inputBuffer_ s)
    (outputBuffer_ s) (decryptionBuffer_ s) (state_ s) (outputBufferPtr_ s)
    (outputBufferLength_ s) (remainingLength_ s) v (inputBufferPtr_ s)
    (inputBufferPtrEnd_ s) (bytesReturned_ s) (lastWindowSize_ s)
    (lastHeaderOffset_ s) (bytesReturnedAtLastHeaderOffset_ s)
    (pendingSkip_ s) (calls_ s).

Definition set_inputBufferPtr (v : ptr) (s : PagedInputStream)
  : PagedInputStream :=
  MkStream (input_ s) (decompressor_ s) (decrypter_ s) (inputBuffer_ s)
    (outputBuffer_ s) (decryptionBuffer_ s) (state_ s) (outputBufferPtr_ s)
    (outputBufferLength_ s) (remainingLength_ s) (inputBufferStart_ s) v
    (inputBufferPtrEnd_ s) (bytesReturned_ s) (lastWindowSize_ s)
    (lastHeaderOffset_ s) (bytesReturnedAtLastHeaderOffset_ s)
    (pendingSkip_ s) (calls_ s).

Definition set_inputBufferPtrEnd (v : ptr) (s : PagedInputStream)
  : PagedInputStream :=
  MkStream (input_ s) (decompressor_ s) (decrypter_ s) (inputBuffer_ s)
    (outputBuffer_ s) (decryptionBuffer_ s) (state_ s) (outputBufferPtr_ s)
    (outputBufferLength_ s) (remainingLength_ s) (inputBufferStart_ s)
    (inputBufferPtr_ s) v (bytesReturned_ s) (lastWindowSize_ s)
    (lastHeaderOffset_ s) (bytesReturnedAtLastHeaderOffset_ s)
    (pendingSkip_ s) (calls_ s).

Definition set_bytesReturned (v : Z) (s : PagedInputStream)
  : PagedInputStream :=
  MkStream (input_ s) (decompressor_ s) (decrypter_ s) (inputBuffer_ s)
    (outputBuffer_ s) (decryptionBuffer_ s) (state_ s) (outputBufferPtr_ s)
    (outputBufferLength_ s) (remainingLength_ s) (inputBufferStart_ s)
    (inputBufferPtr_ s) (inputBufferPtrEnd_ s) v (lastWindowSize_ s)
    (lastHeaderOffset_ s) (bytesReturnedAtLastHeaderOffset_ s)
    (pendingSkip_ s) (calls_ s).

Definition set_lastWindowSize (v : Z) (s : PagedInputStream)
  : PagedInputStream :=
  MkStream (input_ s) (decompressor_ s) (decrypter_ s) (inputBuffer_ s)
    (outputBuffer_ s) (decryptionBuffer_ s) (state_ s) (outputBufferPtr_ s)
    (outputBufferLength_ s) (remainingLength_ s) (inputBufferStart_ s)
    (inputBufferPtr_ s) (inputBufferPtrEnd_ s) (bytesReturned_ s) v
    (lastHeaderOffset_ s) (bytesReturnedAtLastHeaderOffset_ s)
    (pendingSkip_ s) (calls_ s).

Definition set_lastHeaderOffset (v : Z) (s : PagedInputStream)
  : PagedInputStream :=
  MkStream (input_ s) (decompressor_ s) (decrypter_ s) (inputBuffer_ s)
    (outputBuffer_ s) (decryptionBuffer_ s) (state_ s) (outputBufferPtr_ s)
    (outputBufferLength_ s) (remainingLength_ s) (inputBufferStart_ s)
    (inputBufferPtr_ s) (inputBufferPtrEnd_ s) (bytesReturned_ s)
    (lastWindowSize_ s) v (bytesReturnedAtLastHeaderOffset_ s)
    (pendingSkip_ s) (calls_ s).

Definition set_bytesReturnedAtLastHeaderOffset (v : Z) (s : PagedInputStream)
  : PagedInputStream :=
  MkStream (input_ s) (decompressor_ s) (decrypter_ s) (inputBuffer_ s)
    (outputBuffer_ s) (decryptionBuffer_ s) (state_ s) (outputBufferPtr_ s)
    (outputBufferLength_ s) (remainingLength_ s) (inputBufferStart_ s)
    (inputBufferPtr_ s) (inputBufferPtrEnd_ s) (bytesReturned_ s)
    (lastWindowSize_ s) (lastHeaderOffset_ s) v (pendingSkip_ s) (calls_ s).

Definition set_pendingSkip (v : Z) (s : PagedInputStream)
  : PagedInputStream :=
  MkStream (input_ s) (decompressor_ s) (decrypter_ s) (inputBuffer_ s)
    (outputBuffer_ s) (decryptionBuffer_ s) (state_ s) (outputBufferPtr_ s)
    (outputBufferLength_ s) (remainingLength_ s) (inputBufferStart_ s)
    (inputBufferPtr_ s) (inputBufferPtrEnd_ s) (bytesReturned_ s)
    (lastWindowSize_ s) (lastHeaderOffset_ s)
    (bytesReturnedAtLastHeaderOffset_ s) v (calls_ s).

Definition set_calls (v : list event) (s : PagedInputStream)
  : PagedInputStream :=
  MkStream (input_ s) (decompressor_ s) (decrypter_ s) (inputBuffer_ s)
    (outputBuffer_ s) (decryptionBuffer_ s) (state_ s) (outputBufferPtr_ s)
    (outputBufferLength_ s) (remainingLength_ s) (inputBufferStart_ s)
    (inputBufferPtr_ s) (inputBufferPtrEnd_ s) (bytesReturned_ s)
    (lastWindowSize_ s) (lastHeaderOffset_ s)
    (bytesReturnedAtLastHeaderOffset_ s) (pendingSkip_ s) v.

Definition log (e : event) (s : PagedInputStream) : PagedInputStream :=
  set_calls (e :: calls_ s) s.

(** Modelled from the spec: the state of a newly constructed stream (the
    constructor is in the class declaration).  "Initial: AwaitingHeader";
    buffers are allocated lazily, every counter starts at zero and no
    view has been produced. *)
Definition create (input : SeekableInputStream)
    (decompressor : option Decompressor) (decrypter : option Decrypter)
  : PagedInputStream :=
  MkStream input decompressor decrypter (alloc 0) None None HEADER
    nullptr 0 0 nullptr nullptr nullptr 0 0 0 0 0 [].

(** ** Memory seen through pointers *)

Definition region_bytes (s : PagedInputStream) (r : region) : list byte :=
  match r with
  | InputChunk => content (input_ s)
  | ReassemblyBuf => data (inputBuffer_ s)
  | OutputBuf =>
      match outputBuffer_ s with Some b => data b | None => [] end
  | DecryptionBuf =>
      match decryptionBuffer_ s with Some d => d | None => [] end
  end.

(** The bytes of the view [(p, n)]. *)
Definition view (s : PagedInputStream) (p : ptr) (n : Z) : list byte :=
  match p with
  | nullptr => []
  | Ptr r off => slice off n (region_bytes s r)
  end.

(** [*p] *)
Definition load (s : PagedInputStream) (p : ptr) : result byte :=
  match p with
  | nullptr => Fatal Undefined
  | Ptr r off =>
      if off <? 0 then Fatal Undefined
      else match nth_error (region_bytes s r) (Z.to_nat off) with
           | Some b => Ok b
           | None => Fatal Undefined
           end
  end.

(** The [n] bytes at [p], for code that reads all of them; reading past
    the end of the range [p] points into is undefined. *)
Definition read_range (s : PagedInputStream) (p : ptr) (n : Z)
  : result (list byte) :=
  match p with
  | nullptr => if n =? 0 then Ok [] else Fatal Undefined
  | Ptr r off =>
      if (0 <=? off) && (0 <=? n)
         && (off + n <=? Z.of_nat (length (region_bytes s r)))
      then Ok (slice off n (region_bytes s r))
      else Fatal Undefined
  end.

(** ** Member functions *)

(* void PagedInputStream::prepareOutputBuffer(uint64_t uncompressedLength) *)
Definition prepareOutputBuffer (uncompressedLength : Z)
    (s : PagedInputStream) : PagedInputStream :=
  let uncompressedLength := uint64 uncompressedLength in
  match outputBuffer_ s with
  | None => set_outputBuffer (Some (alloc uncompressedLength)) s
  | Some b =>
      if capacity b <? uncompressedLength
      then set_outputBuffer (Some (alloc uncompressedLength)) s
      else s
  end.

(* void PagedInputStream::readBuffer(bool failOnEof) *)
Definition readBuffer (failOnEof : bool) (s : PagedInputStream)
  : result PagedInputStream :=
  let '(r, i) := Input.Next (input_ s) in
  let s := log EvNext (set_input i s) in
  match r with
  | None =>
      _ <- ensure (negb failOnEof) ReadPastEOF ;;
      Ok (set_inputBufferPtrEnd nullptr
           (set_inputBufferPtr nullptr
             (set_inputBufferStart nullptr
               (set_state END s))))
  | Some (p, length) =>
      Ok (set_inputBufferPtrEnd (ptr_add p length)
           (set_inputBufferStart p
             (set_inputBufferPtr p s)))
  end.

(* uint32_t PagedInputStream::readByte(bool failOnEof) *)
Definition readByte (failOnEof : bool) (s : PagedInputStream)
  : result (Z * PagedInputStream) :=
  let deref (s : PagedInputStream) :=
    b <- load s (inputBufferPtr_ s) ;;
    Ok (byte_val b, set_inputBufferPtr (ptr_add (inputBufferPtr_ s) 1) s) in
  if ptr_eqb (inputBufferPtr_ s) (inputBufferPtrEnd_ s)
  then
    s <- readBuffer failOnEof s ;;
    if State_eqb (state_ s) END then Ok (0, s) else deref s
  else deref s.

(* void PagedInputStream::readHeader() *)
Definition readHeader (s : PagedInputStream) : result PagedInputStream :=
  '(header, s) <- readByte false s ;;
  let s :=
    set_lastHeaderOffset
      (Input.ByteCount (input_ s)
       - ptr_diff (inputBufferPtrEnd_ s) (inputBufferPtr_ s) - 1) s in
  let s := set_bytesReturnedAtLastHeaderOffset (bytesReturned_ s) s in
  if negb (State_eqb (state_ s) END)
  then
    '(b1, s) <- readByte true s ;;
    let header := Z.lor header (uint32 (Z.shiftl b1 8)) in
    '(b2, s) <- readByte true s ;;
    let header := Z.lor header (uint32 (Z.shiftl b2 16)) in
    let s :=
      if Z.land header 1 =? 0 then set_state START s
      else set_state ORIGINAL s in
    Ok (set_remainingLength (Z.shiftr header 1) s)
  else Ok (set_remainingLength 0 s).

(* The loop of ensureInput: with [pos] bytes of the block copied, fetch
   chunks until [remainingLength_] bytes are in inputBuffer_. *)
Fixpoint ensureInput_loop (fuel : nat) (pos : Z) (s : PagedInputStream)
  : result PagedInputStream :=
  if pos <? remainingLength_ s
  then
    match fuel with
    | O => OutOfFuel
    | S fuel =>
        s <- readBuffer true s ;;
        let availableInputBytes :=
          Z.min
            (to_size_t (ptr_diff (inputBufferPtrEnd_ s) (inputBufferPtr_ s)))
            (remainingLength_ s - pos) in
        bytes <- read_range s (inputBufferPtr_ s) availableInputBytes ;;
        let s := set_inputBuffer (store (inputBuffer_ s) pos bytes) s in
        let pos := pos + availableInputBytes in
        let s :=
          set_inputBufferPtr
            (ptr_add (inputBufferPtr_ s) availableInputBytes) s in
        ensureInput_loop fuel pos s
    end
  else Ok s.

(* const char* PagedInputStream::ensureInput(size_t availableInputBytes) *)
Definition ensureInput (availableInputBytes : Z) (s : PagedInputStream)
  : result (ptr * PagedInputStream) :=
  let input := inputBufferPtr_ s in
  if remainingLength_ s <=? availableInputBytes
  then
    Ok (input,
        set_inputBufferPtr (ptr_add (inputBufferPtr_ s) availableInputBytes) s)
  else
    (* make sure input buffer has capacity *)
    let s :=
      if capacity (inputBuffer_ s) <? remainingLength_ s
      then set_inputBuffer (reserve (remainingLength_ s) (inputBuffer_ s)) s
      else s in
    bytes <- read_range s (inputBufferPtr_ s) availableInputBytes ;;
    let s := set_inputBuffer (store (inputBuffer_ s) 0 bytes) s in
    let s :=
      set_inputBufferPtr
        (ptr_add (inputBufferPtr_ s) availableInputBytes) s in
    s <- ensureInput_loop (Z.to_nat (remainingLength_ s))
           availableInputBytes s ;;
    Ok (Ptr ReassemblyBuf 0, s).

(** The out-parameters [*data] and [*size] of a read.  [*data] is written
    only when the caller passed a destination. *)
Definition out_params : Type := (ptr * Z)%type.

Definition write_out (wantData : bool) (p : ptr) (size : Z)
    (out : out_params) : out_params :=
  (if wantData then p else fst out, size).

(* readOrSkip, lines 118-129: the user pushed back, return them the
   partial buffer. *)
Definition readOrSkip_replay (wantData : bool) (s : PagedInputStream)
  : out_params * PagedInputStream :=
  let out :=
    write_out wantData (outputBufferPtr_ s)
      (int32 (outputBufferLength_ s)) (nullptr, 0) in
  let s :=
    set_outputBufferPtr
      (ptr_add (outputBufferPtr_ s) (outputBufferLength_ s)) s in
  let s := set_bytesReturned (bytesReturned_ s + outputBufferLength_ s) s in
  (out, set_outputBufferLength 0 s).

(* readOrSkip, lines 154-160: no decompression or decryption is needed,
   simply adjust the output pointer. *)
Definition readOrSkip_original (wantData : bool) (availSize : Z)
    (s : PagedInputStream) : out_params * PagedInputStream :=
  let out :=
    write_out wantData (inputBufferPtr_ s) (int32 availSize) (nullptr, 0) in
  let s :=
    set_outputBufferPtr (ptr_add (inputBufferPtr_ s) availSize) s in
  let s := set_inputBufferPtr (ptr_add (inputBufferPtr_ s) availSize) s in
  (out, set_remainingLength (remainingLength_ s - availSize) s).

(* readOrSkip, lines 165-176: perform decryption. *)
Definition readOrSkip_decrypt (wantData : bool) (input : ptr)
    (out : out_params) (s : PagedInputStream)
  : result (ptr * out_params * PagedInputStream) :=
  match decrypter_ s with
  | Some d =>
      bytes <- read_range s input (remainingLength_ s) ;;
      let s :=
        log (EvDecrypt bytes)
          (set_decryptionBuffer (Some (decrypt d bytes)) s) in
      let input := Ptr DecryptionBuf 0 in
      let s :=
        set_remainingLength (Z.of_nat (length (decrypt d bytes))) s in
      let out := write_out wantData input (int32 (remainingLength_ s)) out in
      Ok (input, out,
          set_outputBufferPtr (ptr_add input (remainingLength_ s)) s)
  | None => Ok (input, out, s)
  end.

(* readOrSkip, lines 178-202: perform decompression. *)
Definition readOrSkip_decompress (wantData : bool) (input : ptr)
    (out : out_params) (s : PagedInputStream)
  : result (out_params * PagedInputStream) :=
  if State_eqb (state_ s) START
  then
    match decompressor_ s with
    | None => Fatal InvalidStreamState
    | Some dz =>
        _ <- ensure (negb (is_null input)) NullInput ;;
        bytes <- read_range s input (remainingLength_ s) ;;
        let '(decompressedLength, exact) := getDecompressedLength dz bytes in
        let s := log (EvGetDecompressedLength bytes) s in
        '(out, s) <-
          (if negb wantData && exact
              && (decompressedLength <=? pendingSkip_ s)
           then
             Ok (write_out wantData nullptr (int32 decompressedLength) out,
                 set_outputBufferPtr nullptr s)
           else
             let s := prepareOutputBuffer decompressedLength s in
             match outputBuffer_ s with
             | None => Fatal Undefined
             | Some b =>
                 let produced := decompress dz bytes (capacity b) in
                 let s := log (EvDecompress bytes (capacity b)) s in
                 let s := set_outputBuffer (Some (store b 0 produced)) s in
                 let s :=
                   set_outputBufferLength (Z.of_nat (length produced)) s in
                 let out :=
                   write_out wantData (Ptr OutputBuf 0)
                     (int32 (outputBufferLength_ s)) out in
                 Ok (out,
                     set_outputBufferPtr
                       (ptr_add (Ptr OutputBuf 0) (outputBufferLength_ s)) s)
             end) ;;
        (* release decryption buffer *)
        Ok (out, set_decryptionBuffer None s)
    end
  else Ok (out, s).

(* readOrSkip, lines 204-212. *)
Definition readOrSkip_finish (original : bool) (out : out_params)
    (s : PagedInputStream) : option out_params * PagedInputStream :=
  let s :=
    if negb original then set_state HEADER (set_remainingLength 0 s)
    else s in
  let s := set_outputBufferLength 0 s in
  let s := set_bytesReturned (bytesReturned_ s + snd out) s in
  (Some out, set_lastWindowSize (snd out) s).

(* readOrSkip, lines 144-146 *)
Definition availSize (s : PagedInputStream) : Z :=
  Z.min (to_size_t (ptr_diff (inputBufferPtrEnd_ s) (inputBufferPtr_ s)))
    (remainingLength_ s).

(* readOrSkip, line 149 *)
Definition original (s : PagedInputStream) : bool :=
  match decrypter_ s with
  | None => State_eqb (state_ s) ORIGINAL
  | Some _ => false
  end.

(* readOrSkip, lines 134-136 *)
Definition readOrSkip_header (s : PagedInputStream)
  : result PagedInputStream :=
  if State_eqb (state_ s) HEADER || (remainingLength_ s =? 0)
  then readHeader s
  else Ok s.

(* readOrSkip, lines 140-142 *)
Definition readOrSkip_chunk (s : PagedInputStream)
  : result PagedInputStream :=
  if ptr_eqb (inputBufferPtr_ s) (inputBufferPtrEnd_ s)
  then readBuffer true s
  else Ok s.

(* readOrSkip, lines 131-163: read the header if one is due, make sure a
   chunk is at hand and take the bytes of the block: the view itself for a
   raw block without decryption, the whole block, continuous, otherwise.
   The result is [None] when the stream has ended, and otherwise
   [original], [input] and the out-parameters so far. *)
Definition readOrSkip_fetch (wantData : bool) (s : PagedInputStream)
  : result (option (bool * ptr * out_params) * PagedInputStream) :=
  (* release previous decryption buffer *)
  let s := set_decryptionBuffer None s in
  s <- readOrSkip_header s ;;
  if State_eqb (state_ s) END then Ok (None, s)
  else
    s <- readOrSkip_chunk s ;;
    (* in the case when decompression or decryption is needed, need to copy
       data to input buffer if the input doesn't contain the entire block *)
    if original s
    then
      let '(out, s') := readOrSkip_original wantData (availSize s) s in
      Ok (Some (true, nullptr, out), s')
    else
      '(input, s') <- ensureInput (availSize s) s ;;
      Ok (Some (false, input, (nullptr, 0)), s').

(* readOrSkip, lines 131-212: a read that takes a new window of a block. *)
Definition readOrSkip_block (wantData : bool) (s : PagedInputStream)
  : result (option out_params * PagedInputStream) :=
  '(r, s) <- readOrSkip_fetch wantData s ;;
  match r with
  | None => Ok (None, s)
  | Some (original, input, out) =>
      '(input, out, s) <- readOrSkip_decrypt wantData input out s ;;
      '(out, s) <- readOrSkip_decompress wantData input out s ;;
      Ok (readOrSkip_finish original out s)
  end.

(* bool PagedInputStream::readOrSkip(const void** data, int32_t* size)
   Read into `data' if it is not null; otherwise skip some of the pending.
   [wantData] is [data != nullptr]; the result is [None] when the function
   returns false and the out-parameters when it returns true. *)
Definition readOrSkip (wantData : bool) (s : PagedInputStream)
  : result (option out_params * PagedInputStream) :=
  _ <- ensure (negb wantData || (pendingSkip_ s =? 0)) CheckFailed ;;
  if negb (outputBufferLength_ s =? 0)
  then
    let '(out, s) := readOrSkip_replay wantData s in
    Ok (Some out, s)
  else readOrSkip_block wantData s.

(* BackUp, lines 225-241: rewind [count] bytes of the last view. *)
Definition BackUp_rewind (count : Z) (s : PagedInputStream)
  : result PagedInputStream :=
  _ <- ensure (negb (is_null (outputBufferPtr_ s))) BackupWithoutNext ;;
  _ <- (if State_eqb (state_ s) ORIGINAL
        then
          _ <- ensure
                 (ptr_leb (inputBufferStart_ s) (outputBufferPtr_ s)
                  && ptr_leb (outputBufferPtr_ s) (inputBufferPtrEnd_ s))
                 CheckFailed ;;
          (* 'outputBufferPtr_' ranges over the input buffer if there is no
             decompression / decryption. Check that we do not back out of
             the last range returned from input_->Next(). *)
          ensure
            (to_size_t count
             <=? to_size_t
                   (ptr_diff (inputBufferPtr_ s) (inputBufferStart_ s)))
            CheckFailed
        else Ok tt) ;;
  let s :=
    set_outputBufferPtr (ptr_add (outputBufferPtr_ s) (- to_size_t count)) s in
  let s :=
    set_outputBufferLength (outputBufferLength_ s + to_size_t count) s in
  Ok (set_bytesReturned (bytesReturned_ s - count) s).

(* void PagedInputStream::BackUp(int32_t count)
   The argument is converted to the parameter's type. *)
Definition BackUp (count : Z) (s : PagedInputStream)
  : result PagedInputStream :=
  let count := int32 count in
  _ <- ensure (0 <=? count) CheckFailed ;;
  if 0 <? pendingSkip_ s
  then
    let len := Z.min count (pendingSkip_ s) in
    let s := set_pendingSkip (pendingSkip_ s - len) s in
    let count := int32 (count - len) in
    if count =? 0 then Ok s else BackUp_rewind count s
  else BackUp_rewind count s.

(* bool PagedInputStream::skipAllPending()
   [fuel] bounds the number of iterations of the loop. *)
Fixpoint skipAllPending (fuel : nat) (s : PagedInputStream)
  : result (bool * PagedInputStream) :=
  if 0 <? pendingSkip_ s
  then
    match fuel with
    | O => OutOfFuel
    | S fuel =>
        '(r, s) <- readOrSkip false s ;;
        match r with
        | None => Ok (false, s)
        | Some (_, len) =>
            if pendingSkip_ s <? len
            then
              let toBackUp := len - pendingSkip_ s in
              let s := set_pendingSkip 0 s in
              s <- BackUp toBackUp s ;;
              skipAllPending fuel s
            else skipAllPending fuel (set_pendingSkip (pendingSkip_ s - len) s)
        end
    end
  else Ok (true, s).

(* bool PagedInputStream::Next(const void** data, int32_t* size)
   [data] is not null. *)
Definition Next (fuel : nat) (s : PagedInputStream)
  : result (option out_params * PagedInputStream) :=
  '(_, s) <- skipAllPending fuel s ;;
  readOrSkip true s.

(* bool PagedInputStream::skip(int64_t count) *)
Definition skip (count : Z) (s : PagedInputStream)
  : result (bool * PagedInputStream) :=
  let count := int64 count in
  _ <- ensure (0 <=? count) CheckFailed ;;
  let s := set_pendingSkip (pendingSkip_ s + count) s in
  (* We never use the return value of this function so this is OK. *)
  Ok (true, s).

(* void PagedInputStream::clearDecompressionState() *)
Definition clearDecompressionState (s : PagedInputStream)
  : PagedInputStream :=
  let s := set_state HEADER s in
  let s := set_outputBufferLength 0 s in
  let s := set_remainingLength 0 s in
  let s := set_inputBufferPtr nullptr s in
  set_inputBufferPtrEnd nullptr s.

(* seekToPosition, line 285.  The two offsets the provider yields are
   uint64_t (line 299 stores one in a std::vector<uint64_t>), so the sum is
   compared with them, and subtracted from them, as an unsigned 64-bit
   integer. *)
Definition alreadyRead (s : PagedInputStream) : Z :=
  uint64
    (bytesReturned_ s - bytesReturnedAtLastHeaderOffset_ s + pendingSkip_ s).

(* seekToPosition, lines 292-296: outsideOriginalWindow is true if we are
   returning views into the input stream's buffer and we are seeking below
   the start of the last window.  The operands are compared as uint64_t. *)
Definition outsideOriginalWindow (compressedOffset uncompressedOffset : Z)
    (s : PagedInputStream) : bool :=
  State_eqb (state_ s) ORIGINAL
  && (compressedOffset =? uint64 (lastHeaderOffset_ s))
  && (uncompressedOffset <? alreadyRead s)
  && (uint64 (lastWindowSize_ s)
      <? uint64 (alreadyRead s - uncompressedOffset)).

(* void PagedInputStream::seekToPosition(PositionProvider& positionProvider)
   [compressedOffset] and [uncompressedOffset] are the two values the
   provider yields, uint64_t. *)
Definition seekToPosition (compressedOffset uncompressedOffset : Z)
    (s : PagedInputStream) : result PagedInputStream :=
  let compressedOffset := uint64 compressedOffset in
  let uncompressedOffset := uint64 uncompressedOffset in
  if negb (compressedOffset =? uint64 (lastHeaderOffset_ s))
     || outsideOriginalWindow compressedOffset uncompressedOffset s
  then
    let s :=
      log (EvSeek compressedOffset)
        (set_input (Input.seekToPosition compressedOffset (input_ s)) s) in
    let s := clearDecompressionState s in
    Ok (set_pendingSkip uncompressedOffset s)
  else
    if uncompressedOffset <? alreadyRead s
    then BackUp (uint64 (alreadyRead s - uncompressedOffset)) s
    else
      Ok (set_pendingSkip
            (pendingSkip_ s + uint64 (uncompressedOffset - alreadyRead s))
            s).

(** ** Header encoding *)

(** Modelled from the spec: the writer's side of the block header, which
    is not in the source file modelled here.  "the 3-byte block header - bit 0 =
    raw/compressed flag, bits 1-23 = block byte length", stored least
    significant byte first. *)
Definition encodeHeader (isOriginal : bool) (length : Z) : list byte :=
  let header := Z.lor (Z.shiftl length 1) (if isOriginal then 1 else 0) in
  [byte_of_Z header;
   byte_of_Z (Z.shiftr header 8);
   byte_of_Z (Z.shiftr header 16)].

(** ** Reading a stream to its end *)

(** Repeated [Next] until it returns false; the bytes of the views it
    returned, in order.  A view is read when it is returned. *)
Fixpoint readAll (fuel : nat) (s : PagedInputStream)
  : result (list byte) :=
  match fuel with
  | O => OutOfFuel
  | S fuel' =>
      '(r, s) <- Next fuel s ;;
      match r with
      | None => Ok []
      | Some (p, size) =>
          rest <- readAll fuel' s ;;
          Ok (view s p size ++ rest)
      end
  end.

(** ** Vocabulary of the properties *)

(** The part of a BackUp count that pendingSkip_ takes. *)
Definition absorbed (count : Z) (s : PagedInputStream) : Z :=
  Z.min count (pendingSkip_ s).

(** The offsets the underlying source was repositioned to, most recent
    first. *)
Definition seeks (s : PagedInputStream) : list Z :=
  flat_map (fun e => match e with EvSeek o => [o] | _ => [] end) (calls_ s).

(** The state a full reseek to [(compressedOffset, uncompressedOffset)]
    leaves: the source repositioned, the decode state cleared, the skip
    count replaced. *)
Definition full_reseek (compressedOffset uncompressedOffset : Z)
    (s : PagedInputStream) : PagedInputStream :=
  set_pendingSkip uncompressedOffset
    (clearDecompressionState
      (log (EvSeek compressedOffset)
        (set_input (Input.seekToPosition compressedOffset (input_ s)) s))).

(** The count of bytes read since the last header, as a seek computes
    it: bytesReturned - bytesReturnedAtLastHeader + PendingSkip, an
    unsigned 64-bit integer. *)
Definition readSinceHeader (s : PagedInputStream) : Z :=
  (bytesReturned_ s - bytesReturnedAtLastHeaderOffset_ s + pendingSkip_ s)
  mod 2 ^ 64.

(** The condition for leaving the window of a raw block: the state is
    Raw, the offset is that of the last header, the target precedes what
    was read since, and the last window is smaller than the gap. *)
Definition outsideWindow (sourceOffset decodedOffset : Z)
    (s : PagedInputStream) : Prop :=
  state_ s = ORIGINAL
  /\ sourceOffset = lastHeaderOffset_ s mod 2 ^ 64
  /\ decodedOffset < readSinceHeader s
  /\ lastWindowSize_ s mod 2 ^ 64 < readSinceHeader s - decodedOffset.

(** States reached with no call of Next that returned a view: the new
    stream, what skip, seekToPosition and BackUp make of such a state,
    and what a Next that returned false leaves. *)
Inductive no_successful_Next : PagedInputStream -> Prop :=
| no_Next_create input decompressor decrypter :
    no_successful_Next (create input decompressor decrypter)
| no_Next_skip count s r s' :
    no_successful_Next s -> skip count s = Ok (r, s') ->
    no_successful_Next s'
| no_Next_seek compressedOffset uncompressedOffset s s' :
    no_successful_Next s ->
    seekToPosition compressedOffset uncompressedOffset s = Ok s' ->
    no_successful_Next s'
| no_Next_BackUp count s s' :
    no_successful_Next s -> BackUp count s = Ok s' ->
    no_successful_Next s'
| no_Next_false fuel s s' :
    no_successful_Next s -> Next fuel s = Ok (None, s') ->
    no_successful_Next s'.

(** States in which no read at all has returned a view, be it made by
    Next or made to drain a skip: the new stream, what skip,
    seekToPosition and BackUp make of such a state, and what a read that
    found the end of the stream leaves. *)
Inductive no_view_returned : PagedInputStream -> Prop :=
| no_view_create input decompressor decrypter :
    no_view_returned (create input decompressor decrypter)
| no_view_skip count s r s' :
    no_view_returned s -> skip count s = Ok (r, s') ->
    no_view_returned s'
| no_view_seek compressedOffset uncompressedOffset s s' :
    no_view_returned s ->
    seekToPosition compressedOffset uncompressedOffset s = Ok s' ->
    no_view_returned s'
| no_view_BackUp count s s' :
    no_view_returned s -> BackUp count s = Ok s' ->
    no_view_returned s'
| no_view_end wantData s s' :
    no_view_returned s -> readOrSkip wantData s = Ok (None, s') ->
    no_view_returned s'.

(** ** Example streams *)

(** One raw block of ten bytes. *)
Definition raw_block : list byte :=
  encodeHeader true 10 ++ map byte_of_Z [0; 1; 2; 3; 4; 5; 6; 7; 8; 9].

Definition raw_stream : PagedInputStream :=
  create (MkInput raw_block 64 0) None None.

(** [raw_stream] after the first Next, which returned the ten bytes. *)
Definition raw_stream_read : PagedInputStream :=
  MkStream (MkInput raw_block 64 13) None None (alloc 0) None None ORIGINAL
    (Ptr InputChunk 13) 0 0 (Ptr InputChunk 0) (Ptr InputChunk 13)
    (Ptr InputChunk 13) 10 10 0 0 0 [EvNext].

(** [raw_stream] after skip(10) and a Next, which returned false: the
    read made to drain the skip took the ten bytes of the block and left
    its pointer behind. *)
Definition raw_stream_skipped : PagedInputStream :=
  MkStream (MkInput raw_block 64 13) None None (alloc 0) None None END
    (Ptr InputChunk 13) 0 0 nullptr nullptr nullptr 10 10 12 10 0
    [EvNext; EvNext].

(** The stream over an empty source after a Next, which returned false. *)
Definition empty_stream_ended : PagedInputStream :=
  MkStream (MkInput [] 4 0) None None (alloc 0) None None END
    nullptr 0 0 nullptr nullptr nullptr 0 0 (-1) 0 0 [EvNext].

(** Two raw blocks of two bytes each, in one chunk. *)
Definition small_blocks : list byte :=
  encodeHeader true 2 ++ map byte_of_Z [0; 1]
  ++ encodeHeader true 2 ++ map byte_of_Z [2; 3].

Definition two_small_blocks : PagedInputStream :=
  create (MkInput small_blocks 64 0) None None.

(** [two_small_blocks] after two reads, of two bytes each, and
    BackUp(3). *)
Definition two_small_blocks_backed_up : PagedInputStream :=
  MkStream (MkInput small_blocks 64 10) None None (alloc 0) None None
    ORIGINAL (Ptr InputChunk 7) 3 0 (Ptr InputChunk 0) (Ptr InputChunk 10)
    (Ptr InputChunk 10) 1 2 5 2 0 [EvNext].

(** [raw_stream] with a skip of four bytes pending, once skipAllPending
    has drained it: the ten bytes of the block were read for the skip
    and the last six are backed up. *)
Definition raw_stream_skip_drained : PagedInputStream :=
  MkStream (MkInput raw_block 64 13) None None (alloc 0) None None ORIGINAL
    (Ptr InputChunk 7) 6 0 (Ptr InputChunk 0) (Ptr InputChunk 13)
    (Ptr InputChunk 13) 4 10 0 0 0 [EvNext].

(** The members that fetching input leaves alone: the capabilities, the
    output side and the counters of the read contract. *)
Definition io_frame (s s' : PagedInputStream) : Prop :=
  decompressor_ s' = decompressor_ s
  /\ decrypter_ s' = decrypter_ s
  /\ outputBuffer_ s' = outputBuffer_ s
  /\ decryptionBuffer_ s' = decryptionBuffer_ s
  /\ outputBufferPtr_ s' = outputBufferPtr_ s
  /\ outputBufferLength_ s' = outputBufferLength_ s
  /\ bytesReturned_ s' = bytesReturned_ s
  /\ lastWindowSize_ s' = lastWindowSize_ s
  /\ pendingSkip_ s' = pendingSkip_ s.

(** The members no read writes: the capabilities and the skip count. *)
Definition read_frame (s s' : PagedInputStream) : Prop :=
  decompressor_ s' = decompressor_ s
  /\ decrypter_ s' = decrypter_ s
  /\ pendingSkip_ s' = pendingSkip_ s.

(** A decompressor that writes every byte twice, and knows its length. *)
Definition doubling : Decompressor :=
  MkDecompressor
    (fun input => (2 * Z.of_nat (length input), true))
    (fun input _ => flat_map (fun b => [b; b]) input).

(** One compressed block of three bytes. *)
Definition compressed_block : list byte :=
  encodeHeader false 3 ++ map byte_of_Z [10; 11; 12].

Definition compressed_stream : PagedInputStream :=
  create (MkInput compressed_block 64 0) (Some doubling) None.

(** A decrypter that flips every bit. *)
Definition flipping : Decrypter :=
  MkDecrypter (map (fun b => byte_of_Z (255 - byte_val b))).

Definition encrypted_raw_stream : PagedInputStream :=
  create (MkInput raw_block 64 0) None (Some flipping).

(** [raw_block] behind a decrypter, handed out in chunks of four
    bytes: the block spans three chunks. *)
Definition chunked_encrypted_stream : PagedInputStream :=
  create (MkInput raw_block 4 0) None (Some flipping).

(** [compressed_stream] with a skip of 100 bytes pending, once the header
    is read and the three bytes of the block are fetched. *)
Definition compressed_stream_fetched : PagedInputStream :=
  MkStream (MkInput compressed_block 64 6) (Some doubling) None (alloc 0)
    None None START nullptr 0 3 (Ptr InputChunk 0) (Ptr InputChunk 6)
    (Ptr InputChunk 6) 0 0 0 0 100 [EvNext].

(** [encrypted_raw_stream] after the first read, which returned the ten
    decrypted bytes. *)
Definition encrypted_raw_stream_read : PagedInputStream :=
  MkStream (MkInput raw_block 64 13) None (Some flipping) (alloc 0) None
    (Some (decrypt flipping (map byte_of_Z [0; 1; 2; 3; 4; 5; 6; 7; 8; 9])))
    HEADER (Ptr DecryptionBuf 10) 0 0 (Ptr InputChunk 0) (Ptr InputChunk 13)
    (Ptr InputChunk 13) 10 10 0 0 0
    [EvDecrypt (map byte_of_Z [0; 1; 2; 3; 4; 5; 6; 7; 8; 9]); EvNext].

(** The source hands out chunks of at least one byte and of fewer than
    2^31 (their length is an int32_t). *)
Definition wf_source (i : SeekableInputStream) : Prop :=
  0 < blockSize i < 2 ^ 31 /\ 0 <= position i.

(** The chunk cursor is empty (no chunk yet, or none after a seek), or
    [inputBufferStart_ <= inputBufferPtr_ <= inputBufferPtrEnd_] delimit a
    chunk of the content of the source. *)
Definition wf_cursor (s : PagedInputStream) : Prop :=
  wf_source (input_ s)
  /\ ((inputBufferPtr_ s = nullptr /\ inputBufferPtrEnd_ s = nullptr)
      \/ exists b a e,
           inputBufferStart_ s = Ptr InputChunk b
           /\ inputBufferPtr_ s = Ptr InputChunk a
           /\ inputBufferPtrEnd_ s = Ptr InputChunk e
           /\ 0 <= b <= a /\ a <= e
           /\ e <= Z.of_nat (length (content (input_ s)))
           /\ e - b < 2 ^ 31).

(** The bytes the stream has not consumed yet: the rest of the current
    chunk, then what the source has not handed out. *)
Definition unread (s : PagedInputStream) : list byte :=
  slice (ptr_diff (inputBufferPtr_ s) (Ptr InputChunk 0))
    (ptr_diff (inputBufferPtrEnd_ s) (inputBufferPtr_ s))
    (content (input_ s))
  ++ skipn (Z.to_nat (position (input_ s))) (content (input_ s)).

(** The 24-bit value of three header bytes. *)
Definition header_value (b0 b1 b2 : byte) : Z :=
  Z.lor (Z.lor (byte_val b0) (Z.shiftl (byte_val b1) 8))
    (Z.shiftl (byte_val b2) 16).

(** What readByte leaves alone besides the output side. *)
Definition byte_frame (s s' : PagedInputStream) : Prop :=
  io_frame s s'
  /\ state_ s' = state_ s
  /\ remainingLength_ s' = remainingLength_ s
  /\ inputBuffer_ s' = inputBuffer_ s
  /\ lastHeaderOffset_ s' = lastHeaderOffset_ s
  /\ bytesReturnedAtLastHeaderOffset_ s'
     = bytesReturnedAtLastHeaderOffset_ s
  /\ content (input_ s') = content (input_ s)
  /\ blockSize (input_ s') = blockSize (input_ s).


(** ** Streams that differ in what a skipped read does not establish *)

(** A state with the members cleared on which a read made for a skip and
    a read made for its bytes may differ: the log of calls, the skip
    count, and the output buffer with the pointer into the last view. *)
Definition core (s : PagedInputStream) : PagedInputStream :=
  set_calls []
    (set_pendingSkip 0 (set_outputBufferPtr nullptr (set_outputBuffer None s))).

Definition sim (s t : PagedInputStream) : Prop := core s = core t.

(** Two outcomes agree: the same failure, or values related by [R]. *)
Definition rsim {A : Type} (R : A -> A -> Prop) (x y : result A) : Prop :=
  match x, y with
  | Ok a, Ok b => R a b
  | Fatal e, Fatal e' => e = e'
  | OutOfFuel, OutOfFuel => True
  | _, _ => False
  end.

(** The capabilities behave.  On an input a block can hold (fewer than
    2^31 bytes) the decompressor reports a length that is not negative,
    writes the same bytes into any buffer that can hold the reported
    length, writes exactly that many when it calls the length exact, and
    never more than an int32_t counts; the decrypter returns fewer than
    2^31 bytes for such an input. *)
Definition honest (dz : Decompressor) : Prop :=
  forall (input : list byte),
    Z.of_nat (length input) < 2 ^ 31 ->
    let len := fst (getDecompressedLength dz input) in
    0 <= len < 2 ^ 63
    /\ (forall cap, len <= cap ->
          decompress dz input cap = decompress dz input len)
    /\ (snd (getDecompressedLength dz input) = true ->
          Z.of_nat (length (decompress dz input len)) = len)
    /\ Z.of_nat (length (decompress dz input len)) < 2 ^ 31.

Definition bounded (d : Decrypter) : Prop :=
  forall (input : list byte),
    Z.of_nat (length input) < 2 ^ 31 ->
    Z.of_nat (length (decrypt d input)) < 2 ^ 31.

(** A stream between two reads of a caller that respects the contract. *)
Definition wf_stream (s : PagedInputStream) : Prop :=
  wf_cursor s
  /\ 0 <= remainingLength_ s < 2 ^ 31
  /\ (forall dz, decompressor_ s = Some dz -> honest dz)
  /\ (forall d, decrypter_ s = Some d -> bounded d).

(** A pointer that is null or into the chunk handed out by the source. *)
Definition source_ptr (p : ptr) : Prop :=
  match p with
  | nullptr | Ptr InputChunk _ => True
  | Ptr _ _ => False
  end.

(** A pointer that is not into the output buffer. *)
Definition not_output (p : ptr) : Prop :=
  match p with
  | Ptr OutputBuf _ => False
  | _ => True
  end.

(** Related streams with a well-formed cursor. *)
Definition sim_wf (s t : PagedInputStream) : Prop :=
  sim s t /\ wf_cursor s.

(** Related results of readByte. *)
Definition sim_byte (x y : Z * PagedInputStream) : Prop :=
  fst x = fst y /\ 0 <= fst x < 256 /\ sim_wf (snd x) (snd y).

(** Related results of ensureInput. *)
Definition sim_input (x y : ptr * PagedInputStream) : Prop :=
  fst x = fst y /\ not_output (fst x) /\ sim_wf (snd x) (snd y).

(** Related results of readBuffer: a chunk with a byte to take, unless the
    stream has ended. *)
Definition sim_chunk (s t : PagedInputStream) : Prop :=
  sim_wf s t
  /\ (state_ s = END
      \/ ptr_eqb (inputBufferPtr_ s) (inputBufferPtrEnd_ s) = false).

(** Related results of readHeader. *)
Definition sim_header (s t : PagedInputStream) : Prop :=
  sim_wf s t /\ 0 <= remainingLength_ s < 2 ^ 31.

(** Related states once a header is read: a block is being served or the
    stream has ended. *)
Definition sim_block (s t : PagedInputStream) : Prop :=
  sim_wf s t /\ 0 <= remainingLength_ s < 2 ^ 31 /\ state_ s <> HEADER.

(** Related results of the window of a raw block: the view [(p, n)] lies
    in the chunk, between its start and the cursor, and the pointer past
    the view is the cursor. *)
Definition raw_window (w : bool) (out out' : out_params)
    (s t : PagedInputStream) : Prop :=
  exists p n,
    out = (p, n)
    /\ out' = (if w then p else nullptr, n)
    /\ 0 <= n <= ptr_diff (inputBufferPtr_ s) (inputBufferStart_ s)
    /\ source_ptr p
    /\ (0 < n -> p <> nullptr)
    /\ inputBufferPtr_ s = ptr_add p n
    /\ outputBufferPtr_ s = ptr_add p n
    /\ outputBufferPtr_ t = ptr_add p n
    /\ state_ s = ORIGINAL
    /\ decrypter_ s = None.

(** Related results of readOrSkip_fetch, the first for a read with a
    destination and the second for a read with or without ([w]). *)
Definition sim_fetch (w : bool)
    (x y : option (bool * ptr * out_params) * PagedInputStream) : Prop :=
  sim_block (snd x) (snd y)
  /\ match fst x, fst y with
     | None, None => state_ (snd x) = END
     | Some (o, input, out), Some (o', input', out') =>
         o = o' /\ input = input' /\ not_output input
         /\ state_ (snd x) <> END
         /\ (if o then raw_window w out out' (snd x) (snd y)
             else out = (nullptr, 0) /\ out' = (nullptr, 0)
                  /\ original (snd x) = false)
     | _, _ => False
     end.

(** A pointer whose offset is not negative. *)
Definition valid_view (p : ptr) : Prop :=
  match p with
  | nullptr => True
  | Ptr _ off => 0 <= off
  end.

(** The checks BackUp makes in state ORIGINAL hold for every count up to
    [n]. *)
Definition window_checks (t : PagedInputStream) (n : Z) : Prop :=
  state_ t = ORIGINAL -> 0 < n ->
  ptr_leb (inputBufferStart_ t) (outputBufferPtr_ t)
  && ptr_leb (outputBufferPtr_ t) (inputBufferPtrEnd_ t) = true
  /\ n <= ptr_diff (inputBufferPtr_ t) (inputBufferStart_ t) < 2 ^ 64.

(** The view [(p, n)] returned by a read of [s'] with a destination, set
    against the read [(p', n)] of a related stream that left [t']: when
    the second read had a destination too, or skipped fewer bytes than it
    produced ([skip < n]), it left the same bytes, rewindable, behind. *)
Definition view_ok (s' t' : PagedInputStream) (w : bool) (skip : Z)
    (p p' : ptr) (n : Z) : Prop :=
  0 <= n < 2 ^ 31
  /\ Z.of_nat (length (view s' p n)) = n
  /\ valid_view p
  /\ (w = true -> p' = p)
  /\ (w = true \/ skip < n ->
      view t' p n = view s' p n
      /\ outputBufferPtr_ t' = ptr_add p n
      /\ (0 < n -> p <> nullptr)
      /\ window_checks t' n).

(** Related results of a read. *)
Definition sim_read (w : bool) (skip : Z)
    (x y : option out_params * PagedInputStream) : Prop :=
  sim (snd x) (snd y)
  /\ wf_stream (snd x)
  /\ outputBufferLength_ (snd x) = 0
  /\ outputBufferLength_ (snd y) = 0
  /\ match fst x, fst y with
     | None, None => True
     | Some (p, n), Some (p', n') =>
         n' = n /\ view_ok (snd x) (snd y) w skip p p' n
     | _, _ => False
     end.

(** One round of readAll: the views after the first are read with
    [fuel]. *)
Definition readAll_round (fuel fuel' : nat) (s : PagedInputStream)
  : result (list byte) :=
  '(r, s) <- Next fuel s ;;
  match r with
  | None => Ok []
  | Some (p, size) =>
      rest <- readAll fuel' s ;;
      Ok (view s p size ++ rest)
  end.

(** A "stored" codec: the block is its own decompressed form. *)
Definition stored : Decompressor :=
  MkDecompressor
    (fun input => (Z.of_nat (length input), true))
    (fun input _ => input).

(** A raw block of five bytes, a stored block of three, a raw block of
    four, handed out in chunks of four bytes. *)
Definition mixed_blocks : list byte :=
  encodeHeader true 5 ++ map byte_of_Z [0; 1; 2; 3; 4]
  ++ encodeHeader false 3 ++ map byte_of_Z [10; 11; 12]
  ++ encodeHeader true 4 ++ map byte_of_Z [30; 31; 32; 33].

Definition mixed_stream : PagedInputStream :=
  create (MkInput mixed_blocks 4 0) (Some stored) (Some flipping).

(** [raw_block] read in chunks of five bytes, after two reads: the first
    returned bytes 0-1, the second bytes 2-6 (the window is five bytes
    long and seven bytes are returned). *)
Definition chunked_raw_stream_read : PagedInputStream :=
  MkStream (MkInput raw_block 5 10) None None (alloc 0) None None ORIGINAL
    (Ptr InputChunk 10) 0 3 (Ptr InputChunk 5) (Ptr InputChunk 10)
    (Ptr InputChunk 10) 7 5 0 0 0 [EvNext; EvNext].

(** ** Framed streams *)

(** Modelled from the spec: a block as the writer stores it, the header
    with the flag and the byte length, then the bytes of the block.  A
    block is given by its flag (raw or not) and its stored bytes. *)
Definition encodeBlock (b : bool * list byte) : list byte :=
  encodeHeader (fst b) (Z.of_nat (length (snd b))) ++ snd b.

Definition encodeStream (blocks : list (bool * list byte)) : list byte :=
  flat_map encodeBlock blocks.

(** The bytes a block stands for: its stored bytes, decrypted when the
    stream has a decrypter, and then decompressed unless the block is
    raw. *)
Definition decodeBlock (dz : option Decompressor) (d : option Decrypter)
    (b : bool * list byte) : list byte :=
  let plain :=
    match d with Some d => decrypt d (snd b) | None => snd b end in
  if fst b then plain
  else
    match dz with
    | Some z => decompress z plain (fst (getDecompressedLength z plain))
    | None => []
    end.

Definition decodeStream (dz : option Decompressor) (d : option Decrypter)
    (blocks : list (bool * list byte)) : list byte :=
  flat_map (decodeBlock dz d) blocks.

(** A block a stream can serve: it has a byte at least and fewer than
    2^23, the length a header can hold, and a block that is not raw comes
    with a decompressor. *)
Definition servable (dz : option Decompressor) (b : bool * list byte)
  : Prop :=
  0 < Z.of_nat (length (snd b)) < 2 ^ 23
  /\ (fst b = false -> dz <> None).

(** The bytes of a buffer fill its capacity. *)
Definition wf_buffer (b : DataBuffer) : Prop :=
  capacity b <= Z.of_nat (length (data b)).

(** The chunk under the cursor, when there is one, is the last the source
    handed out: it ends where the source stands. *)
Definition cursor_at_source (s : PagedInputStream) : Prop :=
  inputBufferPtrEnd_ s = nullptr
  \/ inputBufferPtrEnd_ s = Ptr InputChunk (position (input_ s)).

(** A stream between two reads, with nothing pushed back and no skip
    pending, that has not reached the end. *)
Definition ready (s : PagedInputStream) : Prop :=
  wf_stream s
  /\ wf_buffer (inputBuffer_ s)
  /\ outputBufferLength_ s = 0
  /\ pendingSkip_ s = 0
  /\ state_ s <> END.

(** Where a stream stands in a framed source: [cur] is what is left of
    the raw block being served (nothing when a header is due) and
    [blocks] are the blocks after it. *)
Definition at_position (s : PagedInputStream) (cur : list byte)
    (blocks : list (bool * list byte)) : Prop :=
  unread s = cur ++ encodeStream blocks
  /\ remainingLength_ s = Z.of_nat (length cur)
  /\ (cur <> [] -> state_ s = ORIGINAL /\ decrypter_ s = None).

(** Two raw blocks of ten bytes, handed out in chunks of five. *)
Definition two_raw_blocks : PagedInputStream :=
  create (MkInput (raw_block ++ raw_block) 5 0) None None.

(** [compressed_block] handed out in chunks of four bytes, once the
    header is read: one byte of the block is at hand, two are still in
    the source. *)
Definition compressed_stream_header_read : PagedInputStream :=
  MkStream (MkInput compressed_block 4 4) (Some doubling) None (alloc 0)
    None None START nullptr 0 3 (Ptr InputChunk 0) (Ptr InputChunk 3)
    (Ptr InputChunk 4) 0 0 0 0 0 [EvNext].

(** What a read keeps of the stream it is made on: the capabilities, the
    skip count and the source, apart from where it stands. *)
Definition kept (s s' : PagedInputStream) : Prop :=
  decompressor_ s' = decompressor_ s
  /\ decrypter_ s' = decrypter_ s
  /\ pendingSkip_ s' = pendingSkip_ s
  /\ content (input_ s') = content (input_ s)
  /\ blockSize (input_ s') = blockSize (input_ s).

(** The blocks of [mixed_blocks]. *)
Definition mixed_block_list : list (bool * list byte) :=
  [(true, map byte_of_Z [0; 1; 2; 3; 4]);
   (false, map byte_of_Z [10; 11; 12]);
   (true, map byte_of_Z [30; 31; 32; 33])].

(** The ten bytes of [raw_block]. *)
Definition ten_bytes : list byte :=
  map byte_of_Z [0; 1; 2; 3; 4; 5; 6; 7; 8; 9].

(** * Properties *)

(** ** Arithmetic of the conversions *)

Lemma int32_small (z : Z) : - 2 ^ 31 <= z < 2 ^ 31 -> int32 z = z.
Proof.
  intros H. unfold int32.
  rewrite Z.mod_small by lia. lia.
Qed.

Lemma int64_small (z : Z) : - 2 ^ 63 <= z < 2 ^ 63 -> int64 z = z.
Proof.
  intros H. unfold int64.
  rewrite Z.mod_small by lia. lia.
Qed.

Lemma to_size_t_small (z : Z) : 0 <= z < 2 ^ 64 -> to_size_t z = z.
Proof. intros H. unfold to_size_t. apply Z.mod_small. lia. Qed.

Lemma State_eqb_eq (a b : State) : State_eqb a b = true <-> a = b.
Proof. destruct a, b; simpl; split; congruence. Qed.

(** ** skip *)

(** C8: for every count >= 0 and every stream state, skip(count) returns
    true and yields the state in which pendingSkip_ has grown by count;
    every other member, the underlying source and the log of collaborator
    calls included, is the one of the state before. *)
Theorem skip_only_defers (count : Z) (s : PagedInputStream) :
  0 <= count < 2 ^ 63 ->
  exists s',
    skip count s = Ok (true, s')
    /\ pendingSkip_ s' = pendingSkip_ s + count
    /\ s' = set_pendingSkip (pendingSkip_ s') s
    /\ input_ s' = input_ s
    /\ calls_ s' = calls_ s
    /\ state_ s' = state_ s
    /\ lastHeaderOffset_ s' = lastHeaderOffset_ s
    /\ bytesReturned_ s' = bytesReturned_ s
    /\ inputBuffer_ s' = inputBuffer_ s
    /\ outputBuffer_ s' = outputBuffer_ s
    /\ decryptionBuffer_ s' = decryptionBuffer_ s
    /\ outputBufferPtr_ s' = outputBufferPtr_ s
    /\ outputBufferLength_ s' = outputBufferLength_ s.
Proof.
  intros Hc. unfold skip, ensure.
  rewrite int64_small by lia.
  assert (E : (0 <=? count) = true) by (apply Z.leb_le; lia).
  rewrite E. simpl.
  eexists. split; [reflexivity|].
  simpl. repeat split.
Qed.

Lemma skip_only_defers_witness :
  0 <= 7 < 2 ^ 63
  /\ exists s',
       skip 7 (create (MkInput [] 4 0) None None) = Ok (true, s')
       /\ pendingSkip_ s' = 7.
Proof.
  assert (H : 0 <= 7 < 2 ^ 63) by lia.
  split; [exact H|].
  destruct (skip_only_defers 7 (create (MkInput [] 4 0) None None) H)
    as (s' & Hs & Hp & _).
  exists s'. split; [exact Hs|exact Hp].
Defined.

(** ** BackUp *)

Lemma BackUp_rewind_null (count : Z) (s : PagedInputStream) :
  outputBufferPtr_ s = nullptr ->
  BackUp_rewind count s = Fatal BackupWithoutNext.
Proof. intros H. unfold BackUp_rewind. rewrite H. reflexivity. Qed.

Lemma BackUp_rewind_fields (count : Z) (s s' : PagedInputStream) :
  BackUp_rewind count s = Ok s' ->
  s' = set_bytesReturned (bytesReturned_ s - count)
         (set_outputBufferLength (outputBufferLength_ s + to_size_t count)
           (set_outputBufferPtr
             (ptr_add (outputBufferPtr_ s) (- to_size_t count)) s)).
Proof.
  unfold BackUp_rewind, ensure.
  destruct (negb (is_null (outputBufferPtr_ s))); simpl; [|discriminate].
  destruct (State_eqb (state_ s) ORIGINAL); simpl.
  - destruct (ptr_leb _ _ && ptr_leb _ _); simpl; [|discriminate].
    destruct (_ <=? _); simpl; [|discriminate].
    intros H; inversion H; reflexivity.
  - intros H; inversion H; reflexivity.
Qed.

Lemma BackUp_cases (count : Z) (s : PagedInputStream) :
  0 <= count < 2 ^ 31 ->
  BackUp count s =
    if 0 <? pendingSkip_ s
    then
      if count <=? pendingSkip_ s
      then Ok (set_pendingSkip (pendingSkip_ s - count) s)
      else BackUp_rewind (count - pendingSkip_ s) (set_pendingSkip 0 s)
    else BackUp_rewind count s.
Proof.
  intros Hc. unfold BackUp, ensure.
  rewrite (int32_small count) by lia.
  assert (E : (0 <=? count) = true) by (apply Z.leb_le; lia).
  rewrite E. simpl.
  destruct (0 <? pendingSkip_ s) eqn:Ep; simpl; [|reflexivity].
  apply Z.ltb_lt in Ep.
  rewrite int32_small by lia.
  destruct (count <=? pendingSkip_ s) eqn:El.
  - apply Z.leb_le in El. rewrite Z.min_l by lia.
    replace (count - count) with 0 by lia. reflexivity.
  - apply Z.leb_gt in El.
    rewrite Z.min_r by lia.
    replace (pendingSkip_ s - pendingSkip_ s) with 0 by lia.
    destruct (count - pendingSkip_ s =? 0) eqn:E0;
      [apply Z.eqb_eq in E0; lia | reflexivity].
Qed.

Example raw_stream_Next :
  Next 1 raw_stream = Ok (Some (Ptr InputChunk 3, 10), raw_stream_read).
Proof. reflexivity. Qed.

Lemma int32_range (z : Z) : - 2 ^ 31 <= int32 z < 2 ^ 31.
Proof.
  unfold int32.
  pose proof (Z.mod_pos_bound (z + 2 ^ 31) (2 ^ 32)). lia.
Qed.

Lemma int32_idem (z : Z) : int32 (int32 z) = int32 z.
Proof. apply int32_small. apply int32_range. Qed.

Lemma BackUp_int32 (count : Z) (s : PagedInputStream) :
  BackUp count s = BackUp (int32 count) s.
Proof. unfold BackUp. rewrite int32_idem. reflexivity. Qed.

Lemma BackUp_negative (count : Z) (s : PagedInputStream) :
  int32 count < 0 -> BackUp count s = Fatal CheckFailed.
Proof.
  intros H. unfold BackUp, ensure.
  assert (E : (0 <=? int32 count) = false) by (apply Z.leb_gt; exact H).
  rewrite E. reflexivity.
Qed.

(** With no view to rewind, BackUp returns only when pendingSkip_ takes
    the whole count. *)
Lemma BackUp_null_inv (count : Z) (s s' : PagedInputStream) :
  outputBufferPtr_ s = nullptr ->
  BackUp count s = Ok s' ->
  0 < pendingSkip_ s /\ 0 <= int32 count <= pendingSkip_ s
  /\ s' = set_pendingSkip (pendingSkip_ s - int32 count) s.
Proof.
  intros Hn. rewrite BackUp_int32.
  pose proof (int32_range count) as Hr.
  destruct (Z.ltb_spec (int32 count) 0) as [Hneg|Hpos].
  - rewrite <- BackUp_int32, BackUp_negative by exact Hneg. discriminate.
  - rewrite BackUp_cases by lia.
    destruct (0 <? pendingSkip_ s) eqn:E1.
    + destruct (int32 count <=? pendingSkip_ s) eqn:E2.
      * intros H. inversion H.
        apply Z.ltb_lt in E1. apply Z.leb_le in E2. auto.
      * rewrite BackUp_rewind_null by exact Hn. discriminate.
    + rewrite BackUp_rewind_null by exact Hn. discriminate.
Qed.

(** C5 (as amended): for every call BackUp(count) with count >= 0 that
    returns, pendingSkip_ is lowered by min(count, pendingSkip_), and
    bytesReturned_ is lowered, and the replay window (outputBufferPtr_,
    outputBufferLength_) enlarged, by the rest of the count, that is by
    count - min(count, pendingSkip_). *)
Theorem BackUp_effect (count : Z) (s s' : PagedInputStream) :
  0 <= count < 2 ^ 31 ->
  0 <= pendingSkip_ s ->
  BackUp count s = Ok s' ->
  pendingSkip_ s' = pendingSkip_ s - absorbed count s
  /\ bytesReturned_ s' = bytesReturned_ s - (count - absorbed count s)
  /\ outputBufferLength_ s'
     = outputBufferLength_ s + (count - absorbed count s)
  /\ outputBufferPtr_ s'
     = ptr_add (outputBufferPtr_ s) (- (count - absorbed count s)).
Proof.
  intros Hc Hp. rewrite BackUp_cases by exact Hc. unfold absorbed.
  destruct (0 <? pendingSkip_ s) eqn:E1.
  - apply Z.ltb_lt in E1.
    destruct (count <=? pendingSkip_ s) eqn:E2.
    + apply Z.leb_le in E2. intros H; inversion H; subst; simpl.
      rewrite Z.min_l by lia.
      replace (count - count) with 0 by lia.
      repeat split; try lia.
      destruct (outputBufferPtr_ s); simpl; [reflexivity|].
      f_equal. lia.
    + apply Z.leb_gt in E2. intros H.
      apply BackUp_rewind_fields in H. subst s'. simpl.
      rewrite Z.min_r by lia.
      rewrite to_size_t_small by lia.
      repeat split; lia.
  - apply Z.ltb_ge in E1. intros H.
    apply BackUp_rewind_fields in H. subst s'. simpl.
    rewrite Z.min_r by lia.
    rewrite to_size_t_small by lia.
    replace (count - pendingSkip_ s) with count by lia.
    repeat split; lia.
Qed.

Lemma BackUp_effect_witness :
  0 <= 5 < 2 ^ 31
  /\ 0 <= pendingSkip_ (set_pendingSkip 3 raw_stream_read)
  /\ exists s',
       BackUp 5 (set_pendingSkip 3 raw_stream_read) = Ok s'
       /\ pendingSkip_ s' = 0
       /\ bytesReturned_ s' = 8
       /\ outputBufferLength_ s' = 2
       /\ outputBufferPtr_ s' = Ptr InputChunk 11.
Proof.
  assert (Hc : 0 <= 5 < 2 ^ 31) by lia.
  assert (Hp : 0 <= pendingSkip_ (set_pendingSkip 3 raw_stream_read))
    by (simpl; lia).
  split; [exact Hc|]. split; [exact Hp|].
  eexists. split; [reflexivity|].
  exact (BackUp_effect 5 (set_pendingSkip 3 raw_stream_read) _ Hc Hp eq_refl).
Defined.

(** C5 as stated fails: after a read of ten bytes and skip(3), BackUp(5)
    lowers bytesReturned_ from 10 to 8 and makes the replay window two
    bytes long, not five. *)
Lemma BackUp_not_by_count :
  ~ (forall (count : Z) (s s' : PagedInputStream),
        0 <= count ->
        BackUp count s = Ok s' ->
        pendingSkip_ s' = pendingSkip_ s - Z.min count (pendingSkip_ s)
        /\ bytesReturned_ s' = bytesReturned_ s - count
        /\ outputBufferLength_ s' = outputBufferLength_ s + count).
Proof.
  intros H.
  destruct (H 5 (set_pendingSkip 3 raw_stream_read) _ ltac:(lia) eq_refl)
    as (_ & Hb & _).
  vm_compute in Hb. discriminate Hb.
Qed.
(** ** seekToPosition *)

Lemma uint64_small (z : Z) : 0 <= z < 2 ^ 64 -> uint64 z = z.
Proof. intros H. unfold uint64. apply Z.mod_small. exact H. Qed.

Lemma uint64_range (z : Z) : 0 <= uint64 z < 2 ^ 64.
Proof. unfold uint64. apply Z.mod_pos_bound. lia. Qed.

Lemma alreadyRead_range (s : PagedInputStream) :
  0 <= alreadyRead s < 2 ^ 64.
Proof. apply uint64_range. Qed.

Lemma alreadyRead_spec (s : PagedInputStream) :
  alreadyRead s = readSinceHeader s.
Proof. reflexivity. Qed.

Lemma outsideOriginalWindow_spec (c u : Z) (s : PagedInputStream) :
  0 <= u ->
  outsideOriginalWindow c u s = true <-> outsideWindow c u s.
Proof.
  intros Hu. unfold outsideOriginalWindow, outsideWindow.
  change (readSinceHeader s) with (alreadyRead s).
  pose proof (alreadyRead_range s) as Ha.
  rewrite !andb_true_iff, State_eqb_eq, Z.eqb_eq, !Z.ltb_lt.
  fold (uint64 (lastHeaderOffset_ s)). fold (uint64 (lastWindowSize_ s)).
  split.
  - intros (((A & B) & C) & D).
    rewrite (uint64_small (alreadyRead s - u)) in D by lia. auto.
  - intros (A & B & C & D).
    rewrite (uint64_small (alreadyRead s - u)) by lia. auto.
Qed.

Lemma reseek_condition (c u : Z) (s : PagedInputStream) :
  0 <= u ->
  negb (c =? uint64 (lastHeaderOffset_ s)) || outsideOriginalWindow c u s
  = true
  <-> c <> lastHeaderOffset_ s mod 2 ^ 64 \/ outsideWindow c u s.
Proof.
  intros Hu.
  rewrite orb_true_iff, negb_true_iff, Z.eqb_neq,
    (outsideOriginalWindow_spec c u s Hu).
  tauto.
Qed.

(** seekToPosition on offsets that are unsigned 64-bit integers. *)
Lemma seekToPosition_unfold (c u : Z) (s : PagedInputStream) :
  0 <= c < 2 ^ 64 ->
  0 <= u < 2 ^ 64 ->
  seekToPosition c u s
  = if negb (c =? uint64 (lastHeaderOffset_ s))
       || outsideOriginalWindow c u s
    then Ok (full_reseek c u s)
    else if u <? alreadyRead s
         then BackUp (alreadyRead s - u) s
         else Ok (set_pendingSkip (pendingSkip_ s + (u - alreadyRead s)) s).
Proof.
  intros Hc Hu. unfold seekToPosition. cbv zeta.
  rewrite (uint64_small c Hc), (uint64_small u Hu).
  pose proof (alreadyRead_range s) as Ha.
  destruct (negb (c =? uint64 (lastHeaderOffset_ s))
            || outsideOriginalWindow c u s); [reflexivity|].
  destruct (u <? alreadyRead s) eqn:E.
  - apply Z.ltb_lt in E. rewrite uint64_small by lia. reflexivity.
  - apply Z.ltb_ge in E. rewrite uint64_small by lia. reflexivity.
Qed.

Lemma BackUp_keeps_source (count : Z) (s s' : PagedInputStream) :
  BackUp count s = Ok s' ->
  input_ s' = input_ s /\ calls_ s' = calls_ s /\ state_ s' = state_ s.
Proof.
  unfold BackUp, ensure.
  destruct (0 <=? int32 count); simpl; [|discriminate].
  destruct (0 <? pendingSkip_ s).
  - destruct (_ =? 0).
    + intros H; inversion H; subst; simpl; auto.
    + intros H. apply BackUp_rewind_fields in H. subst; simpl; auto.
  - intros H. apply BackUp_rewind_fields in H. subst; simpl; auto.
Qed.


Example chunked_raw_stream_reads :
  ('(_, s) <- Next 1 (create (MkInput raw_block 5 0) None None) ;;
   '(_, s) <- Next 1 s ;;
   Ok s) = Ok chunked_raw_stream_read.
Proof. reflexivity. Qed.


(** ** What fetching input leaves alone *)

Lemma io_frame_refl (s : PagedInputStream) : io_frame s s.
Proof. unfold io_frame. repeat split. Qed.

Lemma io_frame_trans (s1 s2 s3 : PagedInputStream) :
  io_frame s1 s2 -> io_frame s2 s3 -> io_frame s1 s3.
Proof.
  unfold io_frame.
  intros (A1 & A2 & A3 & A4 & A5 & A6 & A7 & A8 & A9)
         (B1 & B2 & B3 & B4 & B5 & B6 & B7 & B8 & B9).
  repeat split; congruence.
Qed.

Ltac frame_step :=
  match goal with
  | |- io_frame ?s ?s => apply io_frame_refl
  | |- io_frame _ _ => unfold io_frame; simpl; repeat split; fail
  end.

Lemma readBuffer_frame (f : bool) (s s' : PagedInputStream) :
  readBuffer f s = Ok s' -> io_frame s s'.
Proof.
  unfold readBuffer, ensure.
  destruct (Input.Next (input_ s)) as [[[p n]|] i].
  - intros H; inversion H; subst. frame_step.
  - destruct (negb f); simpl; [|discriminate].
    intros H; inversion H; subst. frame_step.
Qed.

Lemma readByte_frame (f : bool) (s s' : PagedInputStream) (b : Z) :
  readByte f s = Ok (b, s') -> io_frame s s'.
Proof.
  unfold readByte.
  assert (D : forall s0 s1 b0,
             (b <- load s0 (inputBufferPtr_ s0) ;;
              Ok (byte_val b,
                  set_inputBufferPtr (ptr_add (inputBufferPtr_ s0) 1) s0))
             = Ok (b0, s1) -> io_frame s0 s1).
  { intros s0 s1 b0. destruct (load s0 (inputBufferPtr_ s0)); simpl;
      try discriminate.
    intros H; inversion H; subst. frame_step. }
  destruct (ptr_eqb (inputBufferPtr_ s) (inputBufferPtrEnd_ s)).
  - destruct (readBuffer f s) as [s1| |] eqn:E; simpl; try discriminate.
    apply readBuffer_frame in E.
    destruct (State_eqb (state_ s1) END).
    + intros H; inversion H; subst. exact E.
    + intros H. apply D in H. eapply io_frame_trans; eassumption.
  - apply D.
Qed.

(** The header a block starts with, once the three bytes are assembled. *)
Lemma readHeader_inv (s s' : PagedInputStream) :
  readHeader s = Ok s' ->
  exists b0 s0,
    readByte false s = Ok (b0, s0)
    /\ let t0 :=
         set_bytesReturnedAtLastHeaderOffset (bytesReturned_ s0)
           (set_lastHeaderOffset
              (Input.ByteCount (input_ s0)
               - ptr_diff (inputBufferPtrEnd_ s0) (inputBufferPtr_ s0) - 1)
              s0) in
       (state_ s0 = END /\ s' = set_remainingLength 0 t0)
       \/ (state_ s0 <> END
           /\ exists b1 s1 b2 s2,
               readByte true t0 = Ok (b1, s1)
               /\ readByte true s1 = Ok (b2, s2)
               /\ let header :=
                    Z.lor (Z.lor b0 (uint32 (Z.shiftl b1 8)))
                      (uint32 (Z.shiftl b2 16)) in
                  s' = set_remainingLength (Z.shiftr header 1)
                         (set_state
                            (if Z.land header 1 =? 0 then START
                             else ORIGINAL) s2)).
Proof.
  unfold readHeader.
  destruct (readByte false s) as [[b0 s0]| |] eqn:E0; cbn [bind];
    try discriminate.
  intros H. exists b0, s0. split; [reflexivity|].
  cbv zeta. cbv zeta in H.
  change (state_ (set_bytesReturnedAtLastHeaderOffset _ _))
    with (state_ s0) in H.
  destruct (State_eqb (state_ s0) END) eqn:Es; cbn [negb] in H.
  - left. apply State_eqb_eq in Es. split; [exact Es|].
    inversion H; reflexivity.
  - right. split.
    { intros Hc. rewrite Hc in Es. discriminate. }
    destruct (readByte true _) as [[b1 s1]| |] eqn:E1 in H; cbn [bind] in H;
      try discriminate.
    destruct (readByte true s1) as [[b2 s2]| |] eqn:E2; cbn [bind] in H;
      try discriminate.
    exists b1, s1, b2, s2. split; [exact E1|]. split; [exact E2|].
    inversion H.
    destruct (Z.land _ 1 =? 0); reflexivity.
Qed.

Lemma readHeader_frame (s s' : PagedInputStream) :
  readHeader s = Ok s' -> io_frame s s'.
Proof.
  intros H. apply readHeader_inv in H.
  destruct H as (b0 & s0 & E0 & H). cbv zeta in H.
  apply readByte_frame in E0.
  destruct H as [[_ ->] | [_ (b1 & s1 & b2 & s2 & E1 & E2 & ->)]].
  - eapply io_frame_trans; [exact E0|frame_step].
  - apply readByte_frame in E1. apply readByte_frame in E2.
    eapply io_frame_trans; [exact E0|].
    eapply io_frame_trans; [|eapply io_frame_trans; [exact E1|]].
    + frame_step.
    + eapply io_frame_trans; [exact E2|]. frame_step.
Qed.

Lemma ensureInput_loop_frame (fuel : nat) :
  forall (pos : Z) (s s' : PagedInputStream),
    ensureInput_loop fuel pos s = Ok s' -> io_frame s s'.
Proof.
  induction fuel as [|fuel IH]; intros pos s s'; simpl.
  - destruct (pos <? remainingLength_ s); [discriminate|].
    intros H; inversion H; subst. apply io_frame_refl.
  - destruct (pos <? remainingLength_ s).
    + destruct (readBuffer true s) as [s1| |] eqn:E1; simpl;
        try discriminate.
      apply readBuffer_frame in E1.
      destruct (read_range s1 _ _) as [bytes| |]; simpl; try discriminate.
      intros H. apply IH in H.
      eapply io_frame_trans; [exact E1|].
      eapply io_frame_trans; [|exact H]. frame_step.
    + intros H; inversion H; subst. apply io_frame_refl.
Qed.

Lemma ensureInput_frame (n : Z) (s s' : PagedInputStream) (input : ptr) :
  ensureInput n s = Ok (input, s') -> io_frame s s'.
Proof.
  unfold ensureInput.
  destruct (remainingLength_ s <=? n).
  - intros H; inversion H; subst. frame_step.
  - match goal with
    | |- context [read_range ?t _ _] =>
        set (t0 := t); assert (F0 : io_frame s t0)
          by (subst t0; destruct (capacity _ <? _); frame_step)
    end.
    destruct (read_range t0 _ _) as [bytes| |]; simpl; try discriminate.
    destruct (ensureInput_loop _ _ _) as [s1| |] eqn:E1; simpl;
      try discriminate.
    apply ensureInput_loop_frame in E1.
    intros H; inversion H; subst.
    eapply io_frame_trans; [exact F0|].
    eapply io_frame_trans; [|exact E1]. frame_step.
Qed.

(** ** What a read leaves alone *)

Lemma io_read_frame (s s' : PagedInputStream) :
  io_frame s s' -> read_frame s s'.
Proof. unfold io_frame, read_frame. tauto. Qed.

Lemma read_frame_trans (s1 s2 s3 : PagedInputStream) :
  read_frame s1 s2 -> read_frame s2 s3 -> read_frame s1 s3.
Proof.
  unfold read_frame. intros (A1 & A2 & A3) (B1 & B2 & B3).
  repeat split; congruence.
Qed.

Ltac read_frame_step :=
  unfold read_frame; simpl; repeat split; fail.

Lemma readOrSkip_fetch_inv (w : bool) (s s' : PagedInputStream) r :
  readOrSkip_fetch w s = Ok (r, s') ->
  exists t1,
    readOrSkip_header (set_decryptionBuffer None s) = Ok t1
    /\ ((state_ t1 = END /\ r = None /\ s' = t1)
        \/ (state_ t1 <> END
            /\ exists t2,
                readOrSkip_chunk t1 = Ok t2
                /\ ((original t2 = true
                     /\ r = Some (true, nullptr,
                                  fst (readOrSkip_original w (availSize t2)
                                         t2))
                     /\ s' = snd (readOrSkip_original w (availSize t2) t2))
                    \/ (original t2 = false
                        /\ exists input,
                            ensureInput (availSize t2) t2 = Ok (input, s')
                            /\ r = Some (false, input, (nullptr, 0)))))).
Proof.
  unfold readOrSkip_fetch.
  destruct (readOrSkip_header (set_decryptionBuffer None s)) as [t1| |];
    cbn [bind]; try discriminate.
  intros H. exists t1. split; [reflexivity|].
  destruct (State_eqb (state_ t1) END) eqn:Es.
  - left. apply State_eqb_eq in Es. inversion H; subst; auto.
  - right. split.
    { intros Hc. rewrite Hc in Es. discriminate. }
    destruct (readOrSkip_chunk t1) as [t2| |]; cbn [bind] in H;
      try discriminate.
    exists t2. split; [reflexivity|].
    destruct (original t2).
    + left. split; [reflexivity|].
      destruct (readOrSkip_original w (availSize t2) t2) as [out t3].
      inversion H; subst; auto.
    + right. split; [reflexivity|].
      destruct (ensureInput (availSize t2) t2) as [[input t3]| |];
        cbn [bind] in H; try discriminate.
      exists input. inversion H; subst; auto.
Qed.

Lemma readOrSkip_header_frame (s s' : PagedInputStream) :
  readOrSkip_header s = Ok s' -> io_frame s s'.
Proof.
  unfold readOrSkip_header.
  destruct (State_eqb (state_ s) HEADER || (remainingLength_ s =? 0)).
  - apply readHeader_frame.
  - intros H; inversion H; subst. apply io_frame_refl.
Qed.

Lemma readOrSkip_chunk_frame (s s' : PagedInputStream) :
  readOrSkip_chunk s = Ok s' -> io_frame s s'.
Proof.
  unfold readOrSkip_chunk.
  destruct (ptr_eqb (inputBufferPtr_ s) (inputBufferPtrEnd_ s)).
  - apply readBuffer_frame.
  - intros H; inversion H; subst. apply io_frame_refl.
Qed.

Lemma readOrSkip_fetch_frame (w : bool) (s s' : PagedInputStream) r :
  readOrSkip_fetch w s = Ok (r, s') -> read_frame s s'.
Proof.
  intros H. apply readOrSkip_fetch_inv in H.
  destruct H as (t1 & E1 & H).
  apply readOrSkip_header_frame, io_read_frame in E1.
  assert (F1 : read_frame s t1).
  { eapply read_frame_trans; [|exact E1]. read_frame_step. }
  destruct H as [(_ & _ & ->) | (_ & t2 & E2 & H)]; [exact F1|].
  apply readOrSkip_chunk_frame, io_read_frame in E2.
  pose proof (read_frame_trans _ _ _ F1 E2) as F2.
  destruct H as [(_ & _ & ->) | (_ & input & E3 & _)].
  - eapply read_frame_trans; [exact F2|]. read_frame_step.
  - apply ensureInput_frame, io_read_frame in E3.
    eapply read_frame_trans; eassumption.
Qed.

Lemma readOrSkip_decrypt_frame (w : bool) input out (s s' : PagedInputStream)
    input' out' :
  readOrSkip_decrypt w input out s = Ok (input', out', s') ->
  read_frame s s'.
Proof.
  unfold readOrSkip_decrypt.
  destruct (decrypter_ s) as [d|].
  - destruct (read_range s input (remainingLength_ s)) as [bytes| |];
      cbn [bind]; try discriminate.
    intros H; inversion H; subst. read_frame_step.
  - intros H; inversion H; subst. read_frame_step.
Qed.

Lemma prepareOutputBuffer_fields (n : Z) (s : PagedInputStream) :
  exists b, prepareOutputBuffer n s = set_outputBuffer (Some b) s
            /\ uint64 n <= capacity b.
Proof.
  unfold prepareOutputBuffer.
  destruct (outputBuffer_ s) as [b|] eqn:E.
  - destruct (capacity b <? uint64 n) eqn:Ec.
    + eexists; split; [reflexivity|]. simpl. lia.
    + apply Z.ltb_ge in Ec. exists b. split; [|exact Ec].
      destruct s; simpl in *; subst; reflexivity.
  - eexists; split; [reflexivity|]. simpl. lia.
Qed.

Lemma readOrSkip_decompress_frame (w : bool) input out
    (s s' : PagedInputStream) out' :
  readOrSkip_decompress w input out s = Ok (out', s') ->
  read_frame s s'.
Proof.
  unfold readOrSkip_decompress.
  destruct (State_eqb (state_ s) START).
  - destruct (decompressor_ s) as [dz|]; [|discriminate].
    destruct (ensure _ _); cbn [bind]; try discriminate.
    destruct (read_range s input (remainingLength_ s)) as [bytes| |];
      cbn [bind]; try discriminate.
    destruct (getDecompressedLength dz bytes) as [len exact].
    destruct (negb w && exact && (len <=? pendingSkip_ _)).
    + cbn [bind]. intros H; inversion H; subst. read_frame_step.
    + destruct (prepareOutputBuffer_fields len
                  (log (EvGetDecompressedLength bytes) s)) as (b & -> & _).
      cbn [bind outputBuffer_ set_outputBuffer].
      intros H; inversion H; subst. read_frame_step.
  - intros H; inversion H; subst. read_frame_step.
Qed.

Lemma readOrSkip_frame (w : bool) (s s' : PagedInputStream) r :
  readOrSkip w s = Ok (r, s') -> read_frame s s'.
Proof.
  unfold readOrSkip.
  destruct (ensure _ _); cbn [bind]; try discriminate.
  destruct (negb (outputBufferLength_ s =? 0)).
  - intros H; inversion H; subst. read_frame_step.
  - unfold readOrSkip_block.
    destruct (readOrSkip_fetch w s) as [[[[[original input] out]|] s1]| |]
      eqn:E1; cbn [bind]; try discriminate.
    + apply readOrSkip_fetch_frame in E1.
      destruct (readOrSkip_decrypt w input out s1)
        as [[[input2 out2] s2]| |] eqn:E2; cbn [bind]; try discriminate.
      apply readOrSkip_decrypt_frame in E2.
      destruct (readOrSkip_decompress w input2 out2 s2)
        as [[out3 s3]| |] eqn:E3; cbn [bind]; try discriminate.
      apply readOrSkip_decompress_frame in E3.
      intros H; inversion H; subst.
      eapply read_frame_trans; [exact E1|].
      eapply read_frame_trans; [exact E2|].
      eapply read_frame_trans; [exact E3|].
      destruct original; read_frame_step.
    + apply readOrSkip_fetch_frame in E1.
      intros H; inversion H; subst. exact E1.
Qed.

(** skipAllPending returns false only with a skip still pending, and true
    only with none. *)
Lemma skipAllPending_result (fuel : nat) :
  forall (s s' : PagedInputStream) (b : bool),
    skipAllPending fuel s = Ok (b, s') ->
    if b then pendingSkip_ s' <= 0 else 0 < pendingSkip_ s'.
Proof.
  induction fuel as [|fuel IH]; intros s s' b; simpl.
  - destruct (0 <? pendingSkip_ s) eqn:E; [discriminate|].
    intros H; inversion H; subst. apply Z.ltb_ge in E. exact E.
  - destruct (0 <? pendingSkip_ s) eqn:E.
    + destruct (readOrSkip false s) as [[[[p len]|] s1]| |] eqn:E1;
        cbn [bind]; try discriminate.
      * destruct (pendingSkip_ s1 <? len).
        -- destruct (BackUp _ _) as [s2| |]; cbn [bind]; try discriminate.
           apply IH.
        -- apply IH.
      * apply readOrSkip_frame in E1. destruct E1 as (_ & _ & E1).
        intros H; inversion H; subst. rewrite E1.
        apply Z.ltb_lt in E. exact E.
    + intros H; inversion H; subst. apply Z.ltb_ge in E. exact E.
Qed.

(** ** Decompression *)

Lemma readOrSkip_as_block (w : bool) (s : PagedInputStream) :
  (w = true -> pendingSkip_ s = 0) ->
  outputBufferLength_ s = 0 ->
  readOrSkip w s = readOrSkip_block w s.
Proof.
  intros Hp Hl. unfold readOrSkip, ensure.
  assert (E : negb w || (pendingSkip_ s =? 0) = true).
  { destruct w; simpl; [|reflexivity]. apply Z.eqb_eq. auto. }
  rewrite E, Hl. reflexivity.
Qed.

Lemma firstn_blit_0 (old src : list byte) :
  firstn (length src) (blit old 0 src) = src.
Proof.
  unfold blit. simpl.
  rewrite firstn_app, firstn_all, Nat.sub_diag. simpl.
  apply app_nil_r.
Qed.

(** C7: take a read of a block that is in state START (compressed) once
    its bytes are fetched and decrypted, and let (len, exact) be what
    getDecompressedLength reports for them.  If the read has no
    destination, exact holds and len <= pendingSkip_, the read returns
    len as its size and decompress is not called: the log grows by the
    call of getDecompressedLength alone and the output buffer is left as it
    is.  In every other case the output buffer has a capacity of at least
    len, decompress is called with that capacity, the bytes it produced
    are at the start of the buffer and their number is the size the read
    returns. *)
Theorem compressed_block_read (wantData : bool)
    (s s1 s2 : PagedInputStream) (orig : bool) (input input2 : ptr)
    (out out2 : out_params) (dz : Decompressor) (bytes : list byte)
    (len : Z) (exact : bool) :
  (wantData = true -> pendingSkip_ s = 0) ->
  outputBufferLength_ s = 0 ->
  readOrSkip_fetch wantData s = Ok (Some (orig, input, out), s1) ->
  readOrSkip_decrypt wantData input out s1 = Ok (input2, out2, s2) ->
  state_ s2 = START ->
  decompressor_ s2 = Some dz ->
  is_null input2 = false ->
  read_range s2 input2 (remainingLength_ s2) = Ok bytes ->
  getDecompressedLength dz bytes = (len, exact) ->
  0 <= len < 2 ^ 31 ->
  (forall cap, Z.of_nat (length (decompress dz bytes cap)) < 2 ^ 31) ->
  (wantData = false /\ exact = true /\ len <= pendingSkip_ s ->
   exists p s',
     readOrSkip wantData s = Ok (Some (p, len), s')
     /\ calls_ s' = EvGetDecompressedLength bytes :: calls_ s2
     /\ outputBuffer_ s' = outputBuffer_ s2)
  /\ (~ (wantData = false /\ exact = true /\ len <= pendingSkip_ s) ->
      exists p s' b,
        let produced := decompress dz bytes (capacity b) in
        readOrSkip wantData s
        = Ok (Some (p, Z.of_nat (length produced)), s')
        /\ outputBuffer_ s' = Some b
        /\ len <= capacity b
        /\ calls_ s'
           = EvDecompress bytes (capacity b)
               :: EvGetDecompressedLength bytes :: calls_ s2
        /\ firstn (length produced) (data b) = produced).
Proof.
  intros Hw Hl Hf Hd Hst Hdz Hnn Hrr Hgl Hlen Hprod.
  assert (Hps : pendingSkip_ s2 = pendingSkip_ s).
  { pose proof (readOrSkip_fetch_frame _ _ _ _ Hf) as (_ & _ & F1).
    pose proof (readOrSkip_decrypt_frame _ _ _ _ _ _ _ Hd) as (_ & _ & F2).
    congruence. }
  rewrite readOrSkip_as_block by assumption.
  unfold readOrSkip_block. rewrite Hf. cbn [bind]. rewrite Hd. cbn [bind].
  unfold readOrSkip_decompress, ensure.
  rewrite Hst, Hdz, Hnn. cbn [State_eqb negb bind]. rewrite Hrr.
  cbn [bind]. rewrite Hgl.
  change (pendingSkip_ (log (EvGetDecompressedLength bytes) s2))
    with (pendingSkip_ s2).
  rewrite Hps.
  split.
  - intros (Ew & Ee & El). subst wantData exact.
    apply Z.leb_le in El. rewrite El. cbn [negb andb bind].
    unfold readOrSkip_finish, write_out. cbn [snd fst].
    rewrite int32_small by lia.
    eexists _, _. split; [reflexivity|].
    destruct orig; simpl; split; reflexivity.
  - intros Hn.
    assert (E : negb wantData && exact && (len <=? pendingSkip_ s) = false).
    { destruct wantData; [reflexivity|]. destruct exact; [|reflexivity].
      simpl. apply Z.leb_gt.
      destruct (Z.le_gt_cases len (pendingSkip_ s)); [|lia].
      exfalso. apply Hn. auto. }
    rewrite E.
    destruct (prepareOutputBuffer_fields len
                (log (EvGetDecompressedLength bytes) s2)) as (b & -> & Hcap).
    cbn [outputBuffer_ set_outputBuffer bind].
    unfold readOrSkip_finish, write_out. cbn [snd fst].
    cbn [outputBufferLength_ set_outputBufferLength set_outputBufferPtr
         set_decryptionBuffer].
    rewrite int32_small
      by (pose proof (Hprod (capacity b)); lia).
    unfold uint64 in Hcap. rewrite Z.mod_small in Hcap by lia.
    exists (fst (if wantData then (Ptr OutputBuf 0, 0) else out2)).
    eexists. exists (store b 0 (decompress dz bytes (capacity b))).
    cbv zeta. cbn [capacity store].
    split.
    { destruct wantData; reflexivity. }
    split.
    { destruct orig; reflexivity. }
    split; [exact Hcap|].
    split.
    { destruct orig; reflexivity. }
    cbn [data]. apply firstn_blit_0.
Qed.

Lemma compressed_block_read_witness :
  exists p s',
    readOrSkip false (set_pendingSkip 100 compressed_stream)
    = Ok (Some (p, 6), s')
    /\ calls_ s'
       = [EvGetDecompressedLength (map byte_of_Z [10; 11; 12]); EvNext]
    /\ outputBuffer_ s' = None.
Proof.
  refine
    (proj1
       (compressed_block_read false (set_pendingSkip 100 compressed_stream)
          compressed_stream_fetched compressed_stream_fetched
          false (Ptr InputChunk 3) (Ptr InputChunk 3) (nullptr, 0)
          (nullptr, 0) doubling (map byte_of_Z [10; 11; 12]) 6 true
          _ eq_refl eq_refl eq_refl eq_refl eq_refl eq_refl eq_refl eq_refl
          _ _) _).
  - discriminate.
  - lia.
  - intros cap. simpl. lia.
  - simpl. repeat split. lia.
Defined.

(** ** Decryption *)

Lemma readOrSkip_block_inv (w : bool) (s : PagedInputStream) r :
  outputBufferLength_ s = 0 ->
  readOrSkip w s = Ok r -> readOrSkip_block w s = Ok r.
Proof.
  intros Hl. unfold readOrSkip.
  destruct (ensure _ _); cbn [bind]; try discriminate.
  rewrite Hl. simpl. auto.
Qed.

Lemma length_slice (off n : Z) (l : list byte) :
  0 <= off -> 0 <= n -> off + n <= Z.of_nat (length l) ->
  Z.of_nat (length (slice off n l)) = n.
Proof.
  intros Ho Hn Hl. unfold slice.
  rewrite length_firstn, length_skipn. lia.
Qed.

Lemma read_range_length (s : PagedInputStream) (p : ptr) (n : Z) bytes :
  read_range s p n = Ok bytes -> Z.of_nat (length bytes) = n.
Proof.
  unfold read_range. destruct p as [|r off].
  - destruct (n =? 0) eqn:E; [|discriminate].
    apply Z.eqb_eq in E. intros H; inversion H; subst. reflexivity.
  - destruct ((0 <=? off) && (0 <=? n)
              && (off + n <=? Z.of_nat (length (region_bytes s r)))) eqn:E;
      [|discriminate].
    apply andb_true_iff in E. destruct E as [E E3].
    apply andb_true_iff in E. destruct E as [E1 E2].
    apply Z.leb_le in E1, E2, E3.
    intros H; inversion H; subst. apply length_slice; assumption.
Qed.

Example encrypted_raw_stream_view :
  map byte_val (view encrypted_raw_stream_read (Ptr DecryptionBuf 0) 10)
  = [255; 254; 253; 252; 251; 250; 249; 248; 247; 246].
Proof. vm_compute. reflexivity. Qed.

(** ** Reading the source byte by byte *)

Lemma skipn_cons_nth {A} (n : nat) :
  forall (l : list A) (b : A) (rest : list A),
    skipn n l = b :: rest ->
    nth_error l n = Some b /\ skipn (S n) l = rest.
Proof.
  induction n as [|n IH]; intros l b rest H.
  - destruct l; simpl in H; inversion H; subst. split; reflexivity.
  - destruct l as [|x l]; simpl in H; [discriminate|].
    apply IH in H. exact H.
Qed.

Lemma skipn_nonempty {A} (n : nat) (l : list A) :
  (n < length l)%nat -> exists b rest, skipn n l = b :: rest.
Proof.
  intros H. destruct (skipn n l) as [|b rest] eqn:E.
  - apply (f_equal (@length A)) in E. rewrite length_skipn in E.
    simpl in E. lia.
  - eauto.
Qed.

Lemma slice_app_skipn (off n : Z) (l : list byte) :
  0 <= off -> 0 <= n ->
  slice off n l ++ skipn (Z.to_nat (off + n)) l = skipn (Z.to_nat off) l.
Proof.
  intros Ho Hn. unfold slice.
  rewrite Z2Nat.inj_add by lia.
  rewrite Nat.add_comm, <- skipn_skipn.
  apply firstn_skipn.
Qed.

Lemma slice_cons (off n : Z) (l : list byte) (b : byte) (rest : list byte) :
  0 <= off -> 0 < n ->
  skipn (Z.to_nat off) l = b :: rest ->
  slice off n l = b :: slice (off + 1) (n - 1) l.
Proof.
  intros Ho Hn H. unfold slice.
  rewrite H.
  replace (Z.to_nat n) with (S (Z.to_nat (n - 1))) by lia.
  simpl. f_equal.
  apply skipn_cons_nth in H. destruct H as [_ H].
  replace (Z.to_nat (off + 1)) with (S (Z.to_nat off)) by lia.
  rewrite H. reflexivity.
Qed.

Lemma Next_some (i : SeekableInputStream) :
  wf_source i ->
  position i < Z.of_nat (length (content i)) ->
  exists n,
    0 < n < 2 ^ 31
    /\ position i + n <= Z.of_nat (length (content i))
    /\ Input.Next i
       = (Some (Ptr InputChunk (position i), n),
          MkInput (content i) (blockSize i) (position i + n)).
Proof.
  intros [Hb Hp] Hlt. unfold Input.Next.
  set (n := Z.min (Z.of_nat (length (content i)) - position i)
              (blockSize i)).
  assert (Hn : 0 < n < 2 ^ 31) by (subst n; lia).
  exists n. split; [exact Hn|]. split; [subst n; lia|].
  assert (E : (0 <? n) = true) by (apply Z.ltb_lt; lia).
  rewrite E, int32_small by lia. reflexivity.
Qed.

Lemma Next_none (i : SeekableInputStream) :
  wf_source i ->
  Z.of_nat (length (content i)) <= position i ->
  Input.Next i = (None, i).
Proof.
  intros [Hb Hp] Hge. unfold Input.Next.
  assert (E : (0 <? Z.min (Z.of_nat (length (content i)) - position i)
                     (blockSize i)) = false) by (apply Z.ltb_ge; lia).
  rewrite E. reflexivity.
Qed.

Lemma unread_empty_cursor (s : PagedInputStream) :
  wf_cursor s ->
  ptr_eqb (inputBufferPtr_ s) (inputBufferPtrEnd_ s) = true ->
  unread s = skipn (Z.to_nat (position (input_ s))) (content (input_ s)).
Proof.
  intros [_ [[Hp He] | (b & a & e & Hs & Hp & He & _)]] Heq;
    unfold unread; rewrite Hp, He in *; simpl in *.
  - reflexivity.
  - apply Z.eqb_eq in Heq. subst e. rewrite Z.sub_diag. reflexivity.
Qed.

(** readBuffer when the source has bytes left: the next chunk becomes the
    cursor and nothing is consumed. *)
Lemma readBuffer_some (f : bool) (s : PagedInputStream) :
  wf_cursor s ->
  ptr_eqb (inputBufferPtr_ s) (inputBufferPtrEnd_ s) = true ->
  position (input_ s) < Z.of_nat (length (content (input_ s))) ->
  exists s',
    readBuffer f s = Ok s'
    /\ wf_cursor s'
    /\ unread s' = unread s
    /\ state_ s' = state_ s
    /\ remainingLength_ s' = remainingLength_ s
    /\ ptr_eqb (inputBufferPtr_ s') (inputBufferPtrEnd_ s') = false
    /\ content (input_ s') = content (input_ s)
    /\ blockSize (input_ s') = blockSize (input_ s).
Proof.
  intros Hwf Heq Hlt.
  rewrite (unread_empty_cursor s Hwf Heq).
  destruct Hwf as [Hsrc _].
  destruct (Next_some _ Hsrc Hlt) as (n & Hn & Hle & E).
  unfold readBuffer. rewrite E. eexists. split; [reflexivity|].
  destruct Hsrc as [Hb Hp].
  split.
  { split; [split; simpl; lia|]. right.
    exists (position (input_ s)), (position (input_ s)),
      (position (input_ s) + n).
    simpl. repeat split; try lia. }
  split.
  { unfold unread. simpl.
    replace (position (input_ s) + n - position (input_ s)) with n by lia.
    replace (position (input_ s) - 0) with (position (input_ s)) by lia.
    apply slice_app_skipn; lia. }
  simpl. repeat split.
  apply Z.eqb_neq. lia.
Qed.

Lemma readBuffer_none (s : PagedInputStream) :
  wf_cursor s ->
  Z.of_nat (length (content (input_ s))) <= position (input_ s) ->
  readBuffer true s = Fatal ReadPastEOF
  /\ exists s',
       readBuffer false s = Ok s'
       /\ state_ s' = END
       /\ inputBufferPtr_ s' = nullptr
       /\ inputBufferPtrEnd_ s' = nullptr
       /\ input_ s' = input_ s
       /\ io_frame s s'.
Proof.
  intros [Hsrc _] Hge. unfold readBuffer.
  rewrite (Next_none _ Hsrc Hge). simpl. split; [reflexivity|].
  eexists. split; [reflexivity|]. simpl. repeat split.
Qed.

Lemma unread_nil_inv (s : PagedInputStream) :
  wf_cursor s -> unread s = [] ->
  ptr_eqb (inputBufferPtr_ s) (inputBufferPtrEnd_ s) = true
  /\ Z.of_nat (length (content (input_ s))) <= position (input_ s).
Proof.
  intros [[Hb Hpos] Hc] Hu. unfold unread in Hu.
  apply app_eq_nil in Hu. destruct Hu as [Hv Hs].
  assert (Hge : Z.of_nat (length (content (input_ s)))
                <= position (input_ s)).
  { apply (f_equal (@length byte)) in Hs. rewrite length_skipn in Hs.
    simpl in Hs. lia. }
  split; [|exact Hge].
  destruct Hc as [[Hp He] | (b & a & e & Hst & Hp & He & Hba & Hae & Hel & _)];
    rewrite Hp, He in *; simpl in *; [reflexivity|].
  apply Z.eqb_eq.
  apply (f_equal (@length byte)) in Hv.
  unfold slice in Hv. rewrite length_firstn, length_skipn in Hv.
  simpl in Hv. lia.
Qed.

(** Taking the byte under a cursor that is not at its end. *)
Lemma deref_next (s : PagedInputStream) :
  wf_cursor s ->
  ptr_eqb (inputBufferPtr_ s) (inputBufferPtrEnd_ s) = false ->
  exists b rest,
    unread s = b :: rest
    /\ load s (inputBufferPtr_ s) = Ok b
    /\ wf_cursor (set_inputBufferPtr (ptr_add (inputBufferPtr_ s) 1) s)
    /\ unread (set_inputBufferPtr (ptr_add (inputBufferPtr_ s) 1) s) = rest.
Proof.
  intros [Hsrc [[Hp He] | (b0 & a & e & Hst & Hp & He & Hba & Hae & Hel & Hsz)]]
         Hne.
  { rewrite Hp, He in Hne. discriminate. }
  rewrite Hp, He in Hne. simpl in Hne. apply Z.eqb_neq in Hne.
  assert (Hlt : a < e) by lia.
  destruct (skipn_nonempty (Z.to_nat a) (content (input_ s)))
    as (b & tl & Hsk); [lia|].
  exists b, (slice (a + 1) (e - a - 1) (content (input_ s))
             ++ skipn (Z.to_nat (position (input_ s)))
                  (content (input_ s))).
  split.
  { unfold unread. rewrite Hp, He. simpl.
    replace (a - 0) with a by lia.
    rewrite (slice_cons a (e - a) _ b tl) by (try lia; exact Hsk).
    reflexivity. }
  split.
  { unfold load. rewrite Hp. simpl.
    assert (E : (a <? 0) = false) by (apply Z.ltb_ge; lia).
    rewrite E. apply skipn_cons_nth in Hsk. destruct Hsk as [Hn _].
    rewrite Hn. reflexivity. }
  split.
  { split; [exact Hsrc|]. right. exists b0, (a + 1), e.
    simpl. rewrite Hp. simpl. repeat split; try assumption; lia. }
  unfold unread. simpl. rewrite Hp, He. simpl.
  replace (e - (a + 1)) with (e - a - 1) by lia.
  replace (a + 1 - 0) with (a + 1) by lia. reflexivity.
Qed.

(** readByte returns the first unread byte, if there is one. *)
Lemma readByte_next (f : bool) (s : PagedInputStream) (b : byte)
    (rest : list byte) :
  wf_cursor s ->
  state_ s <> END ->
  unread s = b :: rest ->
  exists s',
    readByte f s = Ok (byte_val b, s')
    /\ wf_cursor s'
    /\ unread s' = rest
    /\ byte_frame s s'.
Proof.
  intros Hwf Hst Hu. unfold readByte.
  destruct (ptr_eqb (inputBufferPtr_ s) (inputBufferPtrEnd_ s)) eqn:Heq.
  - assert (Hlt : position (input_ s)
                  < Z.of_nat (length (content (input_ s)))).
    { rewrite (unread_empty_cursor s Hwf Heq) in Hu.
      apply (f_equal (@length byte)) in Hu. rewrite length_skipn in Hu.
      simpl in Hu. lia. }
    destruct (readBuffer_some f s Hwf Heq Hlt)
      as (s1 & E & Hwf1 & Hu1 & Hs1 & Hr1 & Hne & Hc1 & Hb1).
    pose proof (readBuffer_frame _ _ _ E) as F1.
    rewrite E. cbn [bind].
    assert (Es : State_eqb (state_ s1) END = false).
    { destruct (State_eqb (state_ s1) END) eqn:Es; [|reflexivity].
      apply State_eqb_eq in Es. congruence. }
    rewrite Es.
    destruct (deref_next s1 Hwf1 Hne) as (b' & rest' & Hu' & Hl & Hwf' & Hr').
    rewrite Hu1, Hu in Hu'. injection Hu' as Hb Hrest. subst b' rest'.
    rewrite Hl. cbn [bind]. eexists. split; [reflexivity|].
    split; [exact Hwf'|]. split; [exact Hr'|].
    unfold byte_frame. simpl.
    split; [eapply io_frame_trans; [exact F1|frame_step]|].
    assert (Hrest : inputBuffer_ s1 = inputBuffer_ s
                    /\ lastHeaderOffset_ s1 = lastHeaderOffset_ s
                    /\ bytesReturnedAtLastHeaderOffset_ s1
                       = bytesReturnedAtLastHeaderOffset_ s).
    { unfold readBuffer in E.
      destruct (Input.Next (input_ s)) as [[[p n]|] i];
        [|destruct (ensure _ _); cbn [bind] in E; try discriminate];
        inversion E; subst; simpl; auto. }
    tauto.
  - destruct (deref_next s Hwf Heq) as (b' & rest' & Hu' & Hl & Hwf' & Hr').
    rewrite Hu in Hu'. injection Hu' as Hb Hrest. subst b' rest'.
    rewrite Hl. cbn [bind]. eexists. split; [reflexivity|].
    split; [exact Hwf'|]. split; [exact Hr'|].
    unfold byte_frame. simpl.
    split; [frame_step|]. repeat split.
Qed.

(** readByte at the end of the source. *)
Lemma readByte_eof (s : PagedInputStream) :
  wf_cursor s ->
  unread s = [] ->
  readByte true s = Fatal ReadPastEOF
  /\ exists s',
       readByte false s = Ok (0, s')
       /\ state_ s' = END
       /\ inputBufferPtr_ s' = nullptr
       /\ inputBufferPtrEnd_ s' = nullptr
       /\ input_ s' = input_ s
       /\ io_frame s s'.
Proof.
  intros Hwf Hu.
  destruct (unread_nil_inv s Hwf Hu) as [Heq Hge].
  destruct (readBuffer_none s Hwf Hge)
    as (Et & s' & Ef & Hs & Hp & He & Hi & F).
  unfold readByte. rewrite Heq, Et, Ef. cbn [bind].
  split; [reflexivity|].
  rewrite Hs. simpl. exists s'. auto 10.
Qed.

(** ** Block headers *)

Lemma byte_val_range (b : byte) : 0 <= byte_val b < 256.
Proof.
  unfold byte_val. pose proof (Byte.to_N_bounded b). lia.
Qed.

Lemma byte_val_of_Z (z : Z) : byte_val (byte_of_Z z) = z mod 256.
Proof.
  unfold byte_val, byte_of_Z.
  pose proof (Z.mod_pos_bound z 256 ltac:(lia)) as Hr.
  destruct (Byte.of_N (Z.to_N (z mod 256))) as [b|] eqn:E.
  - apply Byte.to_of_N in E. rewrite E. lia.
  - apply Byte.of_N_None_iff in E. lia.
Qed.

Lemma shiftl_byte_small (b : byte) (n : Z) :
  0 <= n <= 16 -> uint32 (Z.shiftl (byte_val b) n) = Z.shiftl (byte_val b) n.
Proof.
  intros Hn. unfold uint32. apply Z.mod_small.
  pose proof (byte_val_range b) as Hb.
  rewrite Z.shiftl_mul_pow2 by lia.
  assert (0 < 2 ^ n) by (apply Z.pow_pos_nonneg; lia).
  assert (2 ^ n <= 2 ^ 16) by (apply Z.pow_le_mono_r; lia).
  nia.
Qed.

Lemma land_1_testbit (h : Z) : (Z.land h 1 =? 0) = negb (Z.testbit h 0).
Proof.
  change 1 with (Z.ones 1) at 1.
  rewrite Z.land_ones by lia. rewrite Z.bit0_odd.
  change (2 ^ 1) with 2. rewrite Zmod_odd.
  destruct (Z.odd h); reflexivity.
Qed.

(** readHeader on three unread bytes. *)
Lemma readHeader_three (s : PagedInputStream) (b0 b1 b2 : byte)
    (rest : list byte) :
  wf_cursor s ->
  state_ s <> END ->
  unread s = b0 :: b1 :: b2 :: rest ->
  exists s',
    readHeader s = Ok s'
    /\ state_ s'
       = (if Z.testbit (header_value b0 b1 b2) 0 then ORIGINAL else START)
    /\ remainingLength_ s' = Z.shiftr (header_value b0 b1 b2) 1
    /\ unread s' = rest
    /\ wf_cursor s'
    /\ io_frame s s'
    /\ inputBuffer_ s' = inputBuffer_ s
    /\ bytesReturnedAtLastHeaderOffset_ s' = bytesReturned_ s
    /\ content (input_ s') = content (input_ s)
    /\ blockSize (input_ s') = blockSize (input_ s).
Proof.
  intros Hwf Hst Hu. unfold readHeader.
  destruct (readByte_next false s b0 _ Hwf Hst Hu)
    as (s0 & E0 & Hwf0 & Hu0 & F0 & Hs0 & Hr0 & Hi0 & _ & _ & Hc0 & Hk0).
  rewrite E0. cbn [bind]. cbv zeta.
  match goal with
  | |- context [readByte true ?t] => set (t0 := t)
  end.
  change (state_ t0) with (state_ s0). rewrite Hs0.
  assert (Es : State_eqb (state_ s) END = false).
  { destruct (State_eqb (state_ s) END) eqn:Es; [|reflexivity].
    apply State_eqb_eq in Es. contradiction. }
  rewrite Es. cbn [negb].
  assert (Hst0 : state_ t0 <> END) by (change (state_ t0) with (state_ s0);
                                       congruence).
  destruct (readByte_next true t0 b1 _ Hwf0 Hst0 Hu0)
    as (s1 & E1 & Hwf1 & Hu1 & F1 & Hs1 & Hr1 & Hi1 & _ & Hh1 & Hc1 & Hk1).
  rewrite E1. cbn [bind].
  assert (Hst1 : state_ s1 <> END) by congruence.
  destruct (readByte_next true s1 b2 _ Hwf1 Hst1 Hu1)
    as (s2 & E2 & Hwf2 & Hu2 & F2 & Hs2 & Hr2 & Hi2 & _ & Hh2 & Hc2 & Hk2).
  rewrite E2. cbn [bind].
  rewrite !shiftl_byte_small by lia.
  fold (header_value b0 b1 b2).
  rewrite land_1_testbit.
  eexists. split; [reflexivity|].
  assert (F : io_frame s s2).
  { eapply io_frame_trans; [exact F0|].
    eapply io_frame_trans; [|eapply io_frame_trans; [exact F1|exact F2]].
    subst t0. frame_step. }
  destruct (Z.testbit (header_value b0 b1 b2) 0); cbn [negb];
    (split; [reflexivity|]); (split; [reflexivity|]);
    (split; [exact Hu2|]); (split; [exact Hwf2|]);
    (split; [eapply io_frame_trans; [exact F|frame_step]|]);
    simpl; rewrite Hi2, Hi1, Hh2, Hh1, Hc2, Hc1, Hk2, Hk1; subst t0; simpl;
    destruct F0 as (_ & _ & _ & _ & _ & _ & Hbr & _);
    rewrite Hbr; auto.
Qed.

Lemma testbit_above (v n k : Z) :
  0 <= v < 2 ^ k -> 0 <= k <= n -> Z.testbit v n = false.
Proof.
  intros Hv Hk.
  destruct (Z.eq_dec v 0) as [->|Hnz]; [apply Z.bits_0|].
  apply Z.bits_above_log2; [lia|].
  apply Z.lt_le_trans with k; [|lia].
  apply Z.log2_lt_pow2; lia.
Qed.

Lemma header_value_encode (v : Z) :
  0 <= v < 2 ^ 24 ->
  header_value (byte_of_Z v) (byte_of_Z (Z.shiftr v 8))
    (byte_of_Z (Z.shiftr v 16)) = v.
Proof.
  intros Hv. unfold header_value. rewrite !byte_val_of_Z.
  change 256 with (2 ^ 8).
  apply Z.bits_inj'. intros n Hn.
  rewrite !Z.lor_spec, !Z.shiftl_spec by lia.
  destruct (Z.lt_ge_cases n 8) as [H8|H8].
  - rewrite Z.mod_pow2_bits_low by lia.
    rewrite (Z.testbit_neg_r _ (n - 8)) by lia.
    rewrite (Z.testbit_neg_r _ (n - 16)) by lia.
    rewrite !orb_false_r. reflexivity.
  - rewrite (Z.mod_pow2_bits_high v 8 n) by lia. cbn [orb].
    destruct (Z.lt_ge_cases n 16) as [H16|H16].
    + rewrite Z.mod_pow2_bits_low by lia.
      rewrite (Z.testbit_neg_r _ (n - 16)) by lia.
      rewrite Z.shiftr_spec by lia. rewrite orb_false_r.
      f_equal. lia.
    + rewrite (Z.mod_pow2_bits_high _ 8 (n - 8)) by lia. cbn [orb].
      destruct (Z.lt_ge_cases n 24) as [H24|H24].
      * rewrite Z.mod_pow2_bits_low by lia.
        rewrite Z.shiftr_spec by lia. f_equal. lia.
      * rewrite Z.mod_pow2_bits_high by lia.
        symmetry. apply (testbit_above v n 24); lia.
Qed.

Lemma encoded_header_fields (isOriginal : bool) (length : Z) :
  0 <= length < 2 ^ 23 ->
  let v := Z.lor (Z.shiftl length 1) (if isOriginal then 1 else 0) in
  0 <= v < 2 ^ 24
  /\ Z.testbit v 0 = isOriginal
  /\ Z.shiftr v 1 = length.
Proof.
  intros Hl v.
  assert (Hs : Z.shiftl length 1 = 2 * length)
    by (rewrite Z.shiftl_mul_pow2 by lia; change (2 ^ 1) with 2; lia).
  assert (Hb : Z.testbit v 0 = isOriginal).
  { subst v. rewrite Z.lor_spec, Z.shiftl_spec_low by lia.
    destruct isOriginal; reflexivity. }
  assert (Hr : Z.shiftr v 1 = length).
  { subst v. rewrite Z.shiftr_lor, Z.shiftr_shiftl_l by lia.
    replace (1 - 1) with 0 by lia. rewrite Z.shiftl_0_r.
    destruct isOriginal; simpl; [|apply Z.lor_0_r].
    change (Z.shiftr 1 1) with 0. apply Z.lor_0_r. }
  split; [|split; assumption].
  rewrite Z.shiftr_div_pow2 in Hr by lia. change (2 ^ 1) with 2 in Hr.
  pose proof (Z.div_mod v 2 ltac:(lia)) as Hd.
  pose proof (Z.mod_pos_bound v 2 ltac:(lia)) as Hm.
  rewrite Hr in Hd. lia.
Qed.

Lemma State_neq_eqb (a b : State) : a <> b -> State_eqb a b = false.
Proof.
  intros H. destruct (State_eqb a b) eqn:E; [|reflexivity].
  apply State_eqb_eq in E. contradiction.
Qed.

Lemma wf_cursor_create (input : SeekableInputStream) dz d :
  wf_source input -> wf_cursor (create input dz d).
Proof. intros H. split; [exact H|]. left. split; reflexivity. Qed.

(** C2: readHeader, on three unread bytes b0 b1 b2, forms
    h = b0 | b1 << 8 | b2 << 16, goes to state ORIGINAL when bit 0 of h is
    set and to START when it is clear, and sets the block length to
    h >> 1.  Hence a header encoded from (isOriginal, length) with
    length < 2^23 is read back as that pair. *)
Theorem header_round_trip (s : PagedInputStream) :
  wf_cursor s ->
  state_ s <> END ->
  (forall (b0 b1 b2 : byte) (rest : list byte),
      unread s = b0 :: b1 :: b2 :: rest ->
      exists s',
        readHeader s = Ok s'
        /\ state_ s'
           = (if Z.testbit (header_value b0 b1 b2) 0
              then ORIGINAL else START)
        /\ remainingLength_ s' = Z.shiftr (header_value b0 b1 b2) 1
        /\ unread s' = rest)
  /\ (forall (isOriginal : bool) (length : Z) (rest : list byte),
        0 <= length < 2 ^ 23 ->
        unread s = encodeHeader isOriginal length ++ rest ->
        exists s',
          readHeader s = Ok s'
          /\ state_ s' = (if isOriginal then ORIGINAL else START)
          /\ remainingLength_ s' = length
          /\ unread s' = rest).
Proof.
  intros Hwf Hst. split.
  - intros b0 b1 b2 rest Hu.
    destruct (readHeader_three s b0 b1 b2 rest Hwf Hst Hu)
      as (s' & E & Hs & Hr & Hu' & _).
    exists s'. auto.
  - intros isOriginal length rest Hl Hu.
    unfold encodeHeader in Hu. cbv zeta in Hu. cbn [app] in Hu.
    destruct (encoded_header_fields isOriginal length Hl)
      as (Hv & Hb & Hr). cbv zeta in Hv, Hb, Hr.
    destruct (readHeader_three s _ _ _ rest Hwf Hst Hu)
      as (s' & E & Hs & Hr' & Hu' & _).
    rewrite header_value_encode in Hs, Hr' by exact Hv.
    rewrite Hb in Hs. rewrite Hr in Hr'.
    exists s'. auto.
Qed.

Lemma header_round_trip_witness :
  wf_cursor raw_stream
  /\ state_ raw_stream <> END
  /\ exists s',
       readHeader raw_stream = Ok s'
       /\ state_ s' = ORIGINAL
       /\ remainingLength_ s' = 10.
Proof.
  assert (Hwf : wf_cursor raw_stream).
  { apply wf_cursor_create. unfold wf_source. simpl. lia. }
  assert (Hst : state_ raw_stream <> END) by discriminate.
  split; [exact Hwf|]. split; [exact Hst|].
  destruct (proj2 (header_round_trip raw_stream Hwf Hst) true 10
              (map byte_of_Z [0; 1; 2; 3; 4; 5; 6; 7; 8; 9]))
    as (s' & E & Hs & Hr & _).
  - lia.
  - reflexivity.
  - exists s'. auto.
Defined.

(** C3: when the source is exhausted at the first byte of a header,
    readHeader returns with the stream in state END and a remaining
    length of zero, and the read that asked for the header returns false
    (end of stream) without an error.  When the source is exhausted at
    the second or at the third byte, readHeader fails with "read past
    EOF". *)
Theorem header_at_end_of_source (s : PagedInputStream) :
  wf_cursor s ->
  (unread s = [] ->
   (exists s',
      readHeader s = Ok s' /\ state_ s' = END /\ remainingLength_ s' = 0)
   /\ forall wantData,
        (wantData = true -> pendingSkip_ s = 0) ->
        outputBufferLength_ s = 0 ->
        state_ s = HEADER \/ remainingLength_ s = 0 ->
        exists s',
          readOrSkip wantData s = Ok (None, s') /\ state_ s' = END)
  /\ (state_ s <> END ->
      (forall b0, unread s = [b0] -> readHeader s = Fatal ReadPastEOF)
      /\ (forall b0 b1,
            unread s = [b0; b1] -> readHeader s = Fatal ReadPastEOF)).
Proof.
  intros Hwf. split.
  - intros Hu.
    assert (Hh : forall t,
               wf_cursor t -> unread t = [] ->
               exists t',
                 readHeader t = Ok t' /\ state_ t' = END
                 /\ remainingLength_ t' = 0).
    { intros t Hwt Hut.
      destruct (readByte_eof t Hwt Hut) as (_ & t0 & E0 & Hs0 & _).
      unfold readHeader. rewrite E0. cbn [bind]. cbv zeta.
      change (state_ (set_bytesReturnedAtLastHeaderOffset _ _))
        with (state_ t0).
      rewrite Hs0. cbn [State_eqb negb].
      eexists. split; [reflexivity|]. split; [exact Hs0|reflexivity]. }
    split; [exact (Hh s Hwf Hu)|].
    intros wantData Hp Hl Hdue.
    rewrite readOrSkip_as_block by assumption.
    unfold readOrSkip_block, readOrSkip_fetch. cbv zeta.
    unfold readOrSkip_header.
    change (state_ (set_decryptionBuffer None s)) with (state_ s).
    change (remainingLength_ (set_decryptionBuffer None s))
      with (remainingLength_ s).
    assert (Ed : State_eqb (state_ s) HEADER || (remainingLength_ s =? 0)
                 = true).
    { destruct Hdue as [-> | ->]; [reflexivity|]. apply orb_true_r. }
    rewrite Ed.
    destruct (Hh (set_decryptionBuffer None s) Hwf Hu) as (t' & E & Hs & _).
    rewrite E. cbn [bind]. rewrite Hs. cbn [State_eqb bind].
    exists t'. auto.
  - intros Hst.
    assert (Hone : forall t b0 b,
               wf_cursor t -> state_ t <> END -> unread t = [b0] ->
               exists t',
                 readByte b t = Ok (byte_val b0, t') /\ wf_cursor t'
                 /\ unread t' = [] /\ state_ t' = state_ t).
    { intros t b0 b Hwt Hst' Hut.
      destruct (readByte_next b t b0 [] Hwt Hst' Hut)
        as (t' & E & Hw' & Hu' & _ & Hs' & _).
      exists t'. auto. }
    split.
    + intros b0 Hu.
      destruct (Hone s b0 false Hwf Hst Hu) as (s0 & E0 & Hw0 & Hu0 & Hs0).
      unfold readHeader. rewrite E0. cbn [bind]. cbv zeta.
      match goal with
      | |- context [readByte true ?t] => set (t0 := t)
      end.
      change (state_ t0) with (state_ s0).
      rewrite Hs0, (State_neq_eqb _ _ Hst). cbn [negb].
      destruct (readByte_eof t0 Hw0 Hu0) as (E1 & _).
      rewrite E1. reflexivity.
    + intros b0 b1 Hu.
      destruct (readByte_next false s b0 [b1] Hwf Hst Hu)
        as (s0 & E0 & Hw0 & Hu0 & _ & Hs0 & _).
      unfold readHeader. rewrite E0. cbn [bind]. cbv zeta.
      match goal with
      | |- context [readByte true ?t] => set (t0 := t)
      end.
      change (state_ t0) with (state_ s0).
      rewrite Hs0, (State_neq_eqb _ _ Hst). cbn [negb].
      assert (Hst0 : state_ t0 <> END)
        by (change (state_ t0) with (state_ s0); congruence).
      destruct (Hone t0 b1 true Hw0 Hst0 Hu0) as (s1 & E1 & Hw1 & Hu1 & Hs1).
      rewrite E1. cbn [bind].
      destruct (readByte_eof s1 Hw1 Hu1) as (E2 & _).
      rewrite E2. reflexivity.
Qed.

Lemma header_at_end_of_source_witness :
  wf_cursor (create (MkInput [] 64 0) None None)
  /\ exists s',
       readOrSkip true (create (MkInput [] 64 0) None None) = Ok (None, s')
       /\ state_ s' = END.
Proof.
  assert (Hwf : wf_cursor (create (MkInput [] 64 0) None None)).
  { apply wf_cursor_create. unfold wf_source. simpl. lia. }
  split; [exact Hwf|].
  exact (proj2
           (proj1 (header_at_end_of_source _ Hwf) eq_refl)
           true (fun _ => eq_refl) eq_refl (or_introl eq_refl)).
Defined.

Example truncated_header :
  readHeader (create (MkInput [byte_of_Z 21; byte_of_Z 0] 64 0) None None)
  = Fatal ReadPastEOF.
Proof. reflexivity. Qed.

(** ** Reads of streams that differ outside their core *)

Lemma sim_refl (s : PagedInputStream) : sim s s.
Proof. reflexivity. Qed.

(** Related streams agree on every member of the core. *)
Lemma sim_fields (s t : PagedInputStream) :
  sim s t ->
  input_ s = input_ t
  /\ inputBuffer_ s = inputBuffer_ t
  /\ decryptionBuffer_ s = decryptionBuffer_ t
  /\ state_ s = state_ t
  /\ outputBufferLength_ s = outputBufferLength_ t
  /\ remainingLength_ s = remainingLength_ t
  /\ inputBufferStart_ s = inputBufferStart_ t
  /\ inputBufferPtr_ s = inputBufferPtr_ t
  /\ inputBufferPtrEnd_ s = inputBufferPtrEnd_ t
  /\ bytesReturned_ s = bytesReturned_ t
  /\ lastWindowSize_ s = lastWindowSize_ t
  /\ lastHeaderOffset_ s = lastHeaderOffset_ t
  /\ bytesReturnedAtLastHeaderOffset_ s = bytesReturnedAtLastHeaderOffset_ t
  /\ decompressor_ s = decompressor_ t
  /\ decrypter_ s = decrypter_ t.
Proof.
  unfold sim. intros H.
  repeat split;
    match goal with
    | |- ?f s = ?f t => exact (f_equal f H)
    end.
Qed.

(** Streams that agree on every member of the core are related. *)
Lemma sim_intro (s t : PagedInputStream) :
  input_ s = input_ t ->
  inputBuffer_ s = inputBuffer_ t ->
  decryptionBuffer_ s = decryptionBuffer_ t ->
  state_ s = state_ t ->
  outputBufferLength_ s = outputBufferLength_ t ->
  remainingLength_ s = remainingLength_ t ->
  inputBufferStart_ s = inputBufferStart_ t ->
  inputBufferPtr_ s = inputBufferPtr_ t ->
  inputBufferPtrEnd_ s = inputBufferPtrEnd_ t ->
  bytesReturned_ s = bytesReturned_ t ->
  lastWindowSize_ s = lastWindowSize_ t ->
  lastHeaderOffset_ s = lastHeaderOffset_ t ->
  bytesReturnedAtLastHeaderOffset_ s = bytesReturnedAtLastHeaderOffset_ t ->
  decompressor_ s = decompressor_ t ->
  decrypter_ s = decrypter_ t ->
  sim s t.
Proof.
  unfold sim, core. destruct s, t. simpl. intros. subst. reflexivity.
Qed.

Ltac sim_facts H :=
  let F := fresh "F" in
  pose proof (sim_fields _ _ H) as F;
  destruct F as (?Ei & ?Eib & ?Edb & ?Est & ?Eol & ?Erl & ?Eis & ?Eip
                 & ?Eie & ?Ebr & ?Elw & ?Elh & ?Ebh & ?Edz & ?Edy).

Ltac sim_rw_goal :=
  repeat match goal with
         | E : ?f ?s = ?f ?t |- context [?f ?t] => rewrite <- E
         end.

(** Rewrite the members of the second stream into those of the first. *)
Ltac sim_rw H :=
  let F := fresh "F" in
  pose proof (sim_fields _ _ H) as F;
  destruct F as (?E & ?E & ?E & ?E & ?E & ?E & ?E & ?E & ?E & ?E & ?E & ?E
                 & ?E & ?E & ?E);
  repeat match goal with
         | E : ?f ?s = ?f ?t |- context [?f ?t] => rewrite <- E
         end.

(** Two nested updates of related streams are related: their cores are
    compared member by member. *)
Ltac sim_solve :=
  repeat match goal with
         | H : sim ?a ?b |- _ =>
             let F := fresh "F" in
             pose proof (sim_fields a b H) as F;
             destruct F as (?E & ?E & ?E & ?E & ?E & ?E & ?E & ?E & ?E & ?E
                            & ?E & ?E & ?E & ?E & ?E);
             clear H
         end;
  apply sim_intro; simpl; sim_rw_goal;
  first [reflexivity | assumption | congruence | lia].

Lemma rsim_bind {A B} (R : A -> A -> Prop) (R' : B -> B -> Prop)
    (x y : result A) (k k' : A -> result B) :
  rsim R x y ->
  (forall a b, R a b -> rsim R' (k a) (k' b)) ->
  rsim R' (bind x k) (bind y k').
Proof.
  intros H Hk. destruct x, y; simpl in *; try contradiction; auto.
Qed.

Lemma rsim_bind_eq {A B} (R : A -> A -> Prop) (R' : B -> B -> Prop)
    (x y : result A) (k k' : A -> result B) :
  rsim R x y ->
  (forall a b, x = Ok a -> y = Ok b -> R a b -> rsim R' (k a) (k' b)) ->
  rsim R' (bind x k) (bind y k').
Proof.
  intros H Hk. destruct x, y; simpl in *; try contradiction; auto.
Qed.

Lemma source_not_output (p : ptr) : source_ptr p -> not_output p.
Proof. destruct p as [|[] off]; simpl; auto. Qed.

Lemma wf_cursor_source_ptr (s : PagedInputStream) :
  wf_cursor s -> source_ptr (inputBufferPtr_ s).
Proof.
  intros [_ [[-> _] | (b & a & e & _ & -> & _)]]; exact I.
Qed.

Lemma region_bytes_sim (s t : PagedInputStream) (r : region) :
  sim s t -> r <> OutputBuf -> region_bytes s r = region_bytes t r.
Proof.
  intros H Hr.
  destruct (sim_fields s t H) as (Hi & Hb & Hd & _).
  destruct r; simpl; try congruence.
  rewrite Hd. reflexivity.
Qed.

Lemma load_sim (s t : PagedInputStream) (p : ptr) :
  sim s t -> not_output p -> load s p = load t p.
Proof.
  intros H Hp. destruct p as [|r off]; [reflexivity|].
  unfold load. rewrite (region_bytes_sim s t r H); [reflexivity|].
  intros ->. exact Hp.
Qed.

Lemma read_range_sim (s t : PagedInputStream) (p : ptr) (n : Z) :
  sim s t -> not_output p -> read_range s p n = read_range t p n.
Proof.
  intros H Hp. destruct p as [|r off]; [reflexivity|].
  unfold read_range. rewrite (region_bytes_sim s t r H); [reflexivity|].
  intros ->. exact Hp.
Qed.

(** readBuffer on related streams; the cursor it leaves is well formed. *)
Lemma readBuffer_sim (f : bool) (s t : PagedInputStream) :
  sim s t -> wf_source (input_ s) ->
  rsim sim_chunk (readBuffer f s) (readBuffer f t).
Proof.
  intros H Hsrc.
  destruct (sim_fields s t H) as (Hi & _).
  unfold readBuffer. rewrite <- Hi.
  destruct (Z.lt_ge_cases (position (input_ s))
              (Z.of_nat (length (content (input_ s))))) as [Hlt|Hge].
  - destruct (Next_some _ Hsrc Hlt) as (n & Hn & Hle & E).
    rewrite E. simpl. split; [split|].
    + unfold log. sim_solve.
    + destruct Hsrc as [Hb Hp].
      split; [split; simpl; lia|]. right.
      exists (position (input_ s)), (position (input_ s)),
        (position (input_ s) + n).
      simpl. repeat split; try reflexivity; lia.
    + right. simpl. apply Z.eqb_neq. lia.
  - rewrite (Next_none _ Hsrc Hge).
    destruct f; simpl; [reflexivity|]. split; [split|].
    + unfold log. sim_solve.
    + split; [exact Hsrc|]. left. split; reflexivity.
    + left. reflexivity.
Qed.

Lemma readBuffer_true_nonempty (s s' : PagedInputStream) :
  wf_source (input_ s) ->
  readBuffer true s = Ok s' ->
  ptr_eqb (inputBufferPtr_ s') (inputBufferPtrEnd_ s') = false
  /\ state_ s' = state_ s
  /\ remainingLength_ s' = remainingLength_ s
  /\ inputBuffer_ s' = inputBuffer_ s.
Proof.
  intros Hsrc. unfold readBuffer.
  destruct (Z.lt_ge_cases (position (input_ s))
              (Z.of_nat (length (content (input_ s))))) as [Hlt|Hge].
  - destruct (Next_some _ Hsrc Hlt) as (n & Hn & Hle & E).
    rewrite E. intros H; inversion H; subst; simpl.
    repeat split. apply Z.eqb_neq. lia.
  - rewrite (Next_none _ Hsrc Hge). simpl. discriminate.
Qed.

Lemma deref_sim (s t : PagedInputStream) :
  sim s t -> wf_cursor s ->
  ptr_eqb (inputBufferPtr_ s) (inputBufferPtrEnd_ s) = false ->
  rsim sim_byte
    (b <- load s (inputBufferPtr_ s) ;;
     Ok (byte_val b, set_inputBufferPtr (ptr_add (inputBufferPtr_ s) 1) s))
    (b <- load t (inputBufferPtr_ t) ;;
     Ok (byte_val b, set_inputBufferPtr (ptr_add (inputBufferPtr_ t) 1) t)).
Proof.
  intros H Hwf Hne.
  destruct (sim_fields s t H) as (_ & _ & _ & _ & _ & _ & _ & Hp & _).
  destruct (deref_next s Hwf Hne) as (b & rest & _ & Hl & Hwf' & _).
  rewrite <- Hp, <- (load_sim s t) by
    (try exact H; apply source_not_output, wf_cursor_source_ptr, Hwf).
  rewrite Hl. simpl. unfold sim_byte, sim_wf. simpl.
  split; [reflexivity|]. split; [apply byte_val_range|].
  split; [sim_solve|exact Hwf'].
Qed.

Lemma readByte_sim (f : bool) (s t : PagedInputStream) :
  sim s t -> wf_cursor s ->
  rsim sim_byte (readByte f s) (readByte f t).
Proof.
  intros H Hwf.
  destruct (sim_fields s t H)
    as (_ & _ & _ & _ & _ & _ & _ & Hp & He & _).
  assert (Et : ptr_eqb (inputBufferPtr_ t) (inputBufferPtrEnd_ t)
               = ptr_eqb (inputBufferPtr_ s) (inputBufferPtrEnd_ s))
    by (rewrite Hp, He; reflexivity).
  unfold readByte. rewrite Et.
  destruct (ptr_eqb (inputBufferPtr_ s) (inputBufferPtrEnd_ s)) eqn:Heq.
  - apply (rsim_bind sim_chunk);
      [apply readBuffer_sim; [exact H|apply Hwf]|].
    intros s1 t1 [[H1 Hwf1] Hc].
    destruct (sim_fields s1 t1 H1) as (_ & _ & _ & Hs1 & _).
    rewrite <- Hs1.
    destruct (State_eqb (state_ s1) END) eqn:Es.
    + simpl. unfold sim_byte, sim_wf. simpl.
      split; [reflexivity|]. split; [lia|]. split; assumption.
    + destruct Hc as [Hc|Hc].
      * rewrite Hc in Es. discriminate.
      * apply deref_sim; assumption.
  - apply deref_sim; assumption.
Qed.

Lemma lor_lt_pow2 (a b k : Z) :
  0 < k -> 0 <= a < 2 ^ k -> 0 <= b < 2 ^ k -> 0 <= Z.lor a b < 2 ^ k.
Proof.
  intros Hk Ha Hb.
  assert (Hn : 0 <= Z.lor a b) by (apply Z.lor_nonneg; lia).
  split; [exact Hn|].
  destruct (Z.eq_dec (Z.lor a b) 0) as [->|Hz];
    [apply Z.pow_pos_nonneg; lia|].
  apply Z.log2_lt_pow2; [lia|].
  rewrite Z.log2_lor by lia.
  assert (La : Z.log2 a < k).
  { destruct (Z.eq_dec a 0) as [->|]; [simpl; lia|].
    apply Z.log2_lt_pow2; lia. }
  assert (Lb : Z.log2 b < k).
  { destruct (Z.eq_dec b 0) as [->|]; [simpl; lia|].
    apply Z.log2_lt_pow2; lia. }
  lia.
Qed.

Lemma header_range (b0 b1 b2 : Z) :
  0 <= b0 < 256 -> 0 <= b1 < 256 -> 0 <= b2 < 256 ->
  0 <= Z.shiftr
         (Z.lor (Z.lor b0 (uint32 (Z.shiftl b1 8)))
            (uint32 (Z.shiftl b2 16))) 1 < 2 ^ 31.
Proof.
  intros H0 H1 H2.
  assert (S1 : uint32 (Z.shiftl b1 8) = b1 * 2 ^ 8).
  { unfold uint32. rewrite Z.shiftl_mul_pow2 by lia.
    apply Z.mod_small. lia. }
  assert (S2 : uint32 (Z.shiftl b2 16) = b2 * 2 ^ 16).
  { unfold uint32. rewrite Z.shiftl_mul_pow2 by lia.
    apply Z.mod_small. lia. }
  rewrite S1, S2.
  assert (Hh : 0 <= Z.lor (Z.lor b0 (b1 * 2 ^ 8)) (b2 * 2 ^ 16) < 2 ^ 24).
  { apply lor_lt_pow2; [lia| |lia]. apply lor_lt_pow2; lia. }
  rewrite Z.shiftr_div_pow2 by lia. change (2 ^ 1) with 2.
  split.
  - apply Z.div_pos; lia.
  - apply Z.div_lt_upper_bound; lia.
Qed.

Lemma readHeader_sim (s t : PagedInputStream) :
  sim s t -> wf_cursor s ->
  rsim sim_header (readHeader s) (readHeader t).
Proof.
  intros H Hwf. unfold readHeader.
  apply (rsim_bind sim_byte); [apply readByte_sim; assumption|].
  intros [b0 s0] [b0' t0] (Hb & Hr0 & H0 & Hwf0).
  simpl in Hb, Hr0, H0, Hwf0. subst b0'. cbv zeta.
  sim_facts H0.
  match goal with
  | |- rsim _ (if negb (State_eqb (state_ ?a) END) then _ else _)
         (if negb (State_eqb (state_ ?b) END) then _ else _) =>
      set (S0 := a); set (T0 := b)
  end.
  assert (HS : sim S0 T0) by (subst S0 T0; sim_solve).
  assert (HW : wf_cursor S0) by exact Hwf0.
  change (state_ T0) with (state_ t0). change (state_ S0) with (state_ s0).
  rewrite <- Est.
  destruct (State_eqb (state_ s0) END); cbn [negb].
  - simpl. split; [split|]; [sim_solve|exact HW|simpl; lia].
  - apply (rsim_bind sim_byte); [apply readByte_sim; assumption|].
    intros [b1 s1] [b1' t1] (Hb1 & Hr1 & H1 & Hwf1).
    simpl in Hb1, Hr1, H1, Hwf1. subst b1'.
    apply (rsim_bind sim_byte); [apply readByte_sim; assumption|].
    intros [b2 s2] [b2' t2] (Hb2 & Hr2 & H2 & Hwf2).
    simpl in Hb2, Hr2, H2, Hwf2. subst b2'.
    simpl. split; [split|].
    + destruct (Z.land _ 1 =? 0); sim_solve.
    + destruct (Z.land _ 1 =? 0); exact Hwf2.
    + simpl. apply header_range; lia.
Qed.

Lemma cursor_room (s : PagedInputStream) :
  wf_cursor s ->
  0 <= ptr_diff (inputBufferPtrEnd_ s) (inputBufferPtr_ s) < 2 ^ 31
  /\ to_size_t (ptr_diff (inputBufferPtrEnd_ s) (inputBufferPtr_ s))
     = ptr_diff (inputBufferPtrEnd_ s) (inputBufferPtr_ s).
Proof.
  intros [_ [[-> ->] | (b & a & e & _ & -> & -> & Hba & Hae & _ & Hsz)]];
    simpl.
  - split; [lia|reflexivity].
  - split; [lia|]. apply to_size_t_small. lia.
Qed.

Lemma wf_cursor_advance (s : PagedInputStream) (n : Z) :
  wf_cursor s ->
  0 <= n <= ptr_diff (inputBufferPtrEnd_ s) (inputBufferPtr_ s) ->
  wf_cursor (set_inputBufferPtr (ptr_add (inputBufferPtr_ s) n) s).
Proof.
  intros [Hsrc [[Hp He] | (b & a & e & Hs & Hp & He & Hba & Hae & Hel & Hsz)]]
         Hn; split; try exact Hsrc; simpl.
  - left. rewrite Hp. simpl. auto.
  - right. exists b, (a + n), e. rewrite Hp, He in *. simpl in *.
    repeat split; try assumption; lia.
Qed.

Lemma ensureInput_loop_sim (fuel : nat) :
  forall (pos : Z) (s t : PagedInputStream),
    sim s t -> wf_cursor s ->
    rsim sim_wf (ensureInput_loop fuel pos s) (ensureInput_loop fuel pos t).
Proof.
  induction fuel as [|fuel IH]; intros pos s t H Hwf; simpl; sim_rw H;
    destruct (pos <? remainingLength_ s) eqn:Epos.
  - exact I.
  - simpl. split; assumption.
  - apply (rsim_bind_eq sim_chunk);
      [apply readBuffer_sim; [exact H|apply Hwf]|].
    intros s1 t1 Es1 _ [[H1 Hwf1] _]. sim_rw H1.
    destruct (cursor_room s1 Hwf1) as [Hroom Hsz].
    destruct (readBuffer_true_nonempty s s1 (proj1 Hwf) Es1)
      as (_ & _ & Hrem & _).
    apply Z.ltb_lt in Epos.
    rewrite <- (read_range_sim s1 t1) by
      (try exact H1; apply source_not_output, wf_cursor_source_ptr, Hwf1).
    destruct (read_range s1 _ _) as [bytes| |]; simpl; auto.
    apply IH.
    + sim_solve.
    + apply (wf_cursor_advance
               (set_inputBuffer (store (inputBuffer_ s1) pos bytes) s1)).
      * exact Hwf1.
      * simpl. rewrite Hsz. lia.
  - simpl. split; assumption.
Qed.

Lemma ensureInput_sim (n : Z) (s t : PagedInputStream) :
  sim s t -> wf_cursor s ->
  0 <= n <= ptr_diff (inputBufferPtrEnd_ s) (inputBufferPtr_ s) ->
  rsim sim_input (ensureInput n s) (ensureInput n t).
Proof.
  intros H Hwf Hn. unfold ensureInput. sim_rw H.
  pose proof (wf_cursor_source_ptr s Hwf) as Hsp.
  destruct (remainingLength_ s <=? n).
  - unfold rsim, sim_input, sim_wf. cbn [fst snd].
    split; [reflexivity|]. split; [apply source_not_output, Hsp|].
    split; [sim_solve|]. exact (wf_cursor_advance s n Hwf Hn).
  - set (s1 := if capacity (inputBuffer_ s) <? remainingLength_ s
               then set_inputBuffer
                      (reserve (remainingLength_ s) (inputBuffer_ s)) s
               else s).
    set (t1 := if capacity (inputBuffer_ s) <? remainingLength_ s
               then set_inputBuffer
                      (reserve (remainingLength_ s) (inputBuffer_ s)) t
               else t).
    assert (H1 : sim s1 t1)
      by (subst s1 t1; destruct (capacity _ <? _); sim_solve).
    assert (Hp1 : inputBufferPtr_ s1 = inputBufferPtr_ s)
      by (subst s1; destruct (capacity _ <? _); reflexivity).
    assert (Hw1 : wf_cursor s1)
      by (subst s1; destruct (capacity _ <? _); exact Hwf).
    assert (Hd1 : ptr_diff (inputBufferPtrEnd_ s1) (inputBufferPtr_ s1)
                  = ptr_diff (inputBufferPtrEnd_ s) (inputBufferPtr_ s))
      by (subst s1; destruct (capacity _ <? _); reflexivity).
    clearbody s1 t1. sim_rw H1.
    rewrite <- (read_range_sim s1 t1) by
      (try exact H1; rewrite Hp1; apply source_not_output, Hsp).
    destruct (read_range s1 _ _) as [bytes| |]; simpl; auto.
    sim_rw_goal.
    apply (rsim_bind sim_wf).
    + apply ensureInput_loop_sim; [sim_solve|].
      apply (wf_cursor_advance
               (set_inputBuffer (store (inputBuffer_ s1) 0 bytes) s1));
        [exact Hw1|]. simpl. rewrite Hd1. exact Hn.
    + intros s2 t2 [H2 Hw2]. unfold rsim, sim_input, sim_wf. cbn [fst snd].
      split; [reflexivity|]. split; [exact I|]. split; assumption.
Qed.

Lemma readOrSkip_header_sim (s t : PagedInputStream) :
  sim s t -> wf_cursor s -> 0 <= remainingLength_ s < 2 ^ 31 ->
  rsim sim_block (readOrSkip_header s) (readOrSkip_header t).
Proof.
  intros H Hwf Hr. unfold readOrSkip_header. sim_rw H.
  destruct (State_eqb (state_ s) HEADER || (remainingLength_ s =? 0)) eqn:Ec.
  - assert (Hh := readHeader_sim s t H Hwf).
    destruct (readHeader s) as [s'| |] eqn:Es, (readHeader t) as [t'| |];
      simpl in Hh; try contradiction; simpl; auto.
    destruct Hh as [Hsw Hrem]. split; [exact Hsw|]. split; [exact Hrem|].
    apply readHeader_inv in Es.
    destruct Es as (b0 & s0 & _ & [[Hend ->] | [_ (b1 & s1 & b2 & s2 & _ & _
                                                    & ->)]]).
    + simpl. rewrite Hend. discriminate.
    + simpl. destruct (Z.land _ 1 =? 0); discriminate.
  - simpl. split; [split; assumption|]. split; [exact Hr|].
    apply orb_false_iff in Ec. destruct Ec as [Ec _].
    intros Hc. rewrite Hc in Ec. discriminate.
Qed.

Lemma readOrSkip_chunk_sim (s t : PagedInputStream) :
  sim s t -> wf_cursor s ->
  rsim (fun s' t' =>
          sim_wf s' t' /\ state_ s' = state_ s
          /\ remainingLength_ s' = remainingLength_ s
          /\ decrypter_ s' = decrypter_ s)
    (readOrSkip_chunk s) (readOrSkip_chunk t).
Proof.
  intros H Hwf. unfold readOrSkip_chunk. sim_rw H.
  destruct (ptr_eqb (inputBufferPtr_ s) (inputBufferPtrEnd_ s)).
  - assert (Hb := readBuffer_sim true s t H (proj1 Hwf)).
    destruct (readBuffer true s) as [s'| |] eqn:Es,
             (readBuffer true t) as [t'| |];
      simpl in Hb; try contradiction; simpl; auto.
    destruct Hb as [Hsw _]. split; [exact Hsw|].
    destruct (readBuffer_true_nonempty s s' (proj1 Hwf) Es)
      as (_ & Hst & Hrem & _).
    apply readBuffer_frame in Es. destruct Es as (_ & Hd & _).
    auto.
  - simpl. split; [split; assumption|]. auto.
Qed.

Lemma readBuffer_true_keeps (s s' : PagedInputStream) :
  readBuffer true s = Ok s' ->
  state_ s' = state_ s /\ remainingLength_ s' = remainingLength_ s.
Proof.
  unfold readBuffer.
  destruct (Input.Next (input_ s)) as [[[p n]|] i]; simpl;
    [|discriminate].
  intros H; inversion H; subst; simpl. auto.
Qed.

Lemma ensureInput_loop_keeps (fuel : nat) :
  forall (pos : Z) (s s' : PagedInputStream),
    ensureInput_loop fuel pos s = Ok s' ->
    state_ s' = state_ s /\ remainingLength_ s' = remainingLength_ s.
Proof.
  induction fuel as [|fuel IH]; intros pos s s'; simpl;
    destruct (pos <? remainingLength_ s); try discriminate;
    try (intros H; inversion H; subst; auto; fail).
  destruct (readBuffer true s) as [s1| |] eqn:E1; cbn [bind];
    try discriminate.
  apply readBuffer_true_keeps in E1. destruct E1 as [Es Er].
  destruct (read_range s1 _ _) as [bytes| |]; cbn [bind]; try discriminate.
  intros H. apply IH in H. simpl in H. destruct H as [Hs Hr].
  split; congruence.
Qed.

Lemma ensureInput_keeps (n : Z) (s s' : PagedInputStream) (input : ptr) :
  ensureInput n s = Ok (input, s') ->
  state_ s' = state_ s /\ remainingLength_ s' = remainingLength_ s.
Proof.
  unfold ensureInput.
  destruct (remainingLength_ s <=? n).
  - intros H; inversion H; subst; simpl. auto.
  - set (s1 := if capacity (inputBuffer_ s) <? remainingLength_ s
               then _ else s).
    assert (Hk : state_ s1 = state_ s
                 /\ remainingLength_ s1 = remainingLength_ s)
      by (subst s1; destruct (capacity _ <? _); simpl; auto).
    clearbody s1.
    destruct (read_range s1 _ _) as [bytes| |]; cbn [bind]; try discriminate.
    destruct (ensureInput_loop _ _ _) as [s2| |] eqn:E2; cbn [bind];
      try discriminate.
    apply ensureInput_loop_keeps in E2. simpl in E2.
    intros H; inversion H; subst. destruct Hk, E2. split; congruence.
Qed.

Lemma availSize_range (s : PagedInputStream) :
  wf_cursor s -> 0 <= remainingLength_ s ->
  0 <= availSize s
  /\ availSize s <= ptr_diff (inputBufferPtrEnd_ s) (inputBufferPtr_ s)
  /\ availSize s <= remainingLength_ s
  /\ availSize s < 2 ^ 31.
Proof.
  intros Hwf Hr. destruct (cursor_room s Hwf) as [Hroom Hsz].
  unfold availSize. rewrite Hsz. lia.
Qed.

Lemma availSize_sim (s t : PagedInputStream) :
  sim s t -> availSize t = availSize s.
Proof. intros H. unfold availSize. sim_rw H. reflexivity. Qed.

Lemma original_sim (s t : PagedInputStream) :
  sim s t -> original t = original s.
Proof. intros H. unfold original. sim_rw H. reflexivity. Qed.

Lemma readOrSkip_fetch_sim (w : bool) (s t : PagedInputStream) :
  sim s t -> wf_cursor s -> 0 <= remainingLength_ s < 2 ^ 31 ->
  rsim (sim_fetch w) (readOrSkip_fetch true s) (readOrSkip_fetch w t).
Proof.
  intros H Hwf Hr. unfold readOrSkip_fetch. cbv zeta.
  apply (rsim_bind sim_block).
  { apply readOrSkip_header_sim; [sim_solve|exact Hwf|exact Hr]. }
  intros s1 t1 ([H1 Hwf1] & Hr1 & Hh1). sim_rw H1.
  destruct (State_eqb (state_ s1) END) eqn:Es1.
  { apply State_eqb_eq in Es1. unfold rsim, sim_fetch, sim_block, sim_wf.
    cbn [fst snd]. auto 10. }
  assert (Hne1 : state_ s1 <> END).
  { intros Hc. rewrite Hc in Es1. discriminate. }
  apply (rsim_bind_eq _ _ _ _ _ _ (readOrSkip_chunk_sim s1 t1 H1 Hwf1)).
  intros s2 t2 _ _ ([H2 Hwf2] & Hs2 & Hr2 & Hd2).
  rewrite (original_sim s2 t2 H2), (availSize_sim s2 t2 H2).
  assert (Hrem2 : 0 <= remainingLength_ s2) by lia.
  assert (Hrem2' : remainingLength_ s2 < 2 ^ 31) by lia.
  destruct (availSize_range s2 Hwf2 Hrem2) as (Ha0 & Haroom & Harem & Ha31).
  destruct (original s2) eqn:Eo.
  - (* the raw path *)
    unfold readOrSkip_original, write_out. cbn [fst snd].
    rewrite int32_small by lia.
    assert (Hst : state_ s2 = ORIGINAL /\ decrypter_ s2 = None).
    { unfold original in Eo. destruct (decrypter_ s2); [discriminate|].
      apply State_eqb_eq in Eo. auto. }
    pose proof (wf_cursor_advance s2 (availSize s2) Hwf2
                  (conj Ha0 Haroom)) as Hadv.
    sim_rw H2.
    unfold rsim, sim_fetch, sim_block, sim_wf. cbn [fst snd].
    split.
    { split; [split|]; [sim_solve|exact Hadv|].
      simpl. split; [lia|]. destruct Hst as [-> _]. discriminate. }
    split; [reflexivity|]. split; [reflexivity|]. split; [exact I|].
    split; [simpl; congruence|].
    exists (inputBufferPtr_ s2), (availSize s2).
    split; [reflexivity|]. split; [reflexivity|].
    simpl.
    destruct Hwf2 as [_ [[Hp He] | (b & a & e & Hb & Hp & He & Hba & Hae
                                     & Hel & Hsz)]].
    + unfold availSize in *. rewrite Hp, He in *. simpl in *.
      assert (Z.min (to_size_t 0) (remainingLength_ s2) = 0) as Hz.
      { unfold to_size_t in *. simpl in *. lia. }
      rewrite Hz in *.
      repeat split; try lia; try tauto.
    + rewrite Hp, Hb in *. simpl in *.
      repeat split; try lia; try tauto. discriminate.
  - (* the block is fetched whole *)
    apply (rsim_bind_eq _ _ _ _ _ _
             (ensureInput_sim (availSize s2) s2 t2 H2 Hwf2
                (conj Ha0 Haroom))).
    intros [input s3] [input' t3] Hens _ (Hi & Hno & H3 & Hwf3).
    cbn [fst snd] in Hi, Hno, H3, Hwf3. subst input'.
    destruct (ensureInput_keeps _ _ _ _ Hens) as [Hs3 Hr3].
    apply ensureInput_frame in Hens. destruct Hens as (_ & Hd3 & _).
    unfold rsim, sim_fetch, sim_block, sim_wf. cbn [fst snd].
    split.
    { split; [split; assumption|]. split; [lia|]. congruence. }
    split; [reflexivity|]. split; [reflexivity|]. split; [exact Hno|].
    split; [congruence|].
    split; [reflexivity|]. split; [reflexivity|].
    unfold original in *. rewrite Hd3, Hs3. exact Eo.
Qed.

(** ** A read for a skip against a read for the bytes *)

Lemma wf_cursor_ext (s s' : PagedInputStream) :
  input_ s' = input_ s ->
  inputBufferStart_ s' = inputBufferStart_ s ->
  inputBufferPtr_ s' = inputBufferPtr_ s ->
  inputBufferPtrEnd_ s' = inputBufferPtrEnd_ s ->
  wf_cursor s -> wf_cursor s'.
Proof.
  intros Hi Hs Hp He. unfold wf_cursor. rewrite Hi, Hs, Hp, He. auto.
Qed.

Lemma slice_skipn (off n j : Z) (l : list byte) :
  0 <= off -> 0 <= j <= n ->
  slice (off + j) (n - j) l = skipn (Z.to_nat j) (slice off n l).
Proof.
  intros Ho Hj. unfold slice.
  rewrite skipn_firstn_comm, skipn_skipn.
  f_equal; [lia|]. f_equal. lia.
Qed.

Lemma view_skipn (s : PagedInputStream) (p : ptr) (n j : Z) :
  valid_view p -> 0 <= j <= n ->
  view s (ptr_add p j) (n - j) = skipn (Z.to_nat j) (view s p n).
Proof.
  intros Hv Hj. destruct p as [|r off]; simpl.
  - symmetry. apply skipn_nil.
  - apply slice_skipn; assumption.
Qed.

Lemma slice_all (l : list byte) :
  slice 0 (Z.of_nat (length l)) l = l.
Proof. unfold slice. simpl. rewrite Nat2Z.id. apply firstn_all. Qed.

Lemma slice_blit_0 (old src : list byte) :
  slice 0 (Z.of_nat (length src)) (blit old 0 src) = src.
Proof.
  unfold slice. simpl. rewrite Nat2Z.id. apply firstn_blit_0.
Qed.

Lemma wf_stream_finish (s s' : PagedInputStream) :
  wf_stream s ->
  input_ s' = input_ s ->
  inputBufferStart_ s' = inputBufferStart_ s ->
  inputBufferPtr_ s' = inputBufferPtr_ s ->
  inputBufferPtrEnd_ s' = inputBufferPtrEnd_ s ->
  decompressor_ s' = decompressor_ s ->
  decrypter_ s' = decrypter_ s ->
  0 <= remainingLength_ s' < 2 ^ 31 ->
  wf_stream s'.
Proof.
  intros (Hwf & _ & Hdz & Hd) Hi Hs Hp He Hz Hy Hr.
  split; [eapply wf_cursor_ext; eassumption|].
  split; [exact Hr|]. rewrite Hz, Hy. auto.
Qed.

(** The decompression of a block, then the end of the read: the read for
    the bytes against a read of a related stream. *)
Lemma decompress_finish_sim (w : bool) (s2 t2 : PagedInputStream)
    (input : ptr) (out out' : out_params) r s' :
  sim s2 t2 -> wf_stream s2 -> not_output input ->
  state_ s2 = START ->
  ('(o, s) <- readOrSkip_decompress true input out s2 ;;
   Ok (readOrSkip_finish false o s)) = Ok (r, s') ->
  exists r' t',
    ('(o, s) <- readOrSkip_decompress w input out' t2 ;;
     Ok (readOrSkip_finish false o s)) = Ok (r', t')
    /\ sim_read w (pendingSkip_ t2) (r, s') (r', t').
Proof.
  intros H Hwf Hno Hst HB.
  pose proof Hwf as (_ & Hrem & Hhon & _).
  unfold readOrSkip_decompress in *. sim_rw H.
  rewrite <- (read_range_sim s2 t2) by assumption.
  rewrite Hst in *. cbn [State_eqb] in *.
  destruct (decompressor_ s2) as [dz|] eqn:Edz; [|discriminate].
  specialize (Hhon dz eq_refl).
  destruct (ensure (negb (is_null input)) NullInput); cbn [bind] in *;
    try discriminate.
  destruct (read_range s2 input (remainingLength_ s2)) as [bytes| |]
    eqn:Hrange; cbn [bind] in *; try discriminate.
  apply read_range_length in Hrange.
  specialize (Hhon bytes ltac:(lia)). cbv zeta in Hhon.
  destruct (getDecompressedLength dz bytes) as [len exact] eqn:Egl.
  cbn [fst snd] in Hhon. destruct Hhon as (Hlen & Hcapi & Hexact & Hsmall).
  assert (Hu : uint64 len = len)
    by (unfold uint64; apply Z.mod_small; lia).
  set (prod := decompress dz bytes len) in *.
  (* the read for the bytes decompresses *)
  cbn [negb andb] in HB.
  destruct (prepareOutputBuffer_fields len
              (log (EvGetDecompressedLength bytes) s2)) as (bB & EB & HcB).
  rewrite EB in HB. cbn [outputBuffer_ set_outputBuffer bind] in HB.
  rewrite Hu in HcB. rewrite (Hcapi _ HcB) in HB. fold prod in HB.
  unfold readOrSkip_finish, write_out in HB. cbn [fst snd negb] in HB.
  cbn [outputBufferLength_ set_outputBufferLength set_outputBufferPtr
       set_decryptionBuffer] in HB.
  assert (Hn : 0 <= Z.of_nat (length prod) < 2 ^ 31) by lia.
  rewrite int32_small in HB by lia.
  injection HB as Hr Hs'. subst r s'.
  match goal with
  | |- context [sim_read _ _ (_, ?x)] => set (s' := x) in *
  end.
  assert (HwfB : wf_stream s').
  { apply (wf_stream_finish s2 _ Hwf); try reflexivity;
      simpl; lia. }
  assert (HvB : view s' (Ptr OutputBuf 0) (Z.of_nat (length prod)) = prod).
  { simpl. apply slice_blit_0. }
  change (pendingSkip_ (log (EvGetDecompressedLength bytes) t2))
    with (pendingSkip_ t2).
  destruct (negb w && exact && (len <=? pendingSkip_ t2)) eqn:Eel.
  - (* the other read leaves the block compressed *)
    apply andb_true_iff in Eel. destruct Eel as [Eel Ele].
    apply andb_true_iff in Eel. destruct Eel as [Ew Eex].
    apply Z.leb_le in Ele. destruct w; [discriminate|]. subst exact.
    specialize (Hexact eq_refl).
    cbn [bind]. unfold readOrSkip_finish, write_out. cbn [fst snd negb].
    rewrite int32_small by lia.
    eexists _, _. split; [reflexivity|].
    unfold sim_read. cbn [fst snd].
    split; [subst s'; sim_solve|].
    split; [exact HwfB|].
    split; [reflexivity|]. split; [reflexivity|].
    split; [lia|].
    unfold view_ok.
    split; [exact Hn|]. split; [rewrite HvB; reflexivity|].
    split; [simpl; lia|]. split; [discriminate|].
    intros [Hc|Hc]; [discriminate|]. exfalso.
    change (pendingSkip_
              (set_lastWindowSize _ _)) with (pendingSkip_ t2) in Hc.
    lia.
  - destruct (prepareOutputBuffer_fields len
                (log (EvGetDecompressedLength bytes) t2)) as (bA & EA & HcA).
    rewrite EA. cbn [outputBuffer_ set_outputBuffer bind].
    rewrite Hu in HcA. rewrite (Hcapi _ HcA). fold prod.
    unfold readOrSkip_finish, write_out. cbn [fst snd negb].
    cbn [outputBufferLength_ set_outputBufferLength set_outputBufferPtr
         set_decryptionBuffer].
    rewrite int32_small by lia.
    eexists _, _. split; [reflexivity|].
    unfold sim_read. cbn [fst snd].
    split; [subst s'; sim_solve|].
    split; [exact HwfB|].
    split; [reflexivity|]. split; [reflexivity|].
    split; [reflexivity|].
    unfold view_ok.
    split; [exact Hn|]. split; [rewrite HvB; reflexivity|].
    split; [simpl; lia|].
    split; [intros ->; reflexivity|].
    intros _. rewrite HvB.
    split; [simpl; apply slice_blit_0|].
    split; [reflexivity|]. split; [discriminate|].
    intros Hc. simpl in Hc. discriminate.
Qed.

Lemma readOrSkip_fetch_keeps_length (w : bool) (s s' : PagedInputStream) r :
  readOrSkip_fetch w s = Ok (r, s') ->
  outputBufferLength_ s' = outputBufferLength_ s.
Proof.
  intros H. apply readOrSkip_fetch_inv in H.
  destruct H as (t1 & E1 & H).
  apply readOrSkip_header_frame in E1.
  destruct E1 as (_ & _ & _ & _ & _ & L1 & _). simpl in L1.
  destruct H as [(_ & _ & ->) | (_ & t2 & E2 & H)]; [exact L1|].
  apply readOrSkip_chunk_frame in E2.
  destruct E2 as (_ & _ & _ & _ & _ & L2 & _).
  destruct H as [(_ & _ & ->) | (_ & input & E3 & _)].
  - simpl. congruence.
  - apply ensureInput_frame in E3.
    destruct E3 as (_ & _ & _ & _ & _ & L3 & _). congruence.
Qed.


(** The end of a read that decrypted a block and does not decompress
    it. *)
Lemma decrypted_finish_sim (w : bool) (s1 t1 : PagedInputStream)
    (d : Decrypter) (bytes : list byte) (skip : Z) :
  sim s1 t1 -> wf_stream s1 ->
  Z.of_nat (length (decrypt d bytes)) < 2 ^ 31 ->
  let m := Z.of_nat (length (decrypt d bytes)) in
  let fin (wd : bool) (u : PagedInputStream) :=
    readOrSkip_finish false
      (write_out wd (Ptr DecryptionBuf 0) m (nullptr, 0))
      (set_outputBufferPtr (ptr_add (Ptr DecryptionBuf 0) m)
         (set_remainingLength m
            (log (EvDecrypt bytes)
               (set_decryptionBuffer (Some (decrypt d bytes)) u)))) in
  sim_read w skip (fin true s1) (fin w t1).
Proof.
  intros H Hwf Hm m fin. subst fin. cbv beta.
  unfold readOrSkip_finish, write_out. cbn [fst snd negb].
  unfold sim_read. cbn [fst snd].
  split; [unfold log; sim_solve|].
  split.
  { apply (wf_stream_finish s1 _ Hwf); try reflexivity; simpl; lia. }
  split; [reflexivity|]. split; [reflexivity|]. split; [reflexivity|].
  assert (Hv : forall u : PagedInputStream,
             decryptionBuffer_ u = Some (decrypt d bytes) ->
             view u (Ptr DecryptionBuf 0) m = decrypt d bytes).
  { intros u Hu. simpl. rewrite Hu. apply slice_all. }
  unfold view_ok.
  split; [lia|].
  split; [rewrite Hv by reflexivity; reflexivity|].
  split; [simpl; lia|].
  split; [intros ->; reflexivity|].
  intros _.
  split; [rewrite !Hv by reflexivity; reflexivity|].
  split; [reflexivity|]. split; [discriminate|].
  intros Hc. simpl in Hc. discriminate.
Qed.

(** The end of a read that returned a window of a raw block. *)
Lemma raw_finish_sim (w : bool) (s1 t1 : PagedInputStream)
    (out out' : out_params) (skip : Z) :
  sim s1 t1 -> wf_stream s1 ->
  raw_window w out out' s1 t1 ->
  sim_read w skip (readOrSkip_finish true out s1)
    (readOrSkip_finish true out' t1).
Proof.
  intros H Hwf (p & n & -> & -> & Hn & Hsp & Hnn & Hptr & HoS & HoT & Hst
                & Hd).
  pose proof (sim_fields s1 t1 H)
    as (Ei & _ & _ & Est & _ & _ & Eis & Eip & Eie & _).
  unfold readOrSkip_finish. cbn [fst snd negb].
  unfold sim_read. cbn [fst snd].
  split; [sim_solve|].
  split.
  { apply (wf_stream_finish s1 _ Hwf); try reflexivity. simpl. apply Hwf. }
  split; [reflexivity|]. split; [reflexivity|]. split; [reflexivity|].
  destruct Hwf as ([Hsrc Hc] & Hrem & _).
  assert (Hview : forall u : PagedInputStream,
             input_ u = input_ s1 ->
             view u p n = view s1 p n).
  { intros u Hu. destruct p as [|r off]; [reflexivity|].
    destruct r; try contradiction. simpl. rewrite Hu. reflexivity. }
  assert (Hvt : forall u u' : PagedInputStream,
             input_ u = input_ s1 -> input_ u' = input_ s1 ->
             view u' p n = view u p n).
  { intros u u' Hu Hu'. rewrite (Hview u Hu), (Hview u' Hu'). reflexivity. }
  unfold view_ok.
  destruct Hc as [[Hp He] | (b & a & e & Hb & Hp & He & Hba & Hae & Hel
                             & Hsz)].
  - (* no chunk: the window is empty *)
    rewrite Hp in Hptr. destruct p as [|r off]; [|discriminate].
    assert (n = 0) by (destruct (Z.eq_dec n 0); [assumption|];
                       exfalso; apply Hnn; [lia|reflexivity]).
    subst n.
    split; [lia|]. split; [reflexivity|]. split; [exact I|].
    split; [intros ->; reflexivity|].
    intros _. split; [reflexivity|]. split; [exact HoT|].
    split; [lia|]. intros _ Hc. lia.
  - rewrite Hp, Hb in *. simpl in Hn.
    destruct p as [|r off]; [discriminate|]. simpl in Hptr.
    injection Hptr as Hr Ha. subst r a.
    split; [lia|].
    split; [simpl; apply length_slice; lia|].
    split; [simpl; lia|].
    split; [intros ->; reflexivity|].
    intros _.
    split; [apply Hvt; simpl; congruence|]. split; [exact HoT|].
    split; [discriminate|].
    intros _ Hpos. simpl.
    rewrite <- Eis, <- Eie, <- Eip, HoT, He. simpl.
    split; [|lia].
    apply andb_true_iff. split; apply Z.leb_le; lia.
Qed.

(** A read that takes a new window of a block, for its bytes, against the
    same read of a related stream, for its bytes or for a skip. *)
Lemma readOrSkip_block_sim (w : bool) (s t : PagedInputStream) r s' :
  sim s t -> wf_stream s ->
  outputBufferLength_ s = 0 -> outputBufferLength_ t = 0 ->
  readOrSkip_block true s = Ok (r, s') ->
  exists r' t',
    readOrSkip_block w t = Ok (r', t')
    /\ sim_read w (pendingSkip_ t) (r, s') (r', t').
Proof.
  intros H Hwf Hls Hlt HB.
  destruct Hwf as (Hwc & Hrem & Hdz & Hdy).
  pose proof (readOrSkip_fetch_sim w s t H Hwc Hrem) as Hf.
  unfold readOrSkip_block in *.
  destruct (readOrSkip_fetch true s) as [[rf s1]| |] eqn:EfB;
    cbn [bind] in HB; try discriminate.
  destruct (readOrSkip_fetch w t) as [[rf' t1]| |] eqn:EfA;
    simpl in Hf; try contradiction.
  cbn [bind].
  destruct Hf as (([H1 Hwc1] & Hrem1 & Hnh1) & Hf).
  pose proof (readOrSkip_fetch_frame _ _ _ _ EfB) as (Fz & Fy & _).
  pose proof (readOrSkip_fetch_frame _ _ _ _ EfA) as (_ & _ & Fp).
  pose proof (readOrSkip_fetch_keeps_length _ _ _ _ EfB) as LB.
  pose proof (readOrSkip_fetch_keeps_length _ _ _ _ EfA) as LA.
  assert (Hwf1 : wf_stream s1).
  { split; [exact Hwc1|]. split; [exact Hrem1|]. rewrite Fz, Fy. auto. }
  rewrite <- Fp.
  destruct rf as [[[o input] out]|], rf' as [[[o' input'] out']|];
    cbn [fst snd] in *; try contradiction.
  - destruct Hf as (<- & <- & Hno & Hne & Hf).
    pose proof (sim_fields s1 t1 H1)
      as (_ & _ & _ & Est & _ & Erl & _ & _ & _ & _ & _ & _ & _ & Edz & Edy).
    destruct o.
    + (* raw block, no decrypter *)
      pose proof Hf as (p & n & _ & _ & _ & _ & _ & _ & _ & _ & Hst & Hd).
      assert (HdT : decrypter_ t1 = None) by congruence.
      assert (HstT : state_ t1 = ORIGINAL) by congruence.
      unfold readOrSkip_decrypt in HB. rewrite Hd in HB. cbn [bind] in HB.
      unfold readOrSkip_decompress in HB. rewrite Hst in HB.
      cbn [bind State_eqb] in HB. injection HB as <- <-.
      eexists _, _. split.
      { unfold readOrSkip_decrypt. rewrite HdT. cbn [bind].
        unfold readOrSkip_decompress. rewrite HstT. reflexivity. }
      apply raw_finish_sim; assumption.
    + destruct Hf as (-> & -> & Horig).
      assert (Hrr : read_range t1 input (remainingLength_ t1)
                    = read_range s1 input (remainingLength_ s1)).
      { rewrite <- Erl. symmetry. apply read_range_sim; assumption. }
      destruct (decrypter_ s1) as [d|] eqn:Ed.
      * (* the block is decrypted *)
        assert (HdT : decrypter_ t1 = Some d) by congruence.
        unfold readOrSkip_decrypt in HB. rewrite Ed in HB.
        destruct (read_range s1 input (remainingLength_ s1))
          as [bytes| |] eqn:Hrange; cbn [bind] in HB; try discriminate.
        assert (Hb : Z.of_nat (length (decrypt d bytes)) < 2 ^ 31).
        { apply (Hdy d); [congruence|].
          apply read_range_length in Hrange. lia. }
        cbn [remainingLength_ set_remainingLength] in HB.
        rewrite int32_small in HB by lia.
        assert (EdA : readOrSkip_decrypt w input (nullptr, 0) t1
                      = Ok (Ptr DecryptionBuf 0,
                            write_out w (Ptr DecryptionBuf 0)
                              (Z.of_nat (length (decrypt d bytes)))
                              (nullptr, 0),
                            set_outputBufferPtr
                              (ptr_add (Ptr DecryptionBuf 0)
                                 (Z.of_nat (length (decrypt d bytes))))
                              (set_remainingLength
                                 (Z.of_nat (length (decrypt d bytes)))
                                 (log (EvDecrypt bytes)
                                    (set_decryptionBuffer
                                       (Some (decrypt d bytes)) t1))))).
        { unfold readOrSkip_decrypt. rewrite HdT, Hrr. cbn [bind].
          cbn [remainingLength_ set_remainingLength].
          rewrite int32_small by lia. reflexivity. }
        destruct (State_eqb (state_ s1) START) eqn:Es.
        -- apply State_eqb_eq in Es.
           match type of HB with
           | context [readOrSkip_decompress true ?i ?o ?u] =>
               match type of EdA with
               | _ = Ok (_, ?o', ?u') =>
                   destruct (decompress_finish_sim w u u' i o o' r s')
                     as (r' & t' & EA & Hr)
               end
           end.
           ++ unfold log. sim_solve.
           ++ apply (wf_stream_finish s1 _ Hwf1); try reflexivity;
                simpl; lia.
           ++ exact I.
           ++ exact Es.
           ++ exact HB.
           ++ exists r', t'. split; [rewrite EdA; exact EA|exact Hr].
        -- unfold readOrSkip_decompress in HB.
           match type of HB with
           | context [State_eqb (state_ ?u) START] =>
               change (state_ u) with (state_ s1) in HB
           end.
           rewrite Es in HB. cbn [bind] in HB.
           assert (Hres : (r, s')
                          = readOrSkip_finish false
                              (write_out true (Ptr DecryptionBuf 0)
                                 (Z.of_nat (length (decrypt d bytes)))
                                 (nullptr, 0))
                              (set_outputBufferPtr
                                 (ptr_add (Ptr DecryptionBuf 0)
                                    (Z.of_nat (length (decrypt d bytes))))
                                 (set_remainingLength
                                    (Z.of_nat (length (decrypt d bytes)))
                                    (log (EvDecrypt bytes)
                                       (set_decryptionBuffer
                                          (Some (decrypt d bytes)) s1)))))
             by congruence.
           rewrite Hres. clear HB Hres.
           eexists _, _. split.
           { rewrite EdA. cbn [bind]. unfold readOrSkip_decompress.
             match goal with
             | |- context [State_eqb (state_ ?u) START] =>
                 change (state_ u) with (state_ t1)
             end.
             rewrite <- Est, Es. reflexivity. }
           exact (decrypted_finish_sim w s1 t1 d bytes _ H1 Hwf1 Hb).
      * (* no decrypter: the block is compressed *)
        assert (HdT : decrypter_ t1 = None) by congruence.
        unfold readOrSkip_decrypt in HB. rewrite Ed in HB.
        cbn [bind] in HB.
        assert (Es : state_ s1 = START).
        { unfold original in Horig. rewrite Ed in Horig.
          destruct (state_ s1); try reflexivity; try contradiction;
            discriminate. }
        destruct (decompress_finish_sim w s1 t1 input (nullptr, 0)
                    (nullptr, 0) r s' H1 Hwf1 Hno Es HB)
          as (r' & t' & EA & Hr).
        exists r', t'. split; [|exact Hr].
        unfold readOrSkip_decrypt. rewrite HdT. exact EA.
  - (* the stream has ended *)
    injection HB as <- <-.
    eexists _, _. split; [reflexivity|].
    unfold sim_read. cbn [fst snd].
    split; [exact H1|]. split; [exact Hwf1|].
    split; [congruence|]. split; [congruence|]. exact I.
Qed.

(** ** Fuel *)

Lemma skipAllPending_mono (fuel : nat) :
  forall (s : PagedInputStream) y,
    skipAllPending fuel s = Ok y -> skipAllPending (S fuel) s = Ok y.
Proof.
  induction fuel as [|fuel IH]; intros s y H.
  - simpl in H. destruct (0 <? pendingSkip_ s) eqn:E; [discriminate|].
    simpl. rewrite E. exact H.
  - change (skipAllPending (S fuel) s) with
      (if 0 <? pendingSkip_ s
       then
         '(r, s) <- readOrSkip false s ;;
         match r with
         | None => Ok (false, s)
         | Some (_, len) =>
             if pendingSkip_ s <? len
             then
               let toBackUp := len - pendingSkip_ s in
               let s := set_pendingSkip 0 s in
               s <- BackUp toBackUp s ;;
               skipAllPending fuel s
             else
               skipAllPending fuel
                 (set_pendingSkip (pendingSkip_ s - len) s)
         end
       else Ok (true, s)) in H.
    change (skipAllPending (S (S fuel)) s) with
      (if 0 <? pendingSkip_ s
       then
         '(r, s) <- readOrSkip false s ;;
         match r with
         | None => Ok (false, s)
         | Some (_, len) =>
             if pendingSkip_ s <? len
             then
               let toBackUp := len - pendingSkip_ s in
               let s := set_pendingSkip 0 s in
               s <- BackUp toBackUp s ;;
               skipAllPending (S fuel) s
             else
               skipAllPending (S fuel)
                 (set_pendingSkip (pendingSkip_ s - len) s)
         end
       else Ok (true, s)).
    destruct (0 <? pendingSkip_ s); [|exact H].
    destruct (readOrSkip false s) as [[[[p len]|] s1]| |]; cbn [bind] in *;
      try discriminate; [|exact H].
    destruct (pendingSkip_ s1 <? len).
    + cbv zeta in *.
      destruct (BackUp _ _) as [s2| |]; cbn [bind] in *; try discriminate.
      apply IH. exact H.
    + apply IH. exact H.
Qed.

Lemma Next_mono (fuel : nat) (s : PagedInputStream) y :
  Next fuel s = Ok y -> Next (S fuel) s = Ok y.
Proof.
  unfold Next.
  destruct (skipAllPending fuel s) as [[b s1]| |] eqn:E; cbn [bind];
    try discriminate.
  rewrite (skipAllPending_mono _ _ _ E). cbn [bind]. auto.
Qed.

Lemma readAll_unfold (fuel : nat) (s : PagedInputStream) :
  readAll (S fuel) s = readAll_round (S fuel) fuel s.
Proof. reflexivity. Qed.

Lemma readAll_round_mono (f f' : nat) (s : PagedInputStream) x :
  (forall u y, readAll f' u = Ok y -> readAll (S f') u = Ok y) ->
  readAll_round f f' s = Ok x ->
  readAll_round (S f) (S f') s = Ok x.
Proof.
  intros IH. unfold readAll_round.
  destruct (Next f s) as [[r s1]| |] eqn:E; cbn [bind]; try discriminate.
  rewrite (Next_mono _ _ _ E). cbn [bind].
  destruct r as [[p size]|]; [|auto].
  destruct (readAll f' s1) as [rest| |] eqn:Er; cbn [bind]; try discriminate.
  rewrite (IH _ _ Er). cbn [bind]. auto.
Qed.

Lemma readAll_mono (fuel : nat) :
  forall (s : PagedInputStream) x,
    readAll fuel s = Ok x -> readAll (S fuel) s = Ok x.
Proof.
  induction fuel as [|fuel IH]; intros s x H; [discriminate|].
  rewrite readAll_unfold in *.
  apply readAll_round_mono; assumption.
Qed.

Lemma readAll_as_round (fuel : nat) (s : PagedInputStream) x :
  readAll fuel s = Ok x -> readAll_round fuel fuel s = Ok x.
Proof.
  destruct fuel as [|fuel]; [discriminate|].
  rewrite readAll_unfold. unfold readAll_round.
  destruct (Next (S fuel) s) as [[r s1]| |]; cbn [bind]; try discriminate.
  destruct r as [[p size]|]; [|auto].
  destruct (readAll fuel s1) as [rest| |] eqn:Er; cbn [bind];
    try discriminate.
  rewrite (readAll_mono _ _ _ Er). cbn [bind]. auto.
Qed.

Lemma skipAllPending_none (fuel : nat) (s : PagedInputStream) :
  pendingSkip_ s = 0 -> skipAllPending fuel s = Ok (true, s).
Proof.
  intros H. destruct fuel; simpl; rewrite H; reflexivity.
Qed.

Lemma Next_no_skip (fuel : nat) (s : PagedInputStream) :
  pendingSkip_ s = 0 -> Next fuel s = readOrSkip true s.
Proof.
  intros H. unfold Next. rewrite skipAllPending_none by exact H.
  reflexivity.
Qed.

(** ** Skipping, then reading *)

(** A read for the bytes, against a read of a related stream for its
    bytes or for a skip. *)
Lemma readOrSkip_sim (w : bool) (s t : PagedInputStream) r s' :
  sim s t -> wf_stream s ->
  outputBufferLength_ s = 0 -> outputBufferLength_ t = 0 ->
  pendingSkip_ s = 0 ->
  (w = true -> pendingSkip_ t = 0) ->
  readOrSkip true s = Ok (r, s') ->
  pendingSkip_ s' = 0
  /\ exists r' t',
       readOrSkip w t = Ok (r', t')
       /\ pendingSkip_ t' = pendingSkip_ t
       /\ sim_read w (pendingSkip_ t) (r, s') (r', t').
Proof.
  intros H Hwf Hls Hlt Hps Hpt HB.
  pose proof (readOrSkip_frame _ _ _ _ HB) as (_ & _ & Fs).
  split; [congruence|].
  rewrite readOrSkip_as_block in HB by auto.
  destruct (readOrSkip_block_sim w s t r s' H Hwf Hls Hlt HB)
    as (r' & t' & EA & Hr).
  exists r', t'.
  rewrite readOrSkip_as_block by auto.
  split; [exact EA|]. split; [|exact Hr].
  rewrite <- (readOrSkip_as_block w t) in EA by auto.
  apply readOrSkip_frame in EA. apply EA.
Qed.

Lemma BackUp_rewind_ok (count : Z) (s : PagedInputStream) :
  is_null (outputBufferPtr_ s) = false ->
  (state_ s = ORIGINAL ->
   ptr_leb (inputBufferStart_ s) (outputBufferPtr_ s)
   && ptr_leb (outputBufferPtr_ s) (inputBufferPtrEnd_ s) = true
   /\ (to_size_t count
       <=? to_size_t (ptr_diff (inputBufferPtr_ s) (inputBufferStart_ s)))
      = true) ->
  BackUp_rewind count s
  = Ok (set_bytesReturned (bytesReturned_ s - count)
          (set_outputBufferLength (outputBufferLength_ s + to_size_t count)
             (set_outputBufferPtr
                (ptr_add (outputBufferPtr_ s) (- to_size_t count)) s))).
Proof.
  intros Hn Hc. unfold BackUp_rewind, ensure. rewrite Hn. cbn [negb bind].
  destruct (State_eqb (state_ s) ORIGINAL) eqn:Es.
  - apply State_eqb_eq in Es. destruct (Hc Es) as [H1 H2].
    rewrite H1. cbn [bind]. rewrite H2. reflexivity.
  - reflexivity.
Qed.

(** After a read for a skip that produced more than was to be skipped,
    the rest is backed up, and the next read returns it. *)
Lemma BackUp_then_replay (s' t' : PagedInputStream) (p p' : ptr)
    (n k : Z) :
  sim s' t' ->
  outputBufferLength_ t' = 0 ->
  pendingSkip_ t' = k ->
  0 <= k < n ->
  view_ok s' t' false k p p' n ->
  exists t2 t3,
    BackUp (n - k) (set_pendingSkip 0 t') = Ok t2
    /\ pendingSkip_ t2 = 0
    /\ readOrSkip true t2 = Ok (Some (ptr_add p k, n - k), t3)
    /\ sim s' t3
    /\ outputBufferLength_ t3 = 0
    /\ pendingSkip_ t3 = 0
    /\ view t3 (ptr_add p k) (n - k) = skipn (Z.to_nat k) (view s' p n).
Proof.
  intros H Hl Hp Hk (Hn & Hlen & Hvp & _ & Hv).
  destruct Hv as (Hview & Hout & Hnn & Hchk); [right; lia|].
  assert (Hpn : p <> nullptr) by (apply Hnn; lia).
  destruct p as [|r off]; [contradiction|]. clear Hpn Hnn.
  simpl in Hout, Hvp.
  set (t0 := set_pendingSkip 0 t').
  set (t2 := set_bytesReturned (bytesReturned_ t' - (n - k))
               (set_outputBufferLength (n - k)
                  (set_outputBufferPtr (Ptr r (off + k)) t0))).
  assert (E2 : BackUp (n - k) t0 = Ok t2).
  { rewrite BackUp_cases by lia.
    change (pendingSkip_ t0) with 0. cbn [Z.ltb Z.compare].
    rewrite BackUp_rewind_ok.
    - subst t2. f_equal.
      change (bytesReturned_ t0) with (bytesReturned_ t').
      change (outputBufferLength_ t0) with (outputBufferLength_ t').
      change (outputBufferPtr_ t0) with (outputBufferPtr_ t').
      rewrite Hl, Hout, to_size_t_small by lia. cbn [ptr_add].
      replace (off + n + - (n - k)) with (off + k) by lia.
      replace (0 + (n - k)) with (n - k) by lia. reflexivity.
    - change (outputBufferPtr_ t0) with (outputBufferPtr_ t').
      rewrite Hout. reflexivity.
    - intros Es. destruct (Hchk Es ltac:(lia)) as [Hc1 Hc2].
      split; [exact Hc1|].
      change (inputBufferPtr_ t0) with (inputBufferPtr_ t').
      change (inputBufferStart_ t0) with (inputBufferStart_ t').
      rewrite !to_size_t_small by lia. apply Z.leb_le. lia. }
  set (t3 := set_outputBufferLength 0
               (set_bytesReturned (bytesReturned_ t2 + (n - k))
                  (set_outputBufferPtr
                     (ptr_add (Ptr r (off + k)) (n - k)) t2))).
  exists t2, t3.
  split; [exact E2|]. split; [reflexivity|].
  split.
  { unfold readOrSkip, ensure.
    change (pendingSkip_ t2) with 0.
    change (outputBufferLength_ t2) with (n - k).
    cbn [Z.eqb negb orb bind].
    assert (En : (n - k =? 0) = false) by (apply Z.eqb_neq; lia).
    rewrite En. cbn [negb]. unfold readOrSkip_replay, write_out.
    change (outputBufferLength_ t2) with (n - k).
    change (outputBufferPtr_ t2) with (Ptr r (off + k)).
    rewrite int32_small by lia. reflexivity. }
  split.
  { subst t3 t2 t0. sim_solve. }
  split; [reflexivity|]. split; [reflexivity|].
  rewrite <- Hview.
  change (ptr_add (Ptr r off) k) with (Ptr r (off + k)).
  assert (Hreg : forall q m, view t3 q m = view t' q m) by reflexivity.
  rewrite Hreg.
  apply (view_skipn t' (Ptr r off) n k); [exact Hvp|lia].
Qed.

Lemma skipAllPending_S (fuel : nat) (s : PagedInputStream) :
  skipAllPending (S fuel) s
  = if 0 <? pendingSkip_ s
    then
      '(r, s) <- readOrSkip false s ;;
      match r with
      | None => Ok (false, s)
      | Some (_, len) =>
          if pendingSkip_ s <? len
          then
            s <- BackUp (len - pendingSkip_ s) (set_pendingSkip 0 s) ;;
            skipAllPending fuel s
          else
            skipAllPending fuel (set_pendingSkip (pendingSkip_ s - len) s)
      end
    else Ok (true, s).
Proof. reflexivity. Qed.

Lemma skipn_app_le {A} (k : nat) (l1 l2 : list A) :
  (k <= length l1)%nat -> skipn k (l1 ++ l2) = skipn k l1 ++ l2.
Proof.
  intros H. rewrite skipn_app.
  replace (k - length l1)%nat with 0%nat by lia. reflexivity.
Qed.

Lemma skipn_app_ge {A} (k : nat) (l1 l2 : list A) :
  (length l1 <= k)%nat -> skipn k (l1 ++ l2) = skipn (k - length l1) l2.
Proof.
  intros H. rewrite skipn_app.
  rewrite skipn_all2 by exact H. reflexivity.
Qed.

(** Reading a stream to its end with [k] bytes to skip first gives the
    bytes of the stream without the first [k]. *)
Lemma readAll_sim (fuel : nat) :
  forall (s t : PagedInputStream) (k : Z) (bytes : list byte),
    sim s t -> wf_stream s ->
    outputBufferLength_ s = 0 -> outputBufferLength_ t = 0 ->
    pendingSkip_ s = 0 -> pendingSkip_ t = k ->
    0 <= k <= Z.of_nat (length bytes) ->
    readAll fuel s = Ok bytes ->
    readAll fuel t = Ok (skipn (Z.to_nat k) bytes).
Proof.
  induction fuel as [|f IH]; intros s t k bytes H Hwf Hls Hlt Hps Hpt Hk HB;
    [discriminate|].
  rewrite readAll_unfold in *. unfold readAll_round in HB.
  rewrite Next_no_skip in HB by exact Hps.
  destruct (readOrSkip true s) as [[r s']| |] eqn:EB; cbn [bind] in HB;
    try discriminate.
  destruct (Z.eq_dec k 0) as [Hk0|Hk0].
  - (* nothing to skip *)
    subst k. rewrite Hk0 in *.
    destruct (readOrSkip_sim true s t r s' H Hwf Hls Hlt Hps
                (fun _ => Hk0) EB)
      as (Hps' & r' & t' & EA & Hpt' & H' & Hwf' & Hls' & Hlt' & Hm).
    cbn [fst snd] in *.
    unfold readAll_round. rewrite Next_no_skip by exact Hk0.
    rewrite EA. cbn [bind].
    destruct r as [[p n]|], r' as [[p' n']|]; try contradiction.
    + destruct Hm as (-> & Hn & Hlen & Hvp & Hpp & Hv).
      rewrite (Hpp eq_refl).
      destruct Hv as (Hview & _); [left; reflexivity|].
      destruct (readAll f s') as [rest| |] eqn:Er; cbn [bind] in HB;
        try discriminate.
      injection HB as <-.
      rewrite (IH s' t' 0 rest H' Hwf' Hls' Hlt' Hps') by
        (try congruence; try lia; exact Er).
      cbn [bind]. rewrite Hview. reflexivity.
    + injection HB as <-. reflexivity.
  - (* a skip is pending *)
    destruct (readOrSkip_sim false s t r s' H Hwf Hls Hlt Hps
                ltac:(discriminate) EB)
      as (Hps' & r' & t' & EA & Hpt' & H' & Hwf' & Hls' & Hlt' & Hm).
    cbn [fst snd] in *.
    rewrite Hpt in *.
    destruct r as [[p n]|], r' as [[p' n']|]; try contradiction.
    2: { injection HB as <-. simpl in Hk. lia. }
    destruct Hm as (-> & Hvok).
    pose proof Hvok as (Hn & Hlen & _).
    destruct (readAll f s') as [rest| |] eqn:Er; cbn [bind] in HB;
      try discriminate.
    injection HB as <-.
    unfold readAll_round, Next. rewrite skipAllPending_S.
    assert (Epos : (0 <? pendingSkip_ t) = true)
      by (apply Z.ltb_lt; lia).
    rewrite Epos, EA. cbn [bind]. rewrite Hpt'.
    destruct (Z.lt_ge_cases k n) as [Hlt'' | Hge].
    + (* the read produced more than the skip takes *)
      assert (El : (k <? n) = true) by (apply Z.ltb_lt; exact Hlt'').
      rewrite El.
      destruct (BackUp_then_replay s' t' p p' n k H' Hlt' Hpt'
                  ltac:(lia) Hvok)
        as (t2 & t3 & E2 & Hp2 & E3 & H3 & Hl3 & Hp3 & Hv3).
      rewrite E2. cbn [bind].
      rewrite skipAllPending_none by exact Hp2. cbn [bind].
      rewrite E3. cbn [bind].
      rewrite (IH s' t3 0 rest H3 Hwf' Hls' Hl3 Hps' Hp3) by
        (try lia; exact Er).
      cbn [bind]. rewrite Hv3. simpl skipn.
      rewrite skipn_app_le by lia. reflexivity.
    + (* the whole read is skipped *)
      assert (El : (k <? n) = false) by (apply Z.ltb_ge; exact Hge).
      rewrite El.
      assert (Hrest : readAll f (set_pendingSkip (k - n) t')
                      = Ok (skipn (Z.to_nat (k - n)) rest)).
      { apply (IH s'); try assumption; try reflexivity.
        rewrite length_app in Hk. lia. }
      apply readAll_as_round in Hrest.
      unfold readAll_round, Next in Hrest.
      rewrite Hrest. f_equal.
      rewrite skipn_app_ge by lia. f_equal. lia.
Qed.

(** ** Skip, then read *)

Lemma wf_stream_create (input : SeekableInputStream) dz d :
  wf_source input ->
  (forall z, dz = Some z -> honest z) ->
  (forall y, d = Some y -> bounded y) ->
  wf_stream (create input dz d).
Proof.
  intros Hsrc Hz Hy. split; [apply wf_cursor_create; exact Hsrc|].
  split; [simpl; lia|]. split; assumption.
Qed.

Lemma stored_honest : honest stored.
Proof.
  intros input Hlen. simpl. repeat split; auto; lia.
Qed.

Lemma flipping_bounded : bounded flipping.
Proof.
  intros input H. simpl. rewrite length_map. exact H.
Qed.

(** C4: let a stream between two reads (no replay window, no skip
    pending) deliver [bytes] when it is read to its end by repeated Next.
    For every k with 0 <= k <= length bytes, so for every k up to the
    length of the block the stream is at, skip(k) followed by the same
    reads delivers [bytes] without its first k bytes: the skip, deferred
    and fused into the reads, gives the byte stream that reading and
    discarding gives.  And when the first Next returns a view of more
    than k bytes, skip(k) followed by Next returns that view without its
    first k bytes. *)
Theorem skip_read_equivalence (fuel : nat) (s : PagedInputStream) (k : Z)
    (bytes : list byte) :
  wf_stream s ->
  outputBufferLength_ s = 0 ->
  pendingSkip_ s = 0 ->
  readAll fuel s = Ok bytes ->
  0 <= k <= Z.of_nat (length bytes) ->
  k < 2 ^ 63 ->
  exists s_k,
    skip k s = Ok (true, s_k)
    /\ readAll fuel s_k = Ok (skipn (Z.to_nat k) bytes)
    /\ forall p n s',
         Next fuel s = Ok (Some (p, n), s') ->
         k < n ->
         0 < k ->
         exists t',
           Next fuel s_k = Ok (Some (ptr_add p k, n - k), t')
           /\ view t' (ptr_add p k) (n - k)
              = skipn (Z.to_nat k) (view s' p n)
           /\ sim s' t'.
Proof.
  intros Hwf Hl Hp HB Hk Hk63.
  exists (set_pendingSkip (pendingSkip_ s + k) s).
  split.
  { unfold skip, ensure. rewrite int64_small by lia.
    assert (E : (0 <=? k) = true) by (apply Z.leb_le; lia).
    rewrite E. reflexivity. }
  split.
  { apply (readAll_sim fuel s); try assumption; try reflexivity.
    simpl. lia. }
  intros p n s' EN Hkn Hk0.
  set (t := set_pendingSkip (pendingSkip_ s + k) s).
  assert (Hpt : pendingSkip_ t = k) by (subst t; simpl; lia).
  rewrite Next_no_skip in EN by exact Hp.
  destruct (readOrSkip_sim false s t _ _ (sim_refl s) Hwf Hl Hl Hp
              ltac:(discriminate) EN)
    as (Hps' & r' & t' & EA & Hpt' & H' & Hwf' & Hls' & Hlt' & Hm).
  cbn [fst snd] in *.
  destruct r' as [[p' n']|]; [|contradiction].
  destruct Hm as (-> & Hvok). rewrite Hpt in *.
  destruct (BackUp_then_replay s' t' p p' n k H' Hlt' Hpt' ltac:(lia) Hvok)
    as (t2 & t3 & E2 & Hp2 & E3 & H3 & Hl3 & Hp3 & Hv3).
  exists t3.
  split; [|split; assumption].
  destruct fuel as [|f]; [discriminate|].
  unfold Next. rewrite skipAllPending_S.
  assert (Epos : (0 <? pendingSkip_ t) = true) by (apply Z.ltb_lt; lia).
  rewrite Epos, EA. cbn [bind]. rewrite Hpt'.
  assert (El : (k <? n) = true) by (apply Z.ltb_lt; lia).
  rewrite El, E2. cbn [bind].
  rewrite skipAllPending_none by exact Hp2. cbn [bind]. exact E3.
Qed.

Lemma skip_read_equivalence_witness :
  exists s_k,
    skip 4 mixed_stream = Ok (true, s_k)
    /\ readAll 8 s_k
       = Ok (skipn 4
               (map byte_of_Z
                  [255; 254; 253; 252; 251; 245; 244; 243;
                   225; 224; 223; 222])).
Proof.
  assert (Hwf : wf_stream mixed_stream).
  { apply wf_stream_create.
    - unfold wf_source. simpl. lia.
    - intros z Hz. injection Hz as <-. exact stored_honest.
    - intros y Hy. injection Hy as <-. exact flipping_bounded. }
  assert (HB : readAll 8 mixed_stream
               = Ok (map byte_of_Z
                       [255; 254; 253; 252; 251; 245; 244; 243;
                        225; 224; 223; 222]))
    by (vm_compute; reflexivity).
  destruct (skip_read_equivalence 8 mixed_stream 4 _ Hwf eq_refl eq_refl HB)
    as (s_k & Es & Er & _).
  - simpl. lia.
  - lia.
  - exists s_k. split; [exact Es|exact Er].
Defined.

(** * Further properties of the member functions *)

(** ** prepareOutputBuffer *)

Lemma set_outputBuffer_same (s : PagedInputStream) (b : DataBuffer) :
  outputBuffer_ s = Some b -> set_outputBuffer (Some b) s = s.
Proof. intros H. destruct s; simpl in *. subst. reflexivity. Qed.

(** X1: prepareOutputBuffer(n) leaves an output buffer of capacity at
    least n and writes no other member; a buffer that is already large
    enough is kept as it is, and the capacity never shrinks. *)
Theorem prepareOutputBuffer_capacity (n : Z) (s : PagedInputStream) :
  0 <= n < 2 ^ 64 ->
  exists b,
    prepareOutputBuffer n s = set_outputBuffer (Some b) s
    /\ n <= capacity b
    /\ (forall b0, outputBuffer_ s = Some b0 ->
          (n <= capacity b0 -> b = b0 /\ prepareOutputBuffer n s = s)
          /\ (capacity b0 < n -> b = alloc n)
          /\ capacity b0 <= capacity b)
    /\ (outputBuffer_ s = None -> b = alloc n).
Proof.
  intros Hn. unfold prepareOutputBuffer.
  assert (Eu : uint64 n = n) by (unfold uint64; apply Z.mod_small; lia).
  rewrite Eu.
  destruct (outputBuffer_ s) as [b0|] eqn:Eb.
  - destruct (capacity b0 <? n) eqn:Ec.
    + apply Z.ltb_lt in Ec. exists (alloc n).
      split; [reflexivity|]. split; [simpl; lia|].
      split; [|discriminate].
      intros b1 H1. injection H1 as <-.
      split; [lia|]. split; [reflexivity|]. simpl. lia.
    + apply Z.ltb_ge in Ec. exists b0.
      split; [symmetry; apply set_outputBuffer_same; exact Eb|].
      split; [exact Ec|]. split; [|discriminate].
      intros b1 H1. injection H1 as <-.
      split; [intros _; split; reflexivity|]. split; [lia|lia].
  - exists (alloc n). split; [reflexivity|]. split; [simpl; lia|].
    split; [discriminate|reflexivity].
Qed.

Lemma prepareOutputBuffer_capacity_witness :
  0 <= 6 < 2 ^ 64
  /\ exists b,
       prepareOutputBuffer 6 compressed_stream
       = set_outputBuffer (Some b) compressed_stream
       /\ 6 <= capacity b.
Proof.
  assert (H : 0 <= 6 < 2 ^ 64) by lia.
  split; [exact H|].
  destruct (prepareOutputBuffer_capacity 6 compressed_stream H)
    as (b & E & Hc & _).
  exists b. split; [exact E|exact Hc].
Defined.

(** ** readByte *)

(** X2: readByte hands out the bytes of the source in order, one per
    call, whether or not the byte is in the chunk at hand; at the end of
    the source it fails with "read past EOF" when told to, and otherwise
    returns 0, enters state END and clears the cursor. *)
Theorem readByte_in_order (failOnEof : bool) (s : PagedInputStream) :
  wf_cursor s ->
  state_ s <> END ->
  (forall (b : byte) (rest : list byte),
      unread s = b :: rest ->
      exists s',
        readByte failOnEof s = Ok (byte_val b, s')
        /\ unread s' = rest
        /\ wf_cursor s'
        /\ byte_frame s s')
  /\ (unread s = [] ->
      readByte true s = Fatal ReadPastEOF
      /\ exists s',
           readByte false s = Ok (0, s')
           /\ state_ s' = END
           /\ inputBufferPtr_ s' = nullptr
           /\ inputBufferPtrEnd_ s' = nullptr
           /\ unread s' = []).
Proof.
  intros Hwf Hst. split.
  - intros b rest Hu.
    destruct (readByte_next failOnEof s b rest Hwf Hst Hu)
      as (s' & E & Hwf' & Hu' & F).
    exists s'. auto.
  - intros Hu.
    destruct (readByte_eof s Hwf Hu) as (Et & s' & Ef & Hs & Hp & He & Hi & _).
    split; [exact Et|]. exists s'.
    repeat (split; [assumption|]).
    unfold unread. rewrite Hp, He, Hi. simpl.
    unfold unread in Hu. apply app_eq_nil in Hu. apply Hu.
Qed.

Lemma readByte_in_order_witness :
  wf_cursor raw_stream
  /\ state_ raw_stream <> END
  /\ exists s',
       readByte true raw_stream = Ok (21, s')
       /\ unread s' = tl raw_block.
Proof.
  assert (Hwf : wf_cursor raw_stream).
  { apply wf_cursor_create. unfold wf_source. simpl. lia. }
  assert (Hst : state_ raw_stream <> END) by discriminate.
  split; [exact Hwf|]. split; [exact Hst|].
  destruct (readByte_in_order true raw_stream Hwf Hst) as [H _].
  destruct (H (byte_of_Z 21) (tl raw_block) eq_refl)
    as (s' & E & Hu & _).
  exists s'. split; [exact E|exact Hu].
Defined.

(** ** readHeader: the offsets it records *)

Lemma length_unread (s : PagedInputStream) :
  wf_cursor s ->
  cursor_at_source s ->
  position (input_ s) <= Z.of_nat (length (content (input_ s))) ->
  Z.of_nat (length (unread s))
  = Z.of_nat (length (content (input_ s))) - position (input_ s)
    + ptr_diff (inputBufferPtrEnd_ s) (inputBufferPtr_ s).
Proof.
  intros [[Hb Hpos] Hc] Ha Hle. unfold unread.
  rewrite length_app, length_skipn. unfold slice.
  rewrite length_firstn, length_skipn.
  destruct Hc as [[Hp He] | (b & a & e & Hst & Hp & He & Hba & Hae & Hel & _)];
    rewrite ?Hp, ?He; simpl; [lia|].
  destruct Ha as [Ha|Ha]; [congruence|].
  assert (Hpe : position (input_ s) = e) by congruence. lia.
Qed.

(** The offset in the source of the byte readByte takes. *)
Lemma readByte_offset (f : bool) (s s0 : PagedInputStream) (v : Z)
    (b : byte) (rest : list byte) :
  wf_cursor s ->
  cursor_at_source s ->
  state_ s <> END ->
  unread s = b :: rest ->
  readByte f s = Ok (v, s0) ->
  Input.ByteCount (input_ s0)
  - ptr_diff (inputBufferPtrEnd_ s0) (inputBufferPtr_ s0) - 1
  = Z.of_nat (length (content (input_ s))) - Z.of_nat (length (unread s))
  /\ cursor_at_source s0
  /\ position (input_ s0) <= Z.of_nat (length (content (input_ s0))).
Proof.
  intros Hwf Ha Hst Hu. unfold readByte.
  destruct (ptr_eqb (inputBufferPtr_ s) (inputBufferPtrEnd_ s)) eqn:Heq.
  - pose proof (unread_empty_cursor s Hwf Heq) as Hue.
    assert (Hlt : position (input_ s)
                  < Z.of_nat (length (content (input_ s)))).
    { rewrite Hue in Hu.
      apply (f_equal (@length byte)) in Hu. rewrite length_skipn in Hu.
      simpl in Hu. lia. }
    rewrite Hue, length_skipn.
    destruct Hwf as [Hsrc _].
    destruct (Next_some _ Hsrc Hlt) as (n & Hn & Hle & E).
    unfold readBuffer. rewrite E. cbn [bind].
    change (state_ (set_inputBufferPtrEnd _ _)) with (state_ s).
    rewrite (State_neq_eqb _ _ Hst).
    destruct (load _ _) as [b'| |]; cbn [bind]; try discriminate.
    intros H. injection H as _ <-. unfold Input.ByteCount. simpl.
    destruct Hsrc as [_ Hp0].
    split; [lia|]. split; [right; reflexivity|lia].
  - destruct (load _ _) as [b'| |]; cbn [bind]; try discriminate.
    intros H. injection H as _ <-. unfold Input.ByteCount.
    destruct Hwf as [[Hb Hpos] Hc].
    destruct Hc
      as [[Hp He] | (b1 & a & e & Hs & Hp & He & Hba & Hae & Hel & Hsz)].
    { rewrite Hp, He in Heq. discriminate. }
    destruct Ha as [Ha|Ha]; [congruence|].
    assert (Hpe : position (input_ s) = e) by congruence.
    rewrite (length_unread s).
    + simpl. rewrite Hp, He. simpl. split; [lia|].
      split; [right; exact Ha|lia].
    + split; [split; assumption|]. right. exists b1, a, e. auto 10.
    + right. exact Ha.
    + lia.
Qed.

Lemma readBuffer_keeps_offsets (f : bool) (s s1 : PagedInputStream) :
  readBuffer f s = Ok s1 ->
  lastHeaderOffset_ s1 = lastHeaderOffset_ s
  /\ bytesReturnedAtLastHeaderOffset_ s1
     = bytesReturnedAtLastHeaderOffset_ s.
Proof.
  unfold readBuffer, ensure.
  destruct (Input.Next (input_ s)) as [[[p n]|] i].
  - intros H; inversion H; subst. split; reflexivity.
  - destruct (negb f); simpl; [|discriminate].
    intros H; inversion H; subst. split; reflexivity.
Qed.

Lemma readByte_keeps_offsets (f : bool) (s s' : PagedInputStream) (v : Z) :
  readByte f s = Ok (v, s') ->
  lastHeaderOffset_ s' = lastHeaderOffset_ s
  /\ bytesReturnedAtLastHeaderOffset_ s'
     = bytesReturnedAtLastHeaderOffset_ s.
Proof.
  unfold readByte.
  assert (D : forall s0 s1 b0,
             (b <- load s0 (inputBufferPtr_ s0) ;;
              Ok (byte_val b,
                  set_inputBufferPtr (ptr_add (inputBufferPtr_ s0) 1) s0))
             = Ok (b0, s1) ->
             lastHeaderOffset_ s1 = lastHeaderOffset_ s0
             /\ bytesReturnedAtLastHeaderOffset_ s1
                = bytesReturnedAtLastHeaderOffset_ s0).
  { intros s0 s1 b0. destruct (load s0 (inputBufferPtr_ s0)); simpl;
      try discriminate.
    intros H; inversion H; subst. split; reflexivity. }
  destruct (ptr_eqb (inputBufferPtr_ s) (inputBufferPtrEnd_ s)).
  - destruct (readBuffer f s) as [s1| |] eqn:E; simpl; try discriminate.
    apply readBuffer_keeps_offsets in E.
    destruct (State_eqb (state_ s1) END).
    + intros H; inversion H; subst. exact E.
    + intros H. apply D in H. destruct H, E. split; congruence.
  - apply D.
Qed.

(** X3: readHeader records where the block starts.  lastHeaderOffset_
    becomes the offset in the source of the first byte of the header and
    bytesReturnedAtLastHeaderOffset_ the count of bytes returned so far.
    At the end of the source, where no byte is taken, lastHeaderOffset_
    becomes ByteCount() - 1. *)
Theorem readHeader_offsets (s : PagedInputStream) :
  wf_cursor s ->
  cursor_at_source s ->
  state_ s <> END ->
  (forall (b0 b1 b2 : byte) (rest : list byte),
      unread s = b0 :: b1 :: b2 :: rest ->
      exists s',
        readHeader s = Ok s'
        /\ lastHeaderOffset_ s'
           = Z.of_nat (length (content (input_ s)))
             - Z.of_nat (length (unread s))
        /\ bytesReturnedAtLastHeaderOffset_ s' = bytesReturned_ s
        /\ unread s' = rest)
  /\ (unread s = [] ->
      exists s',
        readHeader s = Ok s'
        /\ state_ s' = END
        /\ lastHeaderOffset_ s' = Input.ByteCount (input_ s) - 1
        /\ bytesReturnedAtLastHeaderOffset_ s' = bytesReturned_ s).
Proof.
  intros Hwf Ha Hst. split.
  - intros b0 b1 b2 rest Hu.
    destruct (readHeader_three s b0 b1 b2 rest Hwf Hst Hu)
      as (s' & E & _ & _ & Hu' & _ & _ & _ & Hbr & _).
    exists s'. split; [exact E|].
    split; [|split; [exact Hbr|exact Hu']].
    destruct (readHeader_inv s s' E) as (v0 & s0 & E0 & H). cbv zeta in H.
    destruct (readByte_offset false s s0 v0 b0 _ Hwf Ha Hst Hu E0)
      as (Ho & _ & _).
    destruct H as [[He _] | [_ (v1 & s1 & v2 & s2 & E1 & E2 & ->)]].
    + destruct (readByte_next false s b0 _ Hwf Hst Hu)
        as (s0' & E0' & _ & _ & _ & Hs0 & _).
      rewrite E0 in E0'. injection E0' as _ <-. congruence.
    + apply readByte_keeps_offsets in E1, E2.
      destruct E1 as [E1 _], E2 as [E2 _].
      simpl. rewrite E2, E1. simpl. exact Ho.
  - intros Hu.
    destruct (readByte_eof s Hwf Hu) as (_ & s0 & Ef & Hs & Hp & He & Hi & F).
    unfold readHeader. rewrite Ef. cbn [bind]. cbv zeta.
    change (state_ (set_bytesReturnedAtLastHeaderOffset _ _))
      with (state_ s0).
    rewrite Hs. cbn [State_eqb negb].
    eexists. split; [reflexivity|]. simpl.
    rewrite Hs, Hp, He, Hi. simpl.
    destruct F as (_ & _ & _ & _ & _ & _ & Hbr & _).
    split; [reflexivity|]. split; [lia|exact Hbr].
Qed.

Lemma readHeader_offsets_witness :
  wf_cursor two_raw_blocks
  /\ cursor_at_source two_raw_blocks
  /\ state_ two_raw_blocks <> END
  /\ exists s', readHeader two_raw_blocks = Ok s' /\ lastHeaderOffset_ s' = 0.
Proof.
  assert (Hwf : wf_cursor two_raw_blocks).
  { apply wf_cursor_create. unfold wf_source. simpl. lia. }
  assert (Ha : cursor_at_source two_raw_blocks) by (left; reflexivity).
  assert (Hst : state_ two_raw_blocks <> END) by discriminate.
  split; [exact Hwf|]. split; [exact Ha|]. split; [exact Hst|].
  destruct (readHeader_offsets _ Hwf Ha Hst) as [H _].
  destruct (H _ _ _ _ eq_refl) as (s' & E & Ho & _).
  exists s'. split; [exact E|exact Ho].
Defined.

(** ** ensureInput: the block, continuous *)

Lemma firstn_add_skipn {A} (a b : nat) (l : list A) :
  firstn (a + b) l = firstn a l ++ firstn b (skipn a l).
Proof.
  revert l. induction a as [|a IH]; intros l; simpl; [reflexivity|].
  destruct l as [|x l]; simpl.
  - rewrite firstn_nil. reflexivity.
  - rewrite IH. reflexivity.
Qed.

Lemma length_blit (dst src : list byte) (pos : Z) :
  0 <= pos ->
  pos + Z.of_nat (length src) <= Z.of_nat (length dst) ->
  length (blit dst pos src) = length dst.
Proof.
  intros Hp Hle. unfold blit.
  rewrite !length_app, length_firstn, length_skipn. lia.
Qed.

Lemma firstn_blit (dst src : list byte) (pos : Z) :
  0 <= pos <= Z.of_nat (length dst) ->
  firstn (Z.to_nat pos + length src) (blit dst pos src)
  = firstn (Z.to_nat pos) dst ++ src.
Proof.
  intros Hp. unfold blit.
  rewrite app_assoc.
  rewrite firstn_app.
  rewrite length_app, length_firstn.
  replace (Z.to_nat pos + length src
           - (Nat.min (Z.to_nat pos) (length dst) + length src))%nat
    with 0%nat by lia.
  simpl. rewrite app_nil_r.
  apply firstn_all2. rewrite length_app, length_firstn. lia.
Qed.

Lemma unread_cursor (s t : PagedInputStream) :
  input_ t = input_ s ->
  inputBufferPtr_ t = inputBufferPtr_ s ->
  inputBufferPtrEnd_ t = inputBufferPtrEnd_ s ->
  unread t = unread s.
Proof. intros Hi Hp He. unfold unread. rewrite Hi, Hp, He. reflexivity. Qed.

(** Taking [k] bytes under the cursor. *)
Lemma cursor_take (s : PagedInputStream) (k : Z) :
  wf_cursor s ->
  0 <= k <= ptr_diff (inputBufferPtrEnd_ s) (inputBufferPtr_ s) ->
  read_range s (inputBufferPtr_ s) k = Ok (firstn (Z.to_nat k) (unread s))
  /\ view s (inputBufferPtr_ s) k = firstn (Z.to_nat k) (unread s)
  /\ unread (set_inputBufferPtr (ptr_add (inputBufferPtr_ s) k) s)
     = skipn (Z.to_nat k) (unread s).
Proof.
  intros [Hsrc [[Hp He] | (b & a & e & Hs & Hp & He & Hba & Hae & Hel & Hsz)]]
         Hk; unfold unread; simpl; rewrite Hp, He in *; simpl in *.
  - assert (k = 0) by lia. subst k. simpl. auto.
  - replace (a - 0) with a by lia.
    assert (Hlen : Z.of_nat (length (slice a (e - a) (content (input_ s))))
                   = e - a) by (apply length_slice; lia).
    assert (Hf : firstn (Z.to_nat k)
                   (slice a (e - a) (content (input_ s))
                    ++ skipn (Z.to_nat (position (input_ s)))
                         (content (input_ s)))
                 = slice a k (content (input_ s))).
    { rewrite firstn_app.
      replace (Z.to_nat k - length (slice a (e - a) (content (input_ s))))%nat
        with 0%nat by lia.
      simpl. rewrite app_nil_r. unfold slice.
      rewrite firstn_firstn. f_equal. lia. }
    rewrite Hf.
    assert (E : (0 <=? a) && (0 <=? k)
                && (a + k <=? Z.of_nat (length (content (input_ s))))
                = true).
    { rewrite !andb_true_iff, !Z.leb_le. lia. }
    rewrite E. split; [reflexivity|]. split; [reflexivity|].
    replace (a + k - 0) with (a + k) by lia.
    replace (e - (a + k)) with (e - a - k) by lia.
    rewrite skipn_app_le by lia.
    rewrite slice_skipn by lia. reflexivity.
Qed.

Lemma readBuffer_true_calls (s s' : PagedInputStream) :
  readBuffer true s = Ok s' ->
  content (input_ s') = content (input_ s)
  /\ blockSize (input_ s') = blockSize (input_ s).
Proof.
  unfold readBuffer, Input.Next.
  destruct (0 <? _); cbn [bind ensure negb]; [|discriminate].
  intros H. injection H as <-. simpl. auto.
Qed.

(** The loop of ensureInput, [pos] bytes of the block being copied. *)
Lemma ensureInput_loop_block (fuel : nat) :
  forall (pos : Z) (s : PagedInputStream) (block rest : list byte),
    wf_cursor s ->
    remainingLength_ s = Z.of_nat (length block) ->
    0 <= pos <= Z.of_nat (length block) ->
    Z.of_nat (length block) - pos <= Z.of_nat fuel ->
    (pos < Z.of_nat (length block) ->
     ptr_eqb (inputBufferPtr_ s) (inputBufferPtrEnd_ s) = true) ->
    unread s = skipn (Z.to_nat pos) block ++ rest ->
    (length block <= length (data (inputBuffer_ s)))%nat ->
    firstn (Z.to_nat pos) (data (inputBuffer_ s))
    = firstn (Z.to_nat pos) block ->
    exists s',
      ensureInput_loop fuel pos s = Ok s'
      /\ wf_cursor s'
      /\ unread s' = rest
      /\ firstn (length block) (data (inputBuffer_ s')) = block
      /\ capacity (inputBuffer_ s') = capacity (inputBuffer_ s)
      /\ length (data (inputBuffer_ s')) = length (data (inputBuffer_ s))
      /\ content (input_ s') = content (input_ s)
      /\ blockSize (input_ s') = blockSize (input_ s).
Proof.
  induction fuel as [|fuel IH];
    intros pos s block rest Hwf Hr Hpos Hfuel Hcur Hu Hcap Hdata.
  - assert (pos = Z.of_nat (length block)) by lia. subst pos.
    simpl. rewrite Hr, Z.ltb_irrefl.
    exists s. split; [reflexivity|]. split; [exact Hwf|].
    rewrite Nat2Z.id in *. rewrite skipn_all in Hu. simpl in Hu.
    split; [exact Hu|].
    rewrite firstn_all in Hdata. auto.
  - cbn [ensureInput_loop]. rewrite Hr.
    destruct (pos <? Z.of_nat (length block)) eqn:Elt.
    2:{ apply Z.ltb_ge in Elt.
        assert (pos = Z.of_nat (length block)) by lia. subst pos.
        exists s. split; [reflexivity|]. split; [exact Hwf|].
        rewrite Nat2Z.id in *. rewrite skipn_all in Hu. simpl in Hu.
        split; [exact Hu|].
        rewrite firstn_all in Hdata. auto. }
    apply Z.ltb_lt in Elt. specialize (Hcur Elt).
    assert (Hlt : position (input_ s)
                  < Z.of_nat (length (content (input_ s)))).
    { rewrite (unread_empty_cursor s Hwf Hcur) in Hu.
      apply (f_equal (@length byte)) in Hu.
      rewrite length_app, !length_skipn in Hu. lia. }
    destruct (readBuffer_some true s Hwf Hcur Hlt)
      as (s1 & E1 & Hwf1 & Hu1 & Hs1 & Hr1 & Hne1 & Hc1 & Hb1).
    destruct (readBuffer_true_nonempty s s1 (proj1 Hwf) E1)
      as (_ & _ & _ & Hib1).
    rewrite E1. cbn [bind].
    destruct (cursor_room s1 Hwf1) as [Hroom Hsz].
    rewrite Hsz, Hr1, Hr.
    set (k := Z.min (ptr_diff (inputBufferPtrEnd_ s1) (inputBufferPtr_ s1))
                (Z.of_nat (length block) - pos)).
    assert (Hk0 : 0 < ptr_diff (inputBufferPtrEnd_ s1) (inputBufferPtr_ s1)).
    { destruct Hwf1 as [_ [[Hp He] | (b & a & e & _ & Hp & He & ? & ? & _)]];
        rewrite Hp, He in *; simpl in *; [discriminate|].
      apply Z.eqb_neq in Hne1. lia. }
    assert (Hk : 0 < k
                 /\ k <= ptr_diff (inputBufferPtrEnd_ s1) (inputBufferPtr_ s1)
                 /\ k <= Z.of_nat (length block) - pos) by (subst k; lia).
    assert (Hke : pos + k < Z.of_nat (length block) ->
                  k = ptr_diff (inputBufferPtrEnd_ s1) (inputBufferPtr_ s1))
      by (subst k; lia).
    clearbody k.
    destruct (cursor_take s1 k Hwf1 ltac:(lia)) as (Erd & _ & Hadv).
    rewrite Hu1, Hu in Erd, Hadv. rewrite Erd. cbn [bind].
    set (bytes := firstn (Z.to_nat k) (skipn (Z.to_nat pos) block ++ rest))
      in *.
    assert (Hbytes : bytes = firstn (Z.to_nat k) (skipn (Z.to_nat pos) block)).
    { subst bytes. rewrite firstn_app.
      replace (Z.to_nat k - length (skipn (Z.to_nat pos) block))%nat
        with 0%nat by (rewrite length_skipn; lia).
      simpl. apply app_nil_r. }
    clearbody bytes.
    assert (Hlb : length bytes = Z.to_nat k).
    { rewrite Hbytes, length_firstn, length_skipn. lia. }
    match goal with
    | |- exists s', ensureInput_loop fuel ?p ?t = Ok s' /\ _ =>
        destruct (IH p t block rest) as (s' & E' & Hwf' & Hu' & Hd' & Hc'
                                         & Hl' & Hct' & Hbs')
    end.
    + eapply wf_cursor_ext; [| | | |exact (wf_cursor_advance s1 k Hwf1
                                             ltac:(lia))]; reflexivity.
    + simpl. congruence.
    + lia.
    + lia.
    + intros Hmore. simpl. specialize (Hke Hmore).
      destruct Hwf1 as [_ [[Hp He] | (b & a & e & _ & Hp & He & ? & ? & _)]];
        rewrite Hp, He in *; simpl in *; [reflexivity|].
      apply Z.eqb_eq. lia.
    + etransitivity; [|etransitivity; [exact Hadv|]].
      * apply unread_cursor; reflexivity.
      * rewrite skipn_app_le by (rewrite length_skipn; lia).
        rewrite skipn_skipn. f_equal. f_equal. lia.
    + simpl. rewrite Hib1. rewrite length_blit; [exact Hcap|lia|lia].
    + simpl. rewrite Hib1.
      replace (Z.to_nat (pos + k)) with (Z.to_nat pos + length bytes)%nat
        by lia.
      rewrite firstn_blit by lia.
      rewrite Hlb, Hdata, Hbytes. symmetry.
      apply firstn_add_skipn.
    + exists s'. split; [exact E'|]. split; [exact Hwf'|].
      split; [exact Hu'|]. split; [exact Hd'|].
      simpl in Hc', Hl', Hct', Hbs'. rewrite Hib1 in Hc', Hl'.
      rewrite length_blit in Hl' by lia.
      split; [exact Hc'|]. split; [exact Hl'|].
      split; congruence.
Qed.

(** The loop of ensureInput when the source ends before the block. *)
Lemma ensureInput_loop_eof (fuel : nat) :
  forall (pos : Z) (s : PagedInputStream),
    wf_cursor s ->
    0 <= pos ->
    pos + Z.of_nat (length (unread s)) < remainingLength_ s ->
    remainingLength_ s - pos <= Z.of_nat fuel ->
    ptr_eqb (inputBufferPtr_ s) (inputBufferPtrEnd_ s) = true ->
    ensureInput_loop fuel pos s = Fatal ReadPastEOF.
Proof.
  induction fuel as [|fuel IH]; intros pos s Hwf Hpos Hshort Hfuel Hcur.
  - lia.
  - cbn [ensureInput_loop].
    assert (Elt : (pos <? remainingLength_ s) = true)
      by (apply Z.ltb_lt; lia).
    rewrite Elt.
    destruct (Z_lt_le_dec (position (input_ s))
                (Z.of_nat (length (content (input_ s))))) as [Hlt|Hge].
    2:{ destruct (readBuffer_none s Hwf Hge) as [E _]. rewrite E.
        reflexivity. }
    destruct (readBuffer_some true s Hwf Hcur Hlt)
      as (s1 & E1 & Hwf1 & Hu1 & Hs1 & Hr1 & Hne1 & Hc1 & Hb1).
    rewrite E1. cbn [bind].
    destruct (cursor_room s1 Hwf1) as [Hroom Hsz].
    rewrite Hsz, Hr1.
    remember (ptr_diff (inputBufferPtrEnd_ s1) (inputBufferPtr_ s1)) as a
      eqn:Ea.
    destruct (cursor_take s1 a Hwf1 ltac:(subst a; lia)) as (Erd & _ & Hadv).
    pose proof (read_range_length _ _ _ _ Erd) as Hlen.
    rewrite length_firstn, Hu1 in Hlen.
    assert (Hk : Z.min a (remainingLength_ s - pos) = a) by lia.
    rewrite Hk, Erd. cbn [bind].
    apply IH.
    + eapply wf_cursor_ext; [| | | |exact (wf_cursor_advance s1 a Hwf1
                                             ltac:(subst a; lia))]; reflexivity.
    + lia.
    + change (remainingLength_ (set_inputBufferPtr _ _))
        with (remainingLength_ s1).
      rewrite Hr1.
      replace (unread _) with (skipn (Z.to_nat a) (unread s1))
        by (rewrite <- Hadv; apply unread_cursor; reflexivity).
      rewrite length_skipn, Hu1. lia.
    + change (remainingLength_ (set_inputBufferPtr _ _))
        with (remainingLength_ s1).
      assert (0 < a).
      { subst a.
        destruct Hwf1 as [_ [[Hp He] | (b & x & e & _ & Hp & He & ? & ? & _)]];
          rewrite Hp, He in *; simpl in *; [discriminate|].
        apply Z.eqb_neq in Hne1. lia. }
      lia.
    + simpl. subst a.
      destruct Hwf1 as [_ [[Hp He] | (b & x & e & _ & Hp & He & ? & ? & _)]];
        rewrite Hp, He in *; simpl in *; [reflexivity|].
      apply Z.eqb_eq. lia.
Qed.

Lemma length_reserve (n : Z) (b : DataBuffer) :
  (Z.to_nat n <= length (data (reserve n b)))%nat.
Proof. unfold reserve. simpl. rewrite length_app, repeat_length. lia. Qed.

Lemma read_range_ext (s t : PagedInputStream) (p : ptr) (n : Z) :
  (forall r, region_bytes t r = region_bytes s r) ->
  read_range t p n = read_range s p n.
Proof.
  intros H. destruct p as [|r off]; simpl; [reflexivity|].
  rewrite H. reflexivity.
Qed.

(** ensureInput on a block the source holds, and on one it does not. *)
Lemma ensureInput_block (s : PagedInputStream) :
  wf_cursor s ->
  wf_buffer (inputBuffer_ s) ->
  0 <= remainingLength_ s ->
  (forall (block rest : list byte),
      unread s = block ++ rest ->
      remainingLength_ s = Z.of_nat (length block) ->
      exists input s',
        ensureInput (availSize s) s = Ok (input, s')
        /\ read_range s' input (remainingLength_ s) = Ok block
        /\ unread s' = rest
        /\ wf_cursor s'
        /\ wf_buffer (inputBuffer_ s')
        /\ content (input_ s') = content (input_ s)
        /\ blockSize (input_ s') = blockSize (input_ s)
        /\ (remainingLength_ s
            <= ptr_diff (inputBufferPtrEnd_ s) (inputBufferPtr_ s) ->
            input = inputBufferPtr_ s
            /\ s' = set_inputBufferPtr
                      (ptr_add (inputBufferPtr_ s) (remainingLength_ s)) s)
        /\ (ptr_diff (inputBufferPtrEnd_ s) (inputBufferPtr_ s)
            < remainingLength_ s ->
            input = Ptr ReassemblyBuf 0))
  /\ (Z.of_nat (length (unread s)) < remainingLength_ s ->
      ensureInput (availSize s) s = Fatal ReadPastEOF).
Proof.
  intros Hwf Hbuf Hr0.
  destruct (cursor_room s Hwf) as [Hroom Hsz].
  remember (ptr_diff (inputBufferPtrEnd_ s) (inputBufferPtr_ s)) as a eqn:Ea.
  assert (Hav : availSize s = Z.min a (remainingLength_ s)).
  { unfold availSize. rewrite <- Ea, Hsz. reflexivity. }
  assert (Hcut : forall t : PagedInputStream,
             inputBufferPtr_ t = inputBufferPtr_ s ->
             inputBufferPtrEnd_ t = inputBufferPtrEnd_ s ->
             a < remainingLength_ s ->
             ptr_eqb (ptr_add (inputBufferPtr_ t) (Z.min a (remainingLength_ s)))
               (inputBufferPtrEnd_ t) = true).
  { intros t Hp He Hlt. rewrite Hp, He. subst a.
    destruct Hwf as [_ [[Hp' He'] | (b & x & e & _ & Hp' & He' & ? & ? & _)]];
      rewrite Hp', He' in *; simpl in *; [reflexivity|].
    apply Z.eqb_eq. lia. }
  split.
  - intros block rest Hu Hr. unfold ensureInput. rewrite Hav.
    destruct (remainingLength_ s <=? Z.min a (remainingLength_ s)) eqn:Efast.
    + apply Z.leb_le in Efast.
      assert (Hk : Z.min a (remainingLength_ s) = remainingLength_ s) by lia.
      rewrite Hk.
      destruct (cursor_take s (remainingLength_ s) Hwf ltac:(subst a; lia))
        as (Erd & _ & Hadv).
      assert (Hfirst : firstn (Z.to_nat (remainingLength_ s)) (unread s)
                       = block).
      { rewrite Hu, Hr, Nat2Z.id, firstn_app, Nat.sub_diag, firstn_all.
        simpl. apply app_nil_r. }
      assert (Hskip : skipn (Z.to_nat (remainingLength_ s)) (unread s)
                      = rest).
      { rewrite Hu, Hr, Nat2Z.id, skipn_app, Nat.sub_diag, skipn_all.
        reflexivity. }
      eexists _, _. split; [reflexivity|].
      split.
      { rewrite <- Hfirst, <- Erd. apply read_range_ext.
        intros r. reflexivity. }
      split; [rewrite Hadv; exact Hskip|].
      split; [apply wf_cursor_advance; [exact Hwf|rewrite <- Ea; lia]|].
      split; [exact Hbuf|].
      split; [reflexivity|]. split; [reflexivity|].
      split; [intros _; split; reflexivity|lia].
    + apply Z.leb_gt in Efast.
      assert (Hk : Z.min a (remainingLength_ s) = a) by lia.
      assert (Hlt : a < remainingLength_ s) by lia.
      rewrite Hk in *.
      set (t := if capacity (inputBuffer_ s) <? remainingLength_ s
                then set_inputBuffer
                       (reserve (remainingLength_ s) (inputBuffer_ s)) s
                else s).
      assert (Ht : input_ t = input_ s
                   /\ inputBufferStart_ t = inputBufferStart_ s
                   /\ inputBufferPtr_ t = inputBufferPtr_ s
                   /\ inputBufferPtrEnd_ t = inputBufferPtrEnd_ s
                   /\ remainingLength_ t = remainingLength_ s
                   /\ (length block <= length (data (inputBuffer_ t)))%nat
                   /\ wf_buffer (inputBuffer_ t)).
      { subst t. destruct (capacity (inputBuffer_ s) <? remainingLength_ s)
          eqn:Ec; simpl.
        - repeat (split; [reflexivity|]). split.
          + rewrite length_app, repeat_length. lia.
          + unfold wf_buffer. simpl.
            rewrite length_app, repeat_length. lia.
        - repeat (split; [reflexivity|]).
          apply Z.ltb_ge in Ec. unfold wf_buffer in Hbuf.
          split; [lia|exact Hbuf]. }
      destruct Ht as (Hti & Hts & Htp & Hte & Htr & Htl & Htb).
      assert (Hwft : wf_cursor t)
        by (eapply wf_cursor_ext; [| | | |exact Hwf]; assumption).
      assert (Hut : unread t = unread s) by (apply unread_cursor; assumption).
      destruct (cursor_take t a Hwft ltac:(rewrite Htp, Hte; subst a; lia))
        as (Erd & _ & Hadv).
      rewrite Hut, Hu in Erd, Hadv. rewrite Erd. cbn [bind].
      set (bytes := firstn (Z.to_nat a) (block ++ rest)) in *.
      assert (Hbytes : bytes = firstn (Z.to_nat a) block).
      { subst bytes. rewrite firstn_app.
        replace (Z.to_nat a - length block)%nat with 0%nat by lia.
        simpl. apply app_nil_r. }
      clearbody bytes.
      assert (Hlb : length bytes = Z.to_nat a)
        by (rewrite Hbytes, length_firstn; lia).
      match goal with
      | |- exists input s',
             (s0 <- ensureInput_loop ?f ?p ?u ;; _) = _ /\ _ =>
          destruct (ensureInput_loop_block f p u block rest)
            as (s' & E' & Hwf' & Hu' & Hd' & Hc' & Hl' & Hct' & Hbs')
      end.
      * eapply wf_cursor_ext;
          [| | | |exact (wf_cursor_advance t a Hwft
                           ltac:(rewrite Htp, Hte; subst a; lia))];
          reflexivity.
      * simpl. congruence.
      * lia.
      * simpl. rewrite Htr. lia.
      * intros _. simpl. apply Hcut; [assumption..|lia].
      * etransitivity; [|etransitivity; [exact Hadv|]].
        -- apply unread_cursor; reflexivity.
        -- rewrite skipn_app_le by lia. reflexivity.
      * simpl. rewrite length_blit; [exact Htl|lia|lia].
      * simpl. replace (Z.to_nat a) with (Z.to_nat 0 + length bytes)%nat
          by lia.
        rewrite firstn_blit by lia. simpl. rewrite Hlb. exact Hbytes.
      * rewrite E'. cbn [bind]. exists (Ptr ReassemblyBuf 0), s'.
        split; [reflexivity|].
        simpl in Hc', Hl'. rewrite length_blit in Hl' by lia.
        split.
        { unfold read_range. cbn [region_bytes].
          assert (E : (0 <=? 0) && (0 <=? remainingLength_ s)
                      && (0 + remainingLength_ s
                          <=? Z.of_nat (length (data (inputBuffer_ s'))))
                      = true).
          { rewrite !andb_true_iff, !Z.leb_le. lia. }
          rewrite E. unfold slice. simpl. rewrite Hr, Nat2Z.id.
          rewrite Hd'. reflexivity. }
        split; [exact Hu'|]. split; [exact Hwf'|].
        split; [unfold wf_buffer in *; lia|].
        simpl in Hct', Hbs'.
        split; [congruence|]. split; [congruence|].
        split; [lia|reflexivity].
  - intros Hshort. unfold ensureInput. rewrite Hav.
    assert (Hla : a <= Z.of_nat (length (unread s))).
    { destruct (cursor_take s a Hwf ltac:(subst a; lia)) as (Erd & _).
      apply read_range_length in Erd. rewrite length_firstn in Erd. lia. }
    assert (Hk : Z.min a (remainingLength_ s) = a) by lia.
    rewrite Hk.
    assert (Efast : (remainingLength_ s <=? a) = false)
      by (apply Z.leb_gt; lia).
    rewrite Efast.
    set (t := if capacity (inputBuffer_ s) <? remainingLength_ s
              then set_inputBuffer
                     (reserve (remainingLength_ s) (inputBuffer_ s)) s
              else s).
    assert (Ht : input_ t = input_ s
                 /\ inputBufferStart_ t = inputBufferStart_ s
                 /\ inputBufferPtr_ t = inputBufferPtr_ s
                 /\ inputBufferPtrEnd_ t = inputBufferPtrEnd_ s
                 /\ remainingLength_ t = remainingLength_ s).
    { subst t. destruct (capacity (inputBuffer_ s) <? remainingLength_ s);
        simpl; repeat split. }
    destruct Ht as (Hti & Hts & Htp & Hte & Htr).
    assert (Hwft : wf_cursor t)
      by (eapply wf_cursor_ext; [| | | |exact Hwf]; assumption).
    assert (Hut : unread t = unread s) by (apply unread_cursor; assumption).
    destruct (cursor_take t a Hwft ltac:(rewrite Htp, Hte; subst a; lia))
      as (Erd & _ & Hadv).
    rewrite Erd. cbn [bind].
    rewrite ensureInput_loop_eof; [reflexivity| | | | |].
    + eapply wf_cursor_ext;
        [| | | |exact (wf_cursor_advance t a Hwft
                         ltac:(rewrite Htp, Hte; subst a; lia))];
        reflexivity.
    + lia.
    + simpl. rewrite Htr.
      replace (unread _) with (skipn (Z.to_nat a) (unread s)).
      * rewrite length_skipn. lia.
      * rewrite <- Hut, <- Hadv. apply unread_cursor; reflexivity.
    + simpl. rewrite Htr. lia.
    + simpl. rewrite <- Hk. apply Hcut; [assumption..|lia].
Qed.

(** X4: ensureInput makes the whole block continuous.  Given the bytes
    at hand in the chunk, it returns a pointer to the remainingLength_
    bytes of the block and consumes them from the source: the cursor
    itself, with no copy and no call of the source, when the chunk holds
    them all, and inputBuffer_ otherwise, filled from as many chunks as
    it takes.  When the source ends before the block does, it fails with
    "read past EOF". *)
Theorem ensureInput_contiguous (s : PagedInputStream) :
  wf_cursor s ->
  wf_buffer (inputBuffer_ s) ->
  0 <= remainingLength_ s ->
  (forall (block rest : list byte),
      unread s = block ++ rest ->
      remainingLength_ s = Z.of_nat (length block) ->
      exists input s',
        ensureInput (availSize s) s = Ok (input, s')
        /\ read_range s' input (remainingLength_ s) = Ok block
        /\ unread s' = rest
        /\ wf_cursor s'
        /\ wf_buffer (inputBuffer_ s')
        /\ (remainingLength_ s
            <= ptr_diff (inputBufferPtrEnd_ s) (inputBufferPtr_ s) ->
            input = inputBufferPtr_ s
            /\ s' = set_inputBufferPtr
                      (ptr_add (inputBufferPtr_ s) (remainingLength_ s)) s)
        /\ (ptr_diff (inputBufferPtrEnd_ s) (inputBufferPtr_ s)
            < remainingLength_ s ->
            input = Ptr ReassemblyBuf 0))
  /\ (Z.of_nat (length (unread s)) < remainingLength_ s ->
      ensureInput (availSize s) s = Fatal ReadPastEOF).
Proof.
  intros Hwf Hbuf Hr0.
  destruct (ensureInput_block s Hwf Hbuf Hr0) as [Hok Heof].
  split; [|exact Heof].
  intros block rest Hu Hr.
  destruct (Hok block rest Hu Hr)
    as (input & s' & E & Erd & Hu' & Hwf' & Hb' & _ & _ & Hfast & Hslow).
  exists input, s'. auto 10.
Qed.

Example compressed_stream_header :
  readHeader (create (MkInput compressed_block 4 0) (Some doubling) None)
  = Ok compressed_stream_header_read.
Proof. vm_compute. reflexivity. Qed.

Lemma ensureInput_contiguous_witness :
  wf_cursor compressed_stream_header_read
  /\ wf_buffer (inputBuffer_ compressed_stream_header_read)
  /\ 0 <= remainingLength_ compressed_stream_header_read
  /\ exists s',
       ensureInput (availSize compressed_stream_header_read)
         compressed_stream_header_read
       = Ok (Ptr ReassemblyBuf 0, s')
       /\ read_range s' (Ptr ReassemblyBuf 0) 3
          = Ok (map byte_of_Z [10; 11; 12])
       /\ unread s' = [].
Proof.
  assert (Hwf : wf_cursor compressed_stream_header_read).
  { split; [unfold wf_source; simpl; lia|]. right.
    exists 0, 3, 4. simpl. repeat split; lia. }
  assert (Hb : wf_buffer (inputBuffer_ compressed_stream_header_read))
    by (unfold wf_buffer; simpl; lia).
  assert (Hr : 0 <= remainingLength_ compressed_stream_header_read)
    by (simpl; lia).
  split; [exact Hwf|]. split; [exact Hb|]. split; [exact Hr|].
  destruct (ensureInput_contiguous _ Hwf Hb Hr) as [H _].
  destruct (H (map byte_of_Z [10; 11; 12]) [] eq_refl eq_refl)
    as (input & s' & E & Erd & Hu & _ & _ & _ & Hslow).
  assert (Hi : input = Ptr ReassemblyBuf 0) by (apply Hslow; simpl; lia).
  subst input. exists s'. split; [exact E|]. split; [exact Erd|exact Hu].
Defined.

(** ** Reading the blocks of a framed source *)

Lemma readHeader_encoded (s : PagedInputStream) (o : bool) (n : Z)
    (rest : list byte) :
  wf_cursor s ->
  state_ s <> END ->
  0 <= n < 2 ^ 23 ->
  unread s = encodeHeader o n ++ rest ->
  exists s',
    readHeader s = Ok s'
    /\ state_ s' = (if o then ORIGINAL else START)
    /\ remainingLength_ s' = n
    /\ unread s' = rest
    /\ wf_cursor s'
    /\ io_frame s s'
    /\ inputBuffer_ s' = inputBuffer_ s
    /\ content (input_ s') = content (input_ s)
    /\ blockSize (input_ s') = blockSize (input_ s).
Proof.
  intros Hwf Hst Hn Hu.
  unfold encodeHeader in Hu. cbv zeta in Hu. cbn [app] in Hu.
  destruct (encoded_header_fields o n Hn) as (Hv & Hb & Hr).
  cbv zeta in Hv, Hb, Hr.
  destruct (readHeader_three s _ _ _ rest Hwf Hst Hu)
    as (s' & E & Hs & Hr' & Hu' & Hwf' & F & Hib & _ & Hc & Hbs).
  rewrite header_value_encode in Hs, Hr' by exact Hv.
  rewrite Hb in Hs. rewrite Hr in Hr'.
  exists s'. auto 10.
Qed.

Lemma readOrSkip_chunk_some (s : PagedInputStream) :
  wf_cursor s ->
  unread s <> [] ->
  exists s',
    readOrSkip_chunk s = Ok s'
    /\ wf_cursor s'
    /\ unread s' = unread s
    /\ state_ s' = state_ s
    /\ remainingLength_ s' = remainingLength_ s
    /\ ptr_eqb (inputBufferPtr_ s') (inputBufferPtrEnd_ s') = false
    /\ io_frame s s'
    /\ inputBuffer_ s' = inputBuffer_ s
    /\ content (input_ s') = content (input_ s)
    /\ blockSize (input_ s') = blockSize (input_ s).
Proof.
  intros Hwf Hne. unfold readOrSkip_chunk.
  destruct (ptr_eqb (inputBufferPtr_ s) (inputBufferPtrEnd_ s)) eqn:Heq.
  - assert (Hlt : position (input_ s)
                  < Z.of_nat (length (content (input_ s)))).
    { rewrite (unread_empty_cursor s Hwf Heq) in Hne.
      destruct (Z_lt_le_dec (position (input_ s))
                  (Z.of_nat (length (content (input_ s))))) as [H|H];
        [exact H|].
      exfalso. apply Hne. apply skipn_all2. lia. }
    destruct (readBuffer_some true s Hwf Heq Hlt)
      as (s1 & E1 & Hwf1 & Hu1 & Hs1 & Hr1 & Hne1 & Hc1 & Hb1).
    destruct (readBuffer_true_nonempty s s1 (proj1 Hwf) E1)
      as (_ & _ & _ & Hib1).
    exists s1. rewrite E1.
    pose proof (readBuffer_frame _ _ _ E1). auto 12.
  - exists s. pose proof (io_frame_refl s). auto 12.
Qed.

Lemma availSize_cursor (s : PagedInputStream) :
  wf_cursor s ->
  availSize s
  = Z.min (ptr_diff (inputBufferPtrEnd_ s) (inputBufferPtr_ s))
      (remainingLength_ s).
Proof.
  intros Hwf. unfold availSize.
  rewrite (proj2 (cursor_room s Hwf)). reflexivity.
Qed.

Lemma cursor_nonempty (s : PagedInputStream) :
  wf_cursor s ->
  ptr_eqb (inputBufferPtr_ s) (inputBufferPtrEnd_ s) = false ->
  0 < ptr_diff (inputBufferPtrEnd_ s) (inputBufferPtr_ s)
  /\ exists a, inputBufferPtr_ s = Ptr InputChunk a /\ 0 <= a.
Proof.
  intros [_ [[Hp He] | (b & a & e & _ & Hp & He & ? & ? & _)]] Hne;
    rewrite Hp, He in *; simpl in *; [discriminate|].
  apply Z.eqb_neq in Hne. split; [lia|]. exists a. split; [reflexivity|lia].
Qed.

(** A read in a raw block of a stream without decrypter, the header
    stage done. *)
Lemma read_raw (s s1 : PagedInputStream) (cur rest : list byte) :
  outputBufferLength_ s = 0 ->
  pendingSkip_ s = 0 ->
  readOrSkip_header (set_decryptionBuffer None s) = Ok s1 ->
  wf_cursor s1 ->
  state_ s1 = ORIGINAL ->
  decrypter_ s1 = None ->
  cur <> [] ->
  remainingLength_ s1 = Z.of_nat (length cur) ->
  Z.of_nat (length cur) < 2 ^ 31 ->
  unread s1 = cur ++ rest ->
  exists a k s2 s',
    readOrSkip true s = Ok (Some (Ptr InputChunk a, k), s')
    /\ readOrSkip_chunk s1 = Ok s2
    /\ inputBufferPtr_ s2 = Ptr InputChunk a
    /\ k = Z.min (ptr_diff (inputBufferPtrEnd_ s2) (inputBufferPtr_ s2))
             (Z.of_nat (length cur))
    /\ 0 < k <= Z.of_nat (length cur)
    /\ view s' (Ptr InputChunk a) k = firstn (Z.to_nat k) cur
    /\ unread s' = skipn (Z.to_nat k) cur ++ rest
    /\ wf_cursor s'
    /\ state_ s' = ORIGINAL
    /\ remainingLength_ s' = Z.of_nat (length cur) - k
    /\ outputBufferLength_ s' = 0
    /\ outputBufferPtr_ s' = Ptr InputChunk (a + k)
    /\ bytesReturned_ s' = bytesReturned_ s1 + k
    /\ lastWindowSize_ s' = k
    /\ inputBuffer_ s' = inputBuffer_ s1
    /\ outputBuffer_ s' = outputBuffer_ s1
    /\ decryptionBuffer_ s' = decryptionBuffer_ s1
    /\ calls_ s' = calls_ s2
    /\ input_ s' = input_ s2
    /\ kept s1 s'.
Proof.
  intros Hobl Hps Hhdr Hwf1 Hst1 Hd1 Hcur Hr1 Hlt Hu1.
  rewrite readOrSkip_as_block by auto.
  unfold readOrSkip_block, readOrSkip_fetch. cbv zeta.
  rewrite Hhdr. cbn [bind]. rewrite Hst1. cbn [State_eqb].
  destruct (readOrSkip_chunk_some s1 Hwf1)
    as (s2 & E2 & Hwf2 & Hu2 & Hs2 & Hr2 & Hne2 & F2 & Hib2 & Hc2 & Hb2).
  { rewrite Hu1. destruct cur; [contradiction|discriminate]. }
  rewrite E2. cbn [bind].
  destruct F2 as (Fdz & Fd & Fob & Fdb & Fop & Fol & Fbr & Flw & Fps).
  unfold original. rewrite Fd, Hd1, Hs2, Hst1. cbn [State_eqb].
  destruct (cursor_nonempty s2 Hwf2 Hne2) as (Hpos & a & Hp & Ha).
  rewrite (availSize_cursor s2 Hwf2), Hr2, Hr1.
  remember (Z.min (ptr_diff (inputBufferPtrEnd_ s2) (inputBufferPtr_ s2))
              (Z.of_nat (length cur))) as k eqn:Ek.
  assert (Hk : 0 < k <= Z.of_nat (length cur)).
  { destruct cur; [contradiction|]. simpl length in *. lia. }
  destruct (cursor_take s2 k Hwf2 ltac:(lia)) as (_ & Hview & Hadv).
  unfold readOrSkip_original, write_out. cbv zeta. cbn [bind].
  unfold readOrSkip_decrypt. simpl decrypter_. rewrite Fd, Hd1.
  cbn [bind].
  unfold readOrSkip_decompress. simpl state_. rewrite Hs2, Hst1.
  cbn [State_eqb bind]. unfold readOrSkip_finish. cbn [negb snd].
  rewrite int32_small by lia. rewrite Hp.
  exists a, k, s2. eexists. split; [reflexivity|].
  split; [reflexivity|]. split; [exact Hp|].
  split; [rewrite <- ?Hp; exact Ek|].
  split; [exact Hk|].
  rewrite Hp in Hview, Hadv. rewrite Hu2, Hu1 in Hview, Hadv.
  assert (Hf : firstn (Z.to_nat k) (cur ++ rest) = firstn (Z.to_nat k) cur).
  { rewrite firstn_app.
    replace (Z.to_nat k - length cur)%nat with 0%nat by lia.
    simpl. apply app_nil_r. }
  split; [rewrite <- Hf, <- Hview; reflexivity|].
  split.
  { etransitivity; [|etransitivity; [exact Hadv|]].
    - apply unread_cursor; simpl; rewrite ?Hp; reflexivity.
    - apply skipn_app_le. lia. }
  split.
  { eapply wf_cursor_ext;
      [| | | |exact (wf_cursor_advance s2 k Hwf2 ltac:(lia))];
      simpl; rewrite ?Hp; reflexivity. }
  simpl. rewrite Hs2, Hr2, Hr1, Fbr, Hib2, Fob, Fdb.
  repeat (split; [first [reflexivity | assumption | lia]|]).
  unfold kept. simpl. auto.
Qed.

(** The decompression stage of a read for the bytes. *)
Lemma decompress_stage (s : PagedInputStream) (input : ptr)
    (out : out_params) (plain : list byte) (dz : Decompressor) :
  state_ s = START ->
  decompressor_ s = Some dz ->
  honest dz ->
  is_null input = false ->
  read_range s input (remainingLength_ s) = Ok plain ->
  Z.of_nat (length plain) < 2 ^ 31 ->
  exists s' b,
    readOrSkip_decompress true input out s
    = Ok ((Ptr OutputBuf 0,
           Z.of_nat
             (length
                (decompress dz plain (fst (getDecompressedLength dz plain))))),
          s')
    /\ outputBuffer_ s' = Some b
    /\ firstn
         (length (decompress dz plain (fst (getDecompressedLength dz plain))))
         (data b)
       = decompress dz plain (fst (getDecompressedLength dz plain))
    /\ input_ s' = input_ s
    /\ inputBufferStart_ s' = inputBufferStart_ s
    /\ inputBufferPtr_ s' = inputBufferPtr_ s
    /\ inputBufferPtrEnd_ s' = inputBufferPtrEnd_ s
    /\ inputBuffer_ s' = inputBuffer_ s
    /\ decompressor_ s' = decompressor_ s
    /\ decrypter_ s' = decrypter_ s
    /\ pendingSkip_ s' = pendingSkip_ s.
Proof.
  intros Hst Hdz Hh Hnull Hrd Hlen.
  unfold readOrSkip_decompress, ensure.
  rewrite Hst. cbn [State_eqb]. rewrite Hdz, Hnull. cbn [negb bind].
  rewrite Hrd. cbn [bind].
  specialize (Hh plain Hlen). cbv zeta in Hh.
  destruct (getDecompressedLength dz plain) as [len exact] eqn:Eg.
  cbn [fst snd] in *. cbn [negb andb].
  destruct Hh as (Hl & Hcap & _ & Hout).
  destruct (prepareOutputBuffer_fields len
              (log (EvGetDecompressedLength plain) s)) as (b & Eb & Hb).
  assert (Eu : uint64 len = len) by (unfold uint64; apply Z.mod_small; lia).
  rewrite Eu in Hb. rewrite Eb.
  cbn [outputBuffer_ set_outputBuffer bind].
  rewrite (Hcap (capacity b) Hb).
  unfold write_out.
  cbn [outputBufferLength_ set_outputBufferLength].
  rewrite int32_small by lia.
  eexists _, _. split; [reflexivity|].
  simpl. split; [reflexivity|].
  split; [apply firstn_blit_0|].
  repeat split; assumption.
Qed.

Lemma decodeBlock_length (z : option Decompressor) (y : option Decrypter)
    (o : bool) (block : list byte) :
  Z.of_nat (length block) < 2 ^ 31 ->
  (forall dz, z = Some dz -> honest dz) ->
  (forall d, y = Some d -> bounded d) ->
  Z.of_nat (length (decodeBlock z y (o, block))) < 2 ^ 31.
Proof.
  intros Hlen Hz Hy. unfold decodeBlock. cbn [fst snd].
  assert (Hp : Z.of_nat
                 (length match y with
                         | Some d => decrypt d block
                         | None => block
                         end) < 2 ^ 31).
  { destruct y as [d|]; [apply (Hy d eq_refl); exact Hlen|exact Hlen]. }
  destruct o; [exact Hp|].
  destruct z as [dz|]; [|simpl; lia].
  destruct (Hz dz eq_refl _ Hp) as (_ & _ & _ & H). exact H.
Qed.

(** A read of a block that is decrypted or decompressed, the header
    stage done: the whole block is taken. *)
Lemma read_whole (s s1 : PagedInputStream) (o : bool)
    (block rest : list byte) :
  outputBufferLength_ s = 0 ->
  pendingSkip_ s = 0 ->
  readOrSkip_header (set_decryptionBuffer None s) = Ok s1 ->
  wf_cursor s1 ->
  wf_buffer (inputBuffer_ s1) ->
  state_ s1 = (if o then ORIGINAL else START) ->
  original s1 = false ->
  block <> [] ->
  remainingLength_ s1 = Z.of_nat (length block) ->
  Z.of_nat (length block) < 2 ^ 31 ->
  unread s1 = block ++ rest ->
  (forall dz, decompressor_ s1 = Some dz -> honest dz) ->
  (forall d, decrypter_ s1 = Some d -> bounded d) ->
  (o = false -> decompressor_ s1 <> None) ->
  exists p k s',
    readOrSkip true s = Ok (Some (p, k), s')
    /\ view s' p k = decodeBlock (decompressor_ s1) (decrypter_ s1) (o, block)
    /\ unread s' = rest
    /\ wf_cursor s'
    /\ wf_buffer (inputBuffer_ s')
    /\ state_ s' = HEADER
    /\ remainingLength_ s' = 0
    /\ outputBufferLength_ s' = 0
    /\ kept s1 s'.
Proof.
  intros Hobl Hps Hhdr Hwf1 Hbuf1 Hst1 Ho1 Hne Hr1 Hlt Hu1 Hhon Hbnd Hdz.
  rewrite readOrSkip_as_block by auto.
  unfold readOrSkip_block, readOrSkip_fetch. cbv zeta.
  rewrite Hhdr. cbn [bind].
  assert (Est : State_eqb (state_ s1) END = false)
    by (rewrite Hst1; destruct o; reflexivity).
  rewrite Est.
  destruct (readOrSkip_chunk_some s1 Hwf1)
    as (s2 & E2 & Hwf2 & Hu2 & Hs2 & Hr2 & Hne2 & F2 & Hib2 & Hc2 & Hb2).
  { rewrite Hu1. destruct block; [contradiction|discriminate]. }
  rewrite E2. cbn [bind].
  destruct F2 as (Fdz & Fd & Fob & Fdb & Fop & Fol & Fbr & Flw & Fps).
  assert (Ho2 : original s2 = false)
    by (unfold original in *; rewrite Fd, Hs2; exact Ho1).
  rewrite Ho2.
  assert (Hbuf2 : wf_buffer (inputBuffer_ s2)) by (rewrite Hib2; exact Hbuf1).
  destruct (ensureInput_block s2 Hwf2 Hbuf2 ltac:(lia)) as [Hens _].
  destruct (Hens block rest ltac:(congruence) ltac:(congruence))
    as (input & s3 & E3 & Erd & Hu3 & Hwf3 & Hbuf3 & Hc3 & Hb3 & Hfast
        & Hslow).
  rewrite E3. cbn [bind].
  pose proof (ensureInput_frame _ _ _ _ E3) as F3.
  destruct (ensureInput_keeps _ _ _ _ E3) as [Hs3 Hr3].
  destruct F3 as (Gdz & Gd & Gob & Gdb & Gop & Gol & Gbr & Glw & Gps).
  assert (Hnull : is_null input = false).
  { destruct (cursor_nonempty s2 Hwf2 Hne2) as (_ & a & Hp & _).
    destruct (Z_le_gt_dec (remainingLength_ s2)
                (ptr_diff (inputBufferPtrEnd_ s2) (inputBufferPtr_ s2)))
      as [Hle|Hgt].
    - destruct (Hfast Hle) as [-> _]. rewrite Hp. reflexivity.
    - rewrite (Hslow ltac:(lia)). reflexivity. }
  rewrite Hr2, Hr1 in Erd.
  assert (Hkept : forall t : PagedInputStream,
             decompressor_ t = decompressor_ s3 ->
             decrypter_ t = decrypter_ s3 ->
             pendingSkip_ t = pendingSkip_ s3 ->
             input_ t = input_ s3 ->
             kept s1 t).
  { intros t H1 H2 H3 H4. unfold kept. rewrite H1, H2, H3, H4.
    repeat split; congruence. }
  unfold readOrSkip_decrypt.
  rewrite Gd, Fd, Hr3, Hr2, Hr1.
  destruct (decrypter_ s1) as [d|] eqn:Hd.
  - rewrite Erd. cbn [bind].
    pose proof (Hbnd d eq_refl block Hlt) as Hm.
    unfold write_out.
    cbn [remainingLength_ set_remainingLength].
    rewrite int32_small by lia.
    match goal with
    | |- context [readOrSkip_decompress true ?i ?out ?t] =>
        set (s4 := t); set (out4 := out)
    end.
    assert (Hrd4 : read_range s4 (Ptr DecryptionBuf 0) (remainingLength_ s4)
                   = Ok (decrypt d block)).
    { subst s4. unfold read_range. cbn [region_bytes]. simpl.
      rewrite Z.leb_refl.
      assert (E : (0 <=? Z.of_nat (length (decrypt d block))) = true)
        by (apply Z.leb_le; lia).
      rewrite E. cbn [andb]. rewrite slice_all. reflexivity. }
    destruct o.
    + unfold readOrSkip_decompress.
      change (state_ s4) with (state_ s3). rewrite Hs3, Hs2, Hst1.
      cbn [State_eqb bind]. unfold readOrSkip_finish. cbn [negb snd].
      eexists _, _, _. split; [reflexivity|].
      split.
      { unfold decodeBlock. cbn [fst snd]. subst out4 s4. simpl.
        apply slice_all. }
      split; [rewrite <- Hu3; apply unread_cursor; reflexivity|].
      split; [eapply wf_cursor_ext; [| | | |exact Hwf3]; reflexivity|].
      split; [exact Hbuf3|].
      repeat (split; [reflexivity|]).
      apply Hkept; reflexivity.
    + destruct (decompressor_ s1) as [dz|] eqn:Edz;
        [|exfalso; apply Hdz; reflexivity].
      destruct (decompress_stage s4 (Ptr DecryptionBuf 0) out4
                  (decrypt d block) dz)
        as (s5 & b & E5 & Hob5 & Hd5 & Hi5 & His5 & Hip5 & Hie5 & Hib5
            & Hdz5 & Hd5' & Hps5).
      * change (state_ s4) with (state_ s3). congruence.
      * change (decompressor_ s4) with (decompressor_ s3). congruence.
      * apply Hhon. reflexivity.
      * reflexivity.
      * exact Hrd4.
      * exact Hm.
      * rewrite E5. cbn [bind]. unfold readOrSkip_finish. cbn [negb snd].
        simpl in Hi5, His5, Hip5, Hie5, Hib5, Hdz5, Hd5', Hps5.
        eexists _, _, _. split; [reflexivity|].
        split.
        { unfold decodeBlock. cbn [fst snd]. unfold view.
          cbn [region_bytes]. simpl. rewrite Hob5.
          unfold slice. simpl. rewrite Nat2Z.id. exact Hd5. }
        split.
        { rewrite <- Hu3. apply unread_cursor; simpl; congruence. }
        split.
        { eapply wf_cursor_ext; [| | | |exact Hwf3]; simpl; congruence. }
        split; [simpl; rewrite Hib5; exact Hbuf3|].
        repeat (split; [reflexivity|]).
        apply Hkept; simpl; congruence.
  - cbn [bind].
    assert (Ho : o = false).
    { unfold original in Ho1. rewrite Hd, Hst1 in Ho1.
      destruct o; [discriminate|reflexivity]. }
    subst o.
    destruct (decompressor_ s1) as [dz|] eqn:Edz;
      [|exfalso; apply Hdz; reflexivity].
    destruct (decompress_stage s3 input (nullptr, 0) block dz)
      as (s5 & b & E5 & Hob5 & Hd5 & Hi5 & His5 & Hip5 & Hie5 & Hib5
          & Hdz5 & Hd5' & Hps5).
    + congruence.
    + congruence.
    + apply Hhon. reflexivity.
    + exact Hnull.
    + rewrite Hr3, Hr2, Hr1. exact Erd.
    + exact Hlt.
    + rewrite E5. cbn [bind]. unfold readOrSkip_finish. cbn [negb snd].
      eexists _, _, _. split; [reflexivity|].
      split.
      { unfold decodeBlock. cbn [fst snd]. unfold view.
        cbn [region_bytes]. simpl. rewrite Hob5.
        unfold slice. simpl. rewrite Nat2Z.id. exact Hd5. }
      split.
      { rewrite <- Hu3. apply unread_cursor; simpl; congruence. }
      split.
      { eapply wf_cursor_ext; [| | | |exact Hwf3]; simpl; congruence. }
      split; [simpl; rewrite Hib5; exact Hbuf3|].
      repeat (split; [reflexivity|]).
      apply Hkept; simpl; congruence.
Qed.

(** A read at the end of the source, a header being due. *)
Lemma readOrSkip_at_end (w : bool) (s : PagedInputStream) :
  wf_cursor s ->
  unread s = [] ->
  (w = true -> pendingSkip_ s = 0) ->
  outputBufferLength_ s = 0 ->
  remainingLength_ s = 0 ->
  exists s', readOrSkip w s = Ok (None, s') /\ state_ s' = END.
Proof.
  intros Hwf Hu Hps Hobl Hr.
  rewrite readOrSkip_as_block by assumption.
  unfold readOrSkip_block, readOrSkip_fetch, readOrSkip_header. cbv zeta.
  change (remainingLength_ (set_decryptionBuffer None s))
    with (remainingLength_ s).
  rewrite Hr, Z.eqb_refl, orb_true_r.
  assert (Hwf0 : wf_cursor (set_decryptionBuffer None s))
    by (eapply wf_cursor_ext; [| | | |exact Hwf]; reflexivity).
  assert (Hu0 : unread (set_decryptionBuffer None s) = [])
    by (rewrite <- Hu; apply unread_cursor; reflexivity).
  destruct (readByte_eof _ Hwf0 Hu0) as (_ & s1 & E1 & Hs1 & _).
  unfold readHeader. rewrite E1. cbn [bind]. cbv zeta.
  change (state_ (set_bytesReturnedAtLastHeaderOffset _ _)) with (state_ s1).
  rewrite Hs1. cbn [State_eqb negb bind].
  change (state_ (set_remainingLength _ _)) with (state_ s1).
  rewrite Hs1. cbn [State_eqb].
  eexists. split; [reflexivity|]. exact Hs1.
Qed.

Lemma length_encodeHeader (o : bool) (n : Z) :
  length (encodeHeader o n) = 3%nat.
Proof. reflexivity. Qed.

Lemma firstn_skipn_app {A} (k : nat) (l rest : list A) :
  firstn k l ++ skipn k l ++ rest = l ++ rest.
Proof. rewrite app_assoc, firstn_skipn. reflexivity. Qed.

(** One read of a stream that stands in a framed source. *)
Lemma read_step (s : PagedInputStream) (cur : list byte)
    (blocks : list (bool * list byte)) :
  ready s ->
  at_position s cur blocks ->
  Forall (servable (decompressor_ s)) blocks ->
  cur <> [] \/ blocks <> [] ->
  exists p k s' cur' blocks',
    readOrSkip true s = Ok (Some (p, k), s')
    /\ ready s'
    /\ at_position s' cur' blocks'
    /\ Forall (servable (decompressor_ s')) blocks'
    /\ decompressor_ s' = decompressor_ s
    /\ decrypter_ s' = decrypter_ s
    /\ view s' p k ++ cur'
       ++ decodeStream (decompressor_ s) (decrypter_ s) blocks'
       = cur ++ decodeStream (decompressor_ s) (decrypter_ s) blocks
    /\ (length (unread s') < length (unread s))%nat.
Proof.
  intros ((Hwf & Hrem & Hhon & Hbnd) & Hbuf & Hobl & Hps & Hst)
         (Hu & Hr & Hmid) Hserv Hmore.
  set (s0 := set_decryptionBuffer None s).
  assert (Hwf0 : wf_cursor s0)
    by (eapply wf_cursor_ext; [| | | |exact Hwf]; reflexivity).
  assert (Hu0 : unread s0 = unread s) by (apply unread_cursor; reflexivity).
  assert (Z0 : decompressor_ s0 = decompressor_ s) by reflexivity.
  assert (Z1 : decrypter_ s0 = decrypter_ s) by reflexivity.
  assert (Z2 : inputBuffer_ s0 = inputBuffer_ s) by reflexivity.
  assert (Hready : forall s' : PagedInputStream,
             wf_cursor s' -> 0 <= remainingLength_ s' < 2 ^ 31 ->
             kept s0 s' -> wf_buffer (inputBuffer_ s') ->
             outputBufferLength_ s' = 0 -> state_ s' <> END -> ready s').
  { intros s' H1 H2 (K1 & K2 & K3 & _) H3 H4 H5.
    split; [split; [exact H1|split; [exact H2|]]|].
    - rewrite K1, K2. split; assumption.
    - repeat split; try assumption. rewrite K3. exact Hps. }
  destruct cur as [|c cur].
  - (* a header is due *)
    destruct Hmore as [Hmore|Hmore]; [contradiction|].
    destruct blocks as [|[o block] blocks]; [contradiction|].
    cbn [app] in Hu. simpl length in Hr.
    inversion Hserv as [|x l [Hlen Hdz] Hserv']; subst x l.
    cbn [fst snd] in Hlen, Hdz.
    assert (Hu0' : unread s0
                   = encodeHeader o (Z.of_nat (length block))
                     ++ block ++ encodeStream blocks).
    { rewrite Hu0, Hu. unfold encodeStream. cbn [flat_map].
      unfold encodeBlock at 1. cbn [fst snd].
      rewrite <- !app_assoc. reflexivity. }
    destruct (readHeader_encoded s0 o (Z.of_nat (length block))
                (block ++ encodeStream blocks) Hwf0 Hst ltac:(lia) Hu0')
      as (s1 & E1 & Hs1 & Hr1 & Hu1 & Hwf1 & F1 & Hib1 & Hc1 & Hb1).
    assert (Hhdr : readOrSkip_header s0 = Ok s1).
    { unfold readOrSkip_header.
      change (remainingLength_ s0) with (remainingLength_ s).
      rewrite Hr, Z.eqb_refl, orb_true_r. exact E1. }
    destruct F1 as (Fdz & Fd & Fob & Fdb & Fop & Fol & Fbr & Flw & Fps).
    assert (Hne : block <> []).
    { intros ->. simpl in Hlen. lia. }
    assert (Hk01 : kept s0 s1) by (unfold kept; auto).
    assert (Hlen_u : length (unread s)
                     = (3 + length block + length (encodeStream blocks))%nat).
    { rewrite Hu. unfold encodeStream. cbn [flat_map].
      unfold encodeBlock at 1. cbn [fst snd].
      rewrite !length_app, length_encodeHeader. lia. }
    destruct (original s1) eqn:Eo.
    + (* a raw block, served from the chunks *)
      assert (Hd1 : decrypter_ s1 = None).
      { unfold original in Eo. destruct (decrypter_ s1); congruence. }
      assert (Ho : o = true).
      { unfold original in Eo. rewrite Hd1, Hs1 in Eo.
        destruct o; [reflexivity|discriminate]. }
      subst o.
      destruct (read_raw s s1 block (encodeStream blocks))
        as (a & k & s2 & s' & E & _ & _ & _ & Hk & Hv & Hu' & Hwf' & Hs'
            & Hr' & Hobl' & _ & _ & _ & Hib' & _ & _ & _ & _ & K);
        try assumption; try lia.
      destruct K as (K1 & K2 & K3 & K4 & K5).
      exists (Ptr InputChunk a), k, s', (skipn (Z.to_nat k) block), blocks.
      split; [exact E|].
      split.
      { apply Hready; try assumption; try lia.
        - unfold kept. repeat split; congruence.
        - rewrite Hib', Hib1. exact Hbuf.
        - congruence. }
      split.
      { split; [exact Hu'|]. split; [rewrite Hr', length_skipn; lia|].
        intros _. split; [exact Hs'|congruence]. }
      split; [rewrite K1, Fdz; exact Hserv'|].
      split; [congruence|]. split; [congruence|].
      split.
      { rewrite Hv. cbn [app]. unfold decodeStream. cbn [flat_map].
        unfold decodeBlock at 2. cbn [fst snd].
        change (decrypter_ s) with (decrypter_ s0).
        rewrite <- Fd, Hd1. apply firstn_skipn_app. }
      rewrite Hu', Hlen_u, length_app, length_skipn. lia.
    + (* a block taken whole *)
      destruct (read_whole s s1 o block (encodeStream blocks))
        as (p & k & s' & E & Hv & Hu' & Hwf' & Hbuf' & Hs' & Hr' & Hobl' & K);
        try assumption; try lia.
      { rewrite Hib1. exact Hbuf. }
      { intros dz H. apply (Hhon dz). rewrite <- H, Fdz. reflexivity. }
      { intros d H. apply (Hbnd d). rewrite <- H, Fd. reflexivity. }
      { intros H. rewrite Fdz. apply Hdz. exact H. }
      destruct K as (K1 & K2 & K3 & K4 & K5).
      exists p, k, s', [], blocks.
      split; [exact E|].
      split.
      { apply Hready; try assumption; try lia.
        - unfold kept. repeat split; congruence.
        - congruence. }
      split.
      { split; [exact Hu'|]. split; [exact Hr'|]. intros H. contradiction. }
      split; [rewrite K1, Fdz; exact Hserv'|].
      split; [congruence|]. split; [congruence|].
      split.
      { rewrite Hv. cbn [app]. unfold decodeStream. cbn [flat_map].
        rewrite Fdz, Fd. reflexivity. }
      rewrite Hu', Hlen_u. lia.
  - (* a raw block is being served *)
    destruct (Hmid ltac:(discriminate)) as [Hso Hd].
    assert (Hhdr : readOrSkip_header s0 = Ok s0).
    { unfold readOrSkip_header.
      change (remainingLength_ s0) with (remainingLength_ s).
      change (state_ s0) with (state_ s).
      rewrite Hso, Hr. reflexivity. }
    destruct (read_raw s s0 (c :: cur) (encodeStream blocks))
      as (a & k & s2 & s' & E & _ & _ & _ & Hk & Hv & Hu' & Hwf' & Hs'
          & Hr' & Hobl' & _ & _ & _ & Hib' & _ & _ & _ & _ & K);
      try assumption; try lia; try discriminate.
    destruct K as (K1 & K2 & K3 & K4 & K5).
    exists (Ptr InputChunk a), k, s', (skipn (Z.to_nat k) (c :: cur)), blocks.
    split; [exact E|].
    split.
    { apply Hready; try assumption; try lia.
      - unfold kept. auto.
      - rewrite Hib'. exact Hbuf.
      - congruence. }
    split.
    { split; [exact Hu'|]. split; [rewrite Hr', length_skipn; lia|].
      intros _. split; [exact Hs'|congruence]. }
    split; [rewrite K1; exact Hserv|].
    split; [exact K1|]. split; [exact K2|].
    split; [rewrite Hv; apply firstn_skipn_app|].
    rewrite Hu', Hu, !length_app, length_skipn. lia.
Qed.

(** Reading a stream that stands in a framed source to its end. *)
Lemma readAll_framed (n : nat) :
  forall (s : PagedInputStream) (cur : list byte)
         (blocks : list (bool * list byte)),
    (length (unread s) <= n)%nat ->
    ready s ->
    at_position s cur blocks ->
    Forall (servable (decompressor_ s)) blocks ->
    exists fuel,
      readAll fuel s
      = Ok (cur ++ decodeStream (decompressor_ s) (decrypter_ s) blocks).
Proof.
  induction n as [|n IH]; intros s cur blocks Hn Hready Hpos Hserv.
  - assert (Hps : pendingSkip_ s = 0) by apply Hready.
    destruct cur as [|c cur]; [destruct blocks as [|b blocks]|].
    + destruct Hready as ((Hwf & _) & _ & Hobl & _ & _).
      destruct Hpos as (Hu & Hr & _).
      destruct (readOrSkip_at_end true s Hwf Hu (fun _ => Hps) Hobl Hr)
        as (s' & E & _).
      exists 1%nat. cbn [readAll]. rewrite (Next_no_skip _ _ Hps), E.
      reflexivity.
    + destruct (read_step s [] (b :: blocks) Hready Hpos Hserv)
        as (p & k & s' & cur' & blocks' & _ & _ & _ & _ & _ & _ & _ & Hlt);
        [right; discriminate|lia].
    + destruct (read_step s (c :: cur) blocks Hready Hpos Hserv)
        as (p & k & s' & cur' & blocks' & _ & _ & _ & _ & _ & _ & _ & Hlt);
        [left; discriminate|lia].
  - assert (Hps : pendingSkip_ s = 0) by apply Hready.
    assert (Hstep : cur <> [] \/ blocks <> [] ->
              exists fuel,
                readAll fuel s
                = Ok (cur ++ decodeStream (decompressor_ s) (decrypter_ s)
                               blocks)).
    { intros Hmore.
      destruct (read_step s cur blocks Hready Hpos Hserv Hmore)
        as (p & k & s' & cur' & blocks' & E & Hready' & Hpos' & Hserv'
            & Hdz & Hd & Hv & Hlt).
      destruct (IH s' cur' blocks' ltac:(lia) Hready' Hpos' Hserv')
        as (fuel & Hrest).
      exists (S fuel). cbn [readAll].
      rewrite (Next_no_skip _ _ Hps), E. cbn [bind].
      rewrite Hrest. cbn [bind]. rewrite Hdz, Hd, Hv. reflexivity. }
    destruct cur as [|c cur]; [destruct blocks as [|b blocks]|].
    + destruct Hready as ((Hwf & _) & _ & Hobl & _ & _).
      destruct Hpos as (Hu & Hr & _).
      destruct (readOrSkip_at_end true s Hwf Hu (fun _ => Hps) Hobl Hr)
        as (s' & E & _).
      exists 1%nat. cbn [readAll]. rewrite (Next_no_skip _ _ Hps), E.
      reflexivity.
    + apply Hstep. right. discriminate.
    + apply Hstep. left. discriminate.
Qed.

Lemma wf_buffer_alloc (n : Z) : 0 <= n -> wf_buffer (alloc n).
Proof.
  intros Hn. unfold wf_buffer. simpl. rewrite repeat_length. lia.
Qed.

(** X5: reading is the inverse of framing.  A source that holds blocks,
    each behind its header, is read to its end as the bytes the blocks
    stand for, in order: raw blocks as they are stored, others
    decompressed, all of them decrypted first when the stream has a
    decrypter.  This holds for every size of the chunks the source hands
    out, whether or not headers and blocks straddle them, and the reads
    come to an end. *)
Theorem readAll_encodeStream (blocks : list (bool * list byte))
    (chunkSize : Z) (dz : option Decompressor) (d : option Decrypter) :
  0 < chunkSize < 2 ^ 31 ->
  (forall z, dz = Some z -> honest z) ->
  (forall y, d = Some y -> bounded y) ->
  Forall (servable dz) blocks ->
  exists fuel,
    readAll fuel (create (MkInput (encodeStream blocks) chunkSize 0) dz d)
    = Ok (decodeStream dz d blocks).
Proof.
  intros Hc Hz Hy Hserv.
  set (s := create (MkInput (encodeStream blocks) chunkSize 0) dz d).
  assert (Hready : ready s).
  { split.
    - apply wf_stream_create; [|assumption..].
      unfold wf_source. simpl. lia.
    - split; [apply wf_buffer_alloc; lia|].
      split; [reflexivity|]. split; [reflexivity|discriminate]. }
  assert (Hpos : at_position s [] blocks).
  { split; [reflexivity|]. split; [reflexivity|]. intros H. contradiction. }
  destruct (readAll_framed (length (unread s)) s [] blocks (le_n _) Hready
              Hpos Hserv) as (fuel & E).
  exists fuel. exact E.
Qed.

Lemma readAll_encodeStream_witness :
  0 < 4 < 2 ^ 31
  /\ (forall z, Some stored = Some z -> honest z)
  /\ (forall y, Some flipping = Some y -> bounded y)
  /\ Forall (servable (Some stored)) mixed_block_list
  /\ exists fuel,
       readAll fuel
         (create (MkInput (encodeStream mixed_block_list) 4 0)
            (Some stored) (Some flipping))
       = Ok (decodeStream (Some stored) (Some flipping) mixed_block_list).
Proof.
  assert (Hc : 0 < 4 < 2 ^ 31) by lia.
  assert (Hz : forall z, Some stored = Some z -> honest z).
  { intros z H. injection H as <-. exact stored_honest. }
  assert (Hy : forall y, Some flipping = Some y -> bounded y).
  { intros y H. injection H as <-. exact flipping_bounded. }
  assert (Hs : Forall (servable (Some stored)) mixed_block_list).
  { unfold mixed_block_list, servable.
    repeat constructor; simpl; try lia; discriminate. }
  split; [exact Hc|]. split; [exact Hz|]. split; [exact Hy|].
  split; [exact Hs|].
  exact (readAll_encodeStream mixed_block_list 4 (Some stored)
           (Some flipping) Hc Hz Hy Hs).
Defined.

Example mixed_stream_framed :
  mixed_stream
  = create (MkInput (encodeStream mixed_block_list) 4 0) (Some stored)
      (Some flipping)
  /\ map byte_val
       (decodeStream (Some stored) (Some flipping) mixed_block_list)
     = [255; 254; 253; 252; 251; 245; 244; 243; 225; 224; 223; 222].
Proof. split; vm_compute; reflexivity. Qed.

Lemma encodeStream_app (pre post : list (bool * list byte)) :
  encodeStream (pre ++ post) = encodeStream pre ++ encodeStream post.
Proof. unfold encodeStream. apply flat_map_app. Qed.

(** X6: a seek to the start of a block, then reading.  When the source
    holds framed blocks and seekToPosition is given the offset of a
    block's header that is not the header last read (or a target outside
    the window of a raw block) and a count [u] of decoded bytes, the
    stream then reads, to its end, the bytes the blocks from that one on
    stand for, less the first [u]. *)
Theorem seek_then_read (s : PagedInputStream)
    (pre post : list (bool * list byte)) (u : Z) :
  wf_stream s ->
  wf_buffer (inputBuffer_ s) ->
  content (input_ s) = encodeStream (pre ++ post) ->
  Z.of_nat (length (encodeStream pre)) < 2 ^ 64 ->
  Z.of_nat (length (encodeStream pre)) <> lastHeaderOffset_ s mod 2 ^ 64
  \/ outsideWindow (Z.of_nat (length (encodeStream pre))) u s ->
  Forall (servable (decompressor_ s)) post ->
  0 <= u
    <= Z.of_nat
         (length (decodeStream (decompressor_ s) (decrypter_ s) post)) ->
  u < 2 ^ 64 ->
  exists s' fuel,
    seekToPosition (Z.of_nat (length (encodeStream pre))) u s = Ok s'
    /\ seeks s' = Z.of_nat (length (encodeStream pre)) :: seeks s
    /\ readAll fuel s'
       = Ok (skipn (Z.to_nat u)
               (decodeStream (decompressor_ s) (decrypter_ s) post)).
Proof.
  intros (Hwf & Hrem & Hhon & Hbnd) Hbuf Hcontent Hc Hcond Hserv Hu Hu64.
  remember (Z.of_nat (length (encodeStream pre))) as c eqn:Ec.
  apply reseek_condition in Hcond; [|lia].
  rewrite seekToPosition_unfold by lia. rewrite Hcond.
  set (t := full_reseek c u s).
  exists t.
  set (s0 := set_pendingSkip 0 t).
  assert (Hwf0 : wf_cursor s0).
  { split.
    - destruct Hwf as [[Hb _] _]. split; [exact Hb|]. simpl. lia.
    - left. split; reflexivity. }
  assert (Hready : ready s0).
  { split; [split; [exact Hwf0|]|].
    - split; [simpl; lia|]. split; assumption.
    - split; [exact Hbuf|]. split; [reflexivity|].
      split; [reflexivity|discriminate]. }
  assert (Hpos : at_position s0 [] post).
  { split; [|split; [reflexivity|intros H; contradiction]].
    unfold unread. simpl. rewrite Hcontent, encodeStream_app.
    subst c. rewrite Nat2Z.id.
    rewrite skipn_app, skipn_all, Nat.sub_diag. reflexivity. }
  destruct (readAll_framed (length (unread s0)) s0 [] post (le_n _) Hready
              Hpos Hserv) as (fuel & E).
  exists fuel. split; [reflexivity|]. split; [reflexivity|].
  apply (readAll_sim fuel s0 t u); try assumption; try reflexivity.
  apply Hready.
Qed.

Lemma seek_then_read_witness :
  wf_stream two_raw_blocks
  /\ wf_buffer (inputBuffer_ two_raw_blocks)
  /\ content (input_ two_raw_blocks)
     = encodeStream ([(true, ten_bytes)] ++ [(true, ten_bytes)])
  /\ 13 <> lastHeaderOffset_ two_raw_blocks mod 2 ^ 64
  /\ exists s' fuel,
       seekToPosition 13 3 two_raw_blocks = Ok s'
       /\ readAll fuel s' = Ok (skipn 3 ten_bytes).
Proof.
  assert (Hwf : wf_stream two_raw_blocks).
  { apply wf_stream_create; [unfold wf_source; simpl; lia| |];
      intros ? H; discriminate H. }
  assert (Hb : wf_buffer (inputBuffer_ two_raw_blocks))
    by (apply wf_buffer_alloc; lia).
  assert (Hc : content (input_ two_raw_blocks)
               = encodeStream ([(true, ten_bytes)] ++ [(true, ten_bytes)]))
    by reflexivity.
  assert (Hne : 13 <> lastHeaderOffset_ two_raw_blocks mod 2 ^ 64)
    by discriminate.
  split; [exact Hwf|]. split; [exact Hb|]. split; [exact Hc|].
  split; [exact Hne|].
  destruct (seek_then_read two_raw_blocks [(true, ten_bytes)]
              [(true, ten_bytes)] 3 Hwf Hb Hc ltac:(simpl; lia)
              (or_introl Hne))
    as (s' & fuel & E & _ & Hr).
  - repeat constructor; simpl; try lia; discriminate.
  - simpl. lia.
  - lia.
  - exists s', fuel. split; [exact E|exact Hr].
Defined.



(** ** The end of the source inside a block *)

Lemma readOrSkip_chunk_eof (s : PagedInputStream) :
  wf_cursor s -> unread s = [] ->
  readOrSkip_chunk s = Fatal ReadPastEOF.
Proof.
  intros Hwf Hu. destruct (unread_nil_inv s Hwf Hu) as [Heq Hge].
  unfold readOrSkip_chunk. rewrite Heq.
  apply (readBuffer_none s Hwf Hge).
Qed.

(** X8: a read that needs bytes of a block when the source has none
    left fails with "read past EOF".  This is so in the middle of a block
    whose bytes the source does not hold in full, and also for a block of
    length zero whose header is the last thing in the source: such a
    block is not served as an empty view, nor taken for the end of the
    stream. *)
Theorem block_past_end_of_source (wantData : bool) (s : PagedInputStream) :
  wf_cursor s ->
  state_ s <> END ->
  outputBufferLength_ s = 0 ->
  (wantData = true -> pendingSkip_ s = 0) ->
  (state_ s <> HEADER -> remainingLength_ s <> 0 -> unread s = [] ->
   readOrSkip wantData s = Fatal ReadPastEOF)
  /\ (forall isOriginal : bool,
        remainingLength_ s = 0 ->
        unread s = encodeHeader isOriginal 0 ->
        readOrSkip wantData s = Fatal ReadPastEOF).
Proof.
  intros Hwf Hst Hobl Hps.
  set (s0 := set_decryptionBuffer None s).
  assert (Hwf0 : wf_cursor s0)
    by (eapply wf_cursor_ext; [| | | |exact Hwf]; reflexivity).
  assert (Hu0 : unread s0 = unread s) by (apply unread_cursor; reflexivity).
  split.
  - intros Hh Hr Hu.
    rewrite readOrSkip_as_block by assumption.
    unfold readOrSkip_block, readOrSkip_fetch, readOrSkip_header. cbv zeta.
    fold s0.
    change (remainingLength_ s0) with (remainingLength_ s).
    change (state_ s0) with (state_ s).
    rewrite (State_neq_eqb _ _ Hh).
    assert (Er : (remainingLength_ s =? 0) = false)
      by (apply Z.eqb_neq; exact Hr).
    rewrite Er. cbn [orb bind].
    change (state_ s0) with (state_ s).
    rewrite (State_neq_eqb _ _ Hst).
    rewrite readOrSkip_chunk_eof; [reflexivity|exact Hwf0|].
    rewrite Hu0. exact Hu.
  - intros o Hr Hu.
    rewrite readOrSkip_as_block by assumption.
    unfold readOrSkip_block, readOrSkip_fetch, readOrSkip_header. cbv zeta.
    fold s0.
    change (remainingLength_ s0) with (remainingLength_ s).
    rewrite Hr, Z.eqb_refl, orb_true_r.
    destruct (readHeader_encoded s0 o 0 [] Hwf0 Hst ltac:(lia))
      as (s1 & E1 & Hs1 & Hr1 & Hu1 & Hwf1 & _).
    { rewrite Hu0, Hu, app_nil_r. reflexivity. }
    rewrite E1. cbn [bind].
    assert (Est : State_eqb (state_ s1) END = false)
      by (rewrite Hs1; destruct o; reflexivity).
    rewrite Est.
    rewrite readOrSkip_chunk_eof; [reflexivity|exact Hwf1|exact Hu1].
Qed.

Lemma block_past_end_of_source_witness :
  wf_cursor (create (MkInput (encodeHeader true 0) 64 0) None None)
  /\ readOrSkip true (create (MkInput (encodeHeader true 0) 64 0) None None)
     = Fatal ReadPastEOF.
Proof.
  assert (Hwf : wf_cursor
                  (create (MkInput (encodeHeader true 0) 64 0) None None)).
  { apply wf_cursor_create. unfold wf_source. simpl. lia. }
  split; [exact Hwf|].
  refine (proj2 (block_past_end_of_source true _ Hwf _ eq_refl
                   (fun _ => eq_refl)) true eq_refl eq_refl).
  discriminate.
Defined.

(** ** BackUp and the window of a raw block *)

(** X9: what BackUp checks.  With no skip pending and a view to rewind,
    BackUp(count) in state ORIGINAL succeeds exactly when the pointer
    past the last view lies in the chunk at hand and count does not
    exceed the bytes taken from that chunk,
    inputBufferPtr_ - inputBufferStart_: a raw block cannot be rewound
    into an earlier chunk.  In any other state BackUp makes no check of
    the count, and succeeds. *)
Theorem BackUp_window_check (count : Z) (s : PagedInputStream) :
  0 <= count < 2 ^ 31 ->
  pendingSkip_ s <= 0 ->
  outputBufferPtr_ s <> nullptr ->
  0 <= ptr_diff (inputBufferPtr_ s) (inputBufferStart_ s) < 2 ^ 64 ->
  (state_ s = ORIGINAL ->
   ((exists s', BackUp count s = Ok s')
    <-> ptr_leb (inputBufferStart_ s) (outputBufferPtr_ s)
        && ptr_leb (outputBufferPtr_ s) (inputBufferPtrEnd_ s) = true
        /\ count <= ptr_diff (inputBufferPtr_ s) (inputBufferStart_ s))
   /\ ((forall s', BackUp count s <> Ok s') ->
       BackUp count s = Fatal CheckFailed))
  /\ (state_ s <> ORIGINAL ->
      BackUp count s
      = Ok (set_bytesReturned (bytesReturned_ s - count)
              (set_outputBufferLength (outputBufferLength_ s + count)
                 (set_outputBufferPtr
                    (ptr_add (outputBufferPtr_ s) (- count)) s)))).
Proof.
  intros Hc Hps Hnn Hd.
  assert (Ecase : BackUp count s = BackUp_rewind count s).
  { rewrite BackUp_cases by exact Hc.
    assert (E : (0 <? pendingSkip_ s) = false) by (apply Z.ltb_ge; lia).
    rewrite E. reflexivity. }
  assert (Enull : is_null (outputBufferPtr_ s) = false)
    by (destruct (outputBufferPtr_ s); [contradiction|reflexivity]).
  rewrite Ecase. unfold BackUp_rewind, ensure. rewrite Enull.
  cbn [negb bind].
  rewrite !to_size_t_small by lia.
  split.
  - intros Hst. rewrite Hst. cbn [State_eqb].
    destruct (ptr_leb (inputBufferStart_ s) (outputBufferPtr_ s)
              && ptr_leb (outputBufferPtr_ s) (inputBufferPtrEnd_ s));
      cbn [bind].
    + destruct (count <=? ptr_diff (inputBufferPtr_ s) (inputBufferStart_ s))
        eqn:El; cbn [bind].
      * apply Z.leb_le in El. split.
        -- split; [intros _; split; [reflexivity|exact El]|].
           intros _. eexists. reflexivity.
        -- intros H. exfalso. eapply H. reflexivity.
      * apply Z.leb_gt in El. split; [|reflexivity].
        split; [intros [s' H]; discriminate|]. intros [_ H]. lia.
    + split; [|reflexivity].
      split; [intros [s' H]; discriminate|]. intros [H _]. discriminate.
  - intros Hst. rewrite (State_neq_eqb _ _ Hst). cbn [bind]. reflexivity.
Qed.

Lemma BackUp_window_check_witness :
  0 <= 6 < 2 ^ 31
  /\ pendingSkip_ chunked_raw_stream_read <= 0
  /\ BackUp 6 chunked_raw_stream_read = Fatal CheckFailed
  /\ exists s', BackUp 5 chunked_raw_stream_read = Ok s'.
Proof.
  assert (Hc : 0 <= 6 < 2 ^ 31) by lia.
  assert (Hc' : 0 <= 5 < 2 ^ 31) by lia.
  assert (Hps : pendingSkip_ chunked_raw_stream_read <= 0) by (simpl; lia).
  assert (Hnn : outputBufferPtr_ chunked_raw_stream_read <> nullptr)
    by discriminate.
  assert (Hd : 0 <= ptr_diff (inputBufferPtr_ chunked_raw_stream_read)
                      (inputBufferStart_ chunked_raw_stream_read) < 2 ^ 64)
    by (simpl; lia).
  split; [exact Hc|]. split; [exact Hps|].
  destruct (BackUp_window_check 6 chunked_raw_stream_read Hc Hps Hnn Hd)
    as [H6 _].
  destruct (BackUp_window_check 5 chunked_raw_stream_read Hc' Hps Hnn Hd)
    as [H5 _].
  destruct (H6 eq_refl) as [[H6a _] H6b].
  destruct (H5 eq_refl) as [[_ H5a] _].
  split.
  - apply H6b. intros s' E.
    destruct (H6a (ex_intro _ s' E)) as [_ Hle]. simpl in Hle. lia.
  - apply H5a. split; [reflexivity|simpl; lia].
Defined.

(** ** bytesReturned_: the count of the bytes handed out *)

Lemma readOrSkip_fetch_count (w : bool) (s s' : PagedInputStream) r :
  readOrSkip_fetch w s = Ok (r, s') ->
  bytesReturned_ s' = bytesReturned_ s
  /\ match r with
     | Some (_, _, out) => - 2 ^ 31 <= snd out < 2 ^ 31
     | None => state_ s' = END
     end.
Proof.
  intros H. apply readOrSkip_fetch_inv in H.
  destruct H as (t1 & E1 & H).
  apply readOrSkip_header_frame in E1.
  destruct E1 as (_ & _ & _ & _ & _ & _ & L1 & _). simpl in L1.
  destruct H as [(He & -> & ->) | (_ & t2 & E2 & H)]; [auto|].
  apply readOrSkip_chunk_frame in E2.
  destruct E2 as (_ & _ & _ & _ & _ & _ & L2 & _).
  destruct H as [(_ & -> & ->) | (_ & input & E3 & ->)].
  - simpl. split; [congruence|]. apply int32_range.
  - apply ensureInput_frame in E3.
    destruct E3 as (_ & _ & _ & _ & _ & _ & L3 & _).
    split; [congruence|]. simpl. lia.
Qed.

Lemma readOrSkip_decrypt_count (w : bool) input out
    (s s' : PagedInputStream) input' out' :
  readOrSkip_decrypt w input out s = Ok (input', out', s') ->
  bytesReturned_ s' = bytesReturned_ s
  /\ outputBufferLength_ s' = outputBufferLength_ s
  /\ (- 2 ^ 31 <= snd out < 2 ^ 31 -> - 2 ^ 31 <= snd out' < 2 ^ 31).
Proof.
  unfold readOrSkip_decrypt.
  destruct (decrypter_ s) as [d|].
  - destruct (read_range s input (remainingLength_ s)) as [bytes| |];
      cbn [bind]; try discriminate.
    intros H; inversion H; subst. simpl.
    split; [reflexivity|]. split; [reflexivity|].
    intros _. apply int32_range.
  - intros H; inversion H; subst. auto.
Qed.

Lemma readOrSkip_decompress_count (w : bool) input out
    (s s' : PagedInputStream) out' :
  readOrSkip_decompress w input out s = Ok (out', s') ->
  bytesReturned_ s' = bytesReturned_ s
  /\ (- 2 ^ 31 <= snd out < 2 ^ 31 -> - 2 ^ 31 <= snd out' < 2 ^ 31).
Proof.
  unfold readOrSkip_decompress.
  destruct (State_eqb (state_ s) START).
  - destruct (decompressor_ s) as [dz|]; [|discriminate].
    destruct (ensure _ _); cbn [bind]; try discriminate.
    destruct (read_range s input (remainingLength_ s)) as [bytes| |];
      cbn [bind]; try discriminate.
    destruct (getDecompressedLength dz bytes) as [len exact].
    destruct (negb w && exact && (len <=? pendingSkip_ _)).
    + cbn [bind]. intros H; inversion H; subst. simpl.
      split; [reflexivity|]. intros _. apply int32_range.
    + destruct (prepareOutputBuffer_fields len
                  (log (EvGetDecompressedLength bytes) s)) as (b & -> & _).
      cbn [bind outputBuffer_ set_outputBuffer].
      intros H; inversion H; subst. simpl.
      split; [reflexivity|]. intros _. apply int32_range.
  - intros H; inversion H; subst. auto.
Qed.

(** What a read does to the counters. *)
Lemma readOrSkip_count (w : bool) (s s' : PagedInputStream) r :
  0 <= outputBufferLength_ s < 2 ^ 31 ->
  readOrSkip w s = Ok (r, s') ->
  outputBufferLength_ s' = 0
  /\ pendingSkip_ s' = pendingSkip_ s
  /\ match r with
     | Some (_, n) =>
         bytesReturned_ s' = bytesReturned_ s + n /\ - 2 ^ 31 <= n < 2 ^ 31
     | None => bytesReturned_ s' = bytesReturned_ s /\ state_ s' = END
     end.
Proof.
  intros Hobl H.
  pose proof (readOrSkip_frame _ _ _ _ H) as (_ & _ & Hps).
  split; [|split; [exact Hps|]]; revert H; unfold readOrSkip;
    (destruct (ensure _ _); cbn [bind]; try discriminate);
    destruct (outputBufferLength_ s =? 0) eqn:E0; cbn [negb].
  - apply Z.eqb_eq in E0. unfold readOrSkip_block.
    destruct (readOrSkip_fetch w s) as [[[[[original input] out]|] s1]| |]
      eqn:E1; cbn [bind]; try discriminate.
    + destruct (readOrSkip_decrypt w input out s1)
        as [[[input2 out2] s2]| |] eqn:E2; cbn [bind]; try discriminate.
      destruct (readOrSkip_decompress w input2 out2 s2)
        as [[out3 s3]| |] eqn:E3; cbn [bind]; try discriminate.
      intros H; inversion H; subst. reflexivity.
    + apply readOrSkip_fetch_keeps_length in E1.
      intros H; inversion H; subst. congruence.
  - intros H; inversion H; subst. reflexivity.
  - unfold readOrSkip_block.
    destruct (readOrSkip_fetch w s) as [[[[[original input] out]|] s1]| |]
      eqn:E1; cbn [bind]; try discriminate.
    + apply readOrSkip_fetch_count in E1. destruct E1 as [B1 R1].
      destruct (readOrSkip_decrypt w input out s1)
        as [[[input2 out2] s2]| |] eqn:E2; cbn [bind]; try discriminate.
      apply readOrSkip_decrypt_count in E2. destruct E2 as (B2 & _ & R2).
      destruct (readOrSkip_decompress w input2 out2 s2)
        as [[out3 s3]| |] eqn:E3; cbn [bind]; try discriminate.
      apply readOrSkip_decompress_count in E3. destruct E3 as (B3 & R3).
      intros H; inversion H; subst. destruct out3 as [p n]. simpl.
      split; [|apply R3, R2, R1].
      assert (Hb : forall t : PagedInputStream,
                 bytesReturned_
                   (if negb original
                    then set_state HEADER (set_remainingLength 0 t)
                    else t) = bytesReturned_ t)
        by (intros t; destruct original; reflexivity).
      rewrite Hb. congruence.
    + apply readOrSkip_fetch_count in E1.
      intros H; inversion H; subst. exact E1.
  - intros H; inversion H; subst. simpl.
    rewrite int32_small by lia. split; [reflexivity|lia].
Qed.

Lemma BackUp_no_skip (count : Z) (s s' : PagedInputStream) :
  0 <= count < 2 ^ 31 ->
  pendingSkip_ s <= 0 ->
  BackUp count s = Ok s' ->
  pendingSkip_ s' = pendingSkip_ s
  /\ bytesReturned_ s' = bytesReturned_ s - count
  /\ outputBufferLength_ s' = outputBufferLength_ s + count
  /\ state_ s' = state_ s.
Proof.
  intros Hc Hps. rewrite BackUp_cases by exact Hc.
  assert (E : (0 <? pendingSkip_ s) = false) by (apply Z.ltb_ge; lia).
  rewrite E. intros H. apply BackUp_rewind_fields in H. subst s'.
  simpl. rewrite to_size_t_small by lia. auto.
Qed.

(** The loop of skipAllPending and the counters. *)
Lemma skipAllPending_count (fuel : nat) :
  forall (s s' : PagedInputStream) (b : bool),
    0 <= outputBufferLength_ s < 2 ^ 31 ->
    0 <= pendingSkip_ s ->
    skipAllPending fuel s = Ok (b, s') ->
    bytesReturned_ s' + pendingSkip_ s'
    = bytesReturned_ s + pendingSkip_ s
    /\ 0 <= outputBufferLength_ s' < 2 ^ 31
    /\ (if b then pendingSkip_ s' = 0
        else 0 < pendingSkip_ s' /\ state_ s' = END).
Proof.
  induction fuel as [|fuel IH]; intros s s' b Hobl Hps.
  - simpl. destruct (0 <? pendingSkip_ s) eqn:E; [discriminate|].
    apply Z.ltb_ge in E.
    intros H; inversion H; subst. split; [reflexivity|].
    split; [exact Hobl|lia].
  - rewrite skipAllPending_S.
    destruct (0 <? pendingSkip_ s) eqn:E.
    2:{ apply Z.ltb_ge in E.
        intros H; inversion H; subst. split; [reflexivity|].
        split; [exact Hobl|lia]. }
    apply Z.ltb_lt in E.
    destruct (readOrSkip false s) as [[[[p len]|] s1]| |] eqn:E1;
      cbn [bind]; try discriminate.
    + destruct (readOrSkip_count _ _ _ _ Hobl E1) as (L1 & P1 & B1 & R1).
      destruct (pendingSkip_ s1 <? len) eqn:El.
      * apply Z.ltb_lt in El.
        destruct (BackUp (len - pendingSkip_ s1) (set_pendingSkip 0 s1))
          as [s2| |] eqn:E2; cbn [bind]; try discriminate.
        destruct (BackUp_no_skip (len - pendingSkip_ s1)
                    (set_pendingSkip 0 s1) s2 ltac:(lia)
                    ltac:(simpl; lia) E2)
          as (P2 & B2 & L2 & _).
        simpl in P2, B2, L2.
        intros H. apply IH in H; [|lia|lia].
        destruct H as (Hsum & Hl & Hb).
        split; [lia|]. split; assumption.
      * apply Z.ltb_ge in El.
        intros H. apply IH in H; [|simpl; lia|simpl; lia].
        destruct H as (Hsum & Hl & Hb). simpl in Hsum.
        split; [lia|]. split; assumption.
    + destruct (readOrSkip_count _ _ _ _ Hobl E1) as (L1 & P1 & B1 & S1).
      intros H; inversion H; subst.
      split; [lia|]. split; [lia|]. split; [lia|exact S1].
Qed.

(** ** What Next does to the counters *)

(** X10: Next and bytesReturned_.  A call of Next that returns, with a
    view of n bytes or with false, leaves no skip pending and nothing
    pushed back, and has moved bytesReturned_ on by the skip that was
    pending and by n; when it returns false the stream is in state END.
    When draining the pending skip runs into the end of the stream, Next
    does not return false: the check that no skip is pending fails. *)
Theorem Next_position (fuel : nat) (s : PagedInputStream) :
  0 <= outputBufferLength_ s < 2 ^ 31 ->
  0 <= pendingSkip_ s ->
  (forall r s',
      Next fuel s = Ok (r, s') ->
      pendingSkip_ s' = 0
      /\ outputBufferLength_ s' = 0
      /\ bytesReturned_ s'
         = bytesReturned_ s + pendingSkip_ s
           + match r with Some (_, n) => n | None => 0 end
      /\ (r = None -> state_ s' = END))
  /\ (forall s1,
        skipAllPending fuel s = Ok (false, s1) ->
        Next fuel s = Fatal CheckFailed).
Proof.
  intros Hobl Hps. split.
  - intros r s'. unfold Next.
    destruct (skipAllPending fuel s) as [[b s1]| |] eqn:E1; cbn [bind];
      try discriminate.
    destruct (skipAllPending_count fuel s s1 b Hobl Hps E1)
      as (Hsum & Hobl1 & Hb).
    intros E2.
    assert (Hp1 : pendingSkip_ s1 = 0).
    { destruct b; [exact Hb|].
      unfold readOrSkip, ensure in E2. cbn [negb orb] in E2.
      destruct (pendingSkip_ s1 =? 0) eqn:E0;
        [apply Z.eqb_eq; exact E0|discriminate]. }
    destruct (readOrSkip_count _ _ _ _ Hobl1 E2) as (L2 & P2 & R2).
    split; [congruence|]. split; [exact L2|].
    destruct r as [[p n]|].
    + destruct R2 as [B2 _]. split; [lia|discriminate].
    + destruct R2 as [B2 S2]. split; [lia|intros _; exact S2].
  - intros s1 E1. unfold Next. rewrite E1. cbn [bind].
    destruct (skipAllPending_count fuel s s1 false Hobl Hps E1)
      as (_ & _ & Hp & _).
    unfold readOrSkip, ensure. cbn [negb orb].
    assert (E0 : (pendingSkip_ s1 =? 0) = false) by (apply Z.eqb_neq; lia).
    rewrite E0. reflexivity.
Qed.

Lemma Next_position_witness :
  0 <= outputBufferLength_ (set_pendingSkip 100 raw_stream) < 2 ^ 31
  /\ 0 <= pendingSkip_ (set_pendingSkip 100 raw_stream)
  /\ Next 3 (set_pendingSkip 100 raw_stream) = Fatal CheckFailed.
Proof.
  assert (Hobl : 0 <= outputBufferLength_ (set_pendingSkip 100 raw_stream)
                 < 2 ^ 31) by (simpl; lia).
  assert (Hps : 0 <= pendingSkip_ (set_pendingSkip 100 raw_stream))
    by (simpl; lia).
  split; [exact Hobl|]. split; [exact Hps|].
  destruct (Next_position 3 _ Hobl Hps) as [_ H].
  destruct (skipAllPending 3 (set_pendingSkip 100 raw_stream))
    as [[b s1]| |] eqn:E; try (vm_compute in E; discriminate E).
  assert (Hb : b = false).
  { assert (Eb : match skipAllPending 3 (set_pendingSkip 100 raw_stream) with
                 | Ok (b0, _) => b0
                 | _ => true
                 end = false) by (vm_compute; reflexivity).
    rewrite E in Eb. exact Eb. }
  subst b. exact (H s1 eq_refl).
Defined.

(** ** A skip past the end of the stream *)

Lemma skip_beyond (fuel : nat) :
  forall (s t : PagedInputStream) (k : Z) (bytes : list byte),
    sim s t -> wf_stream s ->
    outputBufferLength_ s = 0 -> outputBufferLength_ t = 0 ->
    pendingSkip_ s = 0 -> pendingSkip_ t = k ->
    Z.of_nat (length bytes) < k ->
    readAll fuel s = Ok bytes ->
    exists t', skipAllPending fuel t = Ok (false, t').
Proof.
  induction fuel as [|f IH]; intros s t k bytes H Hwf Hls Hlt Hps Hpt Hk HB;
    [discriminate|].
  rewrite readAll_unfold in HB. unfold readAll_round in HB.
  rewrite Next_no_skip in HB by exact Hps.
  destruct (readOrSkip true s) as [[r s']| |] eqn:EB; cbn [bind] in HB;
    try discriminate.
  destruct (readOrSkip_sim false s t r s' H Hwf Hls Hlt Hps
              ltac:(discriminate) EB)
    as (Hps' & r' & t' & EA & Hpt' & H' & Hwf' & Hls' & Hlt' & Hm).
  cbn [fst snd] in *.
  rewrite Hpt in *.
  rewrite skipAllPending_S.
  assert (Epos : (0 <? pendingSkip_ t) = true) by (apply Z.ltb_lt; lia).
  rewrite Epos, EA. cbn [bind].
  destruct r as [[p n]|], r' as [[p' n']|]; try contradiction.
  2: { eexists. reflexivity. }
  destruct Hm as (-> & Hvok).
  pose proof Hvok as (Hn & Hlen & _).
  destruct (readAll f s') as [rest| |] eqn:Er; cbn [bind] in HB;
    try discriminate.
  injection HB as <-. rewrite length_app in Hk.
  rewrite Hpt'.
  assert (El : (k <? n) = false) by (apply Z.ltb_ge; lia).
  rewrite El.
  apply (IH s' _ (k - n) rest); try assumption; try reflexivity. lia.
Qed.

(** X11: a skip past the end of the stream.  On a stream that reads to
    its end as [bytes], skip(k) with k greater than the number of those
    bytes returns true as any skip does, and the Next that follows fails
    with a check failure; it does not report the end of the stream. *)
Theorem skip_past_end (fuel : nat) (s : PagedInputStream) (k : Z)
    (bytes : list byte) :
  wf_stream s ->
  outputBufferLength_ s = 0 ->
  pendingSkip_ s = 0 ->
  readAll fuel s = Ok bytes ->
  Z.of_nat (length bytes) < k < 2 ^ 63 ->
  exists s_k,
    skip k s = Ok (true, s_k)
    /\ Next fuel s_k = Fatal CheckFailed.
Proof.
  intros Hwf Hobl Hps HB Hk.
  unfold skip, ensure. rewrite int64_small by lia.
  assert (E : (0 <=? k) = true) by (apply Z.leb_le; lia).
  rewrite E. cbn [bind]. rewrite Hps.
  eexists. split; [reflexivity|].
  destruct (skip_beyond fuel s (set_pendingSkip (0 + k) s) k bytes)
    as (t' & Et); try assumption; try reflexivity; try lia.
  unfold Next. rewrite Et. cbn [bind].
  pose proof (skipAllPending_result _ _ _ _ Et) as Hp. cbv beta iota in Hp.
  unfold readOrSkip, ensure. cbn [negb orb].
  assert (E0 : (pendingSkip_ t' =? 0) = false) by (apply Z.eqb_neq; lia).
  rewrite E0. reflexivity.
Qed.

Lemma skip_past_end_witness :
  wf_stream mixed_stream
  /\ readAll 8 mixed_stream
     = Ok (decodeStream (Some stored) (Some flipping) mixed_block_list)
  /\ exists s_k,
       skip 13 mixed_stream = Ok (true, s_k)
       /\ Next 8 s_k = Fatal CheckFailed.
Proof.
  assert (Hwf : wf_stream mixed_stream).
  { apply wf_stream_create.
    - unfold wf_source. simpl. lia.
    - intros z H. injection H as <-. exact stored_honest.
    - intros y H. injection H as <-. exact flipping_bounded. }
  assert (HB : readAll 8 mixed_stream
               = Ok (decodeStream (Some stored) (Some flipping)
                       mixed_block_list)) by (vm_compute; reflexivity).
  split; [exact Hwf|]. split; [exact HB|].
  apply (skip_past_end 8 mixed_stream 13 _ Hwf eq_refl eq_refl HB).
  simpl. lia.
Defined.

(** ** Seeks that stay in the block, and seeks in a row *)

Lemma mod_shift (x u : Z) :
  0 <= u < 2 ^ 64 -> (x - x mod 2 ^ 64 + u) mod 2 ^ 64 = u.
Proof.
  intros Hu.
  replace (x - x mod 2 ^ 64 + u) with (u + (x / 2 ^ 64) * 2 ^ 64)
    by (pose proof (Z.div_mod x (2 ^ 64) ltac:(lia)); lia).
  rewrite Z.mod_add by lia. apply Z.mod_small. exact Hu.
Qed.

(** X12: a seek inside the block last read sets the position.  When
    seekToPosition is given the offset of the header last read and a
    target inside the window, it leaves the source alone and moves the
    count of bytes read since that header,
    bytesReturned_ - bytesReturnedAtLastHeaderOffset_ + pendingSkip_
    (modulo 2^64), to the target: forward by adding to pendingSkip_, back
    by what BackUp does. *)
Theorem seek_within_block (uncompressedOffset : Z)
    (s s' : PagedInputStream) :
  0 <= uncompressedOffset < 2 ^ 64 ->
  ~ outsideWindow (lastHeaderOffset_ s mod 2 ^ 64) uncompressedOffset s ->
  readSinceHeader s - uncompressedOffset < 2 ^ 31 ->
  seekToPosition (lastHeaderOffset_ s mod 2 ^ 64) uncompressedOffset s
  = Ok s' ->
  readSinceHeader s' = uncompressedOffset
  /\ input_ s' = input_ s
  /\ calls_ s' = calls_ s
  /\ state_ s' = state_ s
  /\ lastHeaderOffset_ s' = lastHeaderOffset_ s
  /\ bytesReturnedAtLastHeaderOffset_ s'
     = bytesReturnedAtLastHeaderOffset_ s
  /\ (readSinceHeader s <= uncompressedOffset ->
      s' = set_pendingSkip
             (pendingSkip_ s + (uncompressedOffset - readSinceHeader s)) s).
Proof.
  intros Hu Hin Hsmall.
  pose proof (uint64_range (lastHeaderOffset_ s)) as Hc.
  unfold uint64 in Hc.
  rewrite seekToPosition_unfold by assumption.
  assert (Ec : negb (lastHeaderOffset_ s mod 2 ^ 64
                     =? uint64 (lastHeaderOffset_ s))
               || outsideOriginalWindow (lastHeaderOffset_ s mod 2 ^ 64)
                    uncompressedOffset s = false).
  { destruct (negb _ || _) eqn:E; [|reflexivity].
    apply reseek_condition in E; [|lia].
    destruct E as [E|E]; [congruence|contradiction]. }
  rewrite Ec.
  change (alreadyRead s) with (readSinceHeader s).
  pose proof (alreadyRead_range s) as Ha.
  change (alreadyRead s) with (readSinceHeader s) in Ha.
  remember (bytesReturned_ s - bytesReturnedAtLastHeaderOffset_ s
            + pendingSkip_ s) as x eqn:Ex.
  assert (Ea : readSinceHeader s = x mod 2 ^ 64)
    by (unfold readSinceHeader; rewrite Ex; reflexivity).
  assert (Hgoal : forall t : PagedInputStream,
             bytesReturned_ t - bytesReturnedAtLastHeaderOffset_ t
             + pendingSkip_ t
             = x - x mod 2 ^ 64 + uncompressedOffset ->
             readSinceHeader t = uncompressedOffset).
  { intros t Ht. unfold readSinceHeader. rewrite Ht.
    apply mod_shift. exact Hu. }
  destruct (uncompressedOffset <? readSinceHeader s) eqn:El.
  - apply Z.ltb_lt in El. intros H.
    pose proof (BackUp_keeps_source _ _ _ H) as (Hi & Hcl & Hst).
    rewrite BackUp_cases in H by lia.
    assert (Hrw : forall n t,
               BackUp_rewind n t = Ok s' ->
               bytesReturned_ s' = bytesReturned_ t - n
               /\ pendingSkip_ s' = pendingSkip_ t
               /\ lastHeaderOffset_ s' = lastHeaderOffset_ t
               /\ bytesReturnedAtLastHeaderOffset_ s'
                  = bytesReturnedAtLastHeaderOffset_ t).
    { intros n t Hr. apply BackUp_rewind_fields in Hr. subst s'.
      repeat split. }
    assert (G : bytesReturned_ s' - bytesReturnedAtLastHeaderOffset_ s'
                + pendingSkip_ s'
                = x - x mod 2 ^ 64 + uncompressedOffset
                /\ lastHeaderOffset_ s' = lastHeaderOffset_ s
                /\ bytesReturnedAtLastHeaderOffset_ s'
                   = bytesReturnedAtLastHeaderOffset_ s).
    { destruct (0 <? pendingSkip_ s) eqn:Ep.
      - destruct (readSinceHeader s - uncompressedOffset <=? pendingSkip_ s)
          eqn:Eq.
        + injection H as <-.
          change (pendingSkip_ (set_pendingSkip _ s))
            with (pendingSkip_ s - (readSinceHeader s - uncompressedOffset)).
          change (bytesReturned_ (set_pendingSkip _ s))
            with (bytesReturned_ s).
          change (bytesReturnedAtLastHeaderOffset_ (set_pendingSkip _ s))
            with (bytesReturnedAtLastHeaderOffset_ s).
          change (lastHeaderOffset_ (set_pendingSkip _ s))
            with (lastHeaderOffset_ s).
          split; [lia|auto].
        + apply Hrw in H. destruct H as (B & P & L & R).
          change (pendingSkip_ (set_pendingSkip 0 s)) with 0 in P.
          change (bytesReturned_ (set_pendingSkip 0 s))
            with (bytesReturned_ s) in B.
          change (lastHeaderOffset_ (set_pendingSkip 0 s))
            with (lastHeaderOffset_ s) in L.
          change (bytesReturnedAtLastHeaderOffset_ (set_pendingSkip 0 s))
            with (bytesReturnedAtLastHeaderOffset_ s) in R.
          rewrite B, P, R. split; [lia|auto].
      - apply Hrw in H. destruct H as (B & P & L & R).
        rewrite B, P, R. split; [lia|auto]. }
    destruct G as (G1 & G2 & G3).
    split; [apply Hgoal; exact G1|].
    repeat (split; [assumption|]). lia.
  - apply Z.ltb_ge in El. intros H. injection H as <-.
    split.
    { apply Hgoal.
      change (pendingSkip_ (set_pendingSkip _ s))
        with (pendingSkip_ s + (uncompressedOffset - readSinceHeader s)).
      change (bytesReturned_ (set_pendingSkip _ s)) with (bytesReturned_ s).
      change (bytesReturnedAtLastHeaderOffset_ (set_pendingSkip _ s))
        with (bytesReturnedAtLastHeaderOffset_ s).
      lia. }
    repeat (split; [reflexivity|]). intros _. reflexivity.
Qed.

Lemma seek_within_block_witness :
  0 <= 3 < 2 ^ 64
  /\ exists s',
       seekToPosition 0 3 chunked_raw_stream_read = Ok s'
       /\ readSinceHeader s' = 3
       /\ input_ s' = input_ chunked_raw_stream_read.
Proof.
  assert (Hu : 0 <= 3 < 2 ^ 64) by lia.
  split; [exact Hu|].
  assert (Hin : ~ outsideWindow
                    (lastHeaderOffset_ chunked_raw_stream_read mod 2 ^ 64) 3
                    chunked_raw_stream_read).
  { intros (_ & _ & _ & H). vm_compute in H. discriminate H. }
  assert (Hs : readSinceHeader chunked_raw_stream_read - 3 < 2 ^ 31)
    by (vm_compute; reflexivity).
  destruct (seekToPosition 0 3 chunked_raw_stream_read) as [s'| |] eqn:E;
    [|exfalso; vm_compute in E; discriminate E
     |exfalso; vm_compute in E; discriminate E].
  destruct (seek_within_block 3 chunked_raw_stream_read s' Hu Hin Hs E)
    as (Ha & Hi & _).
  exists s'. split; [reflexivity|]. split; [exact Ha|exact Hi].
Defined.

(** X13: lastHeaderOffset_ is written by readHeader only, and a seek
    compares with it as it stands.  A seek that repositions the source
    leaves lastHeaderOffset_ as it was; a second seek made before any
    read, to the header offset that is still recorded, therefore takes
    the path inside the block and does not reposition the source, which
    stays where the first seek put it. *)
Theorem seek_twice (compressedOffset uncompressedOffset : Z)
    (s : PagedInputStream) :
  0 <= compressedOffset < 2 ^ 64 ->
  0 <= uncompressedOffset < 2 ^ 64 ->
  compressedOffset <> lastHeaderOffset_ s mod 2 ^ 64 ->
  exists s1,
    seekToPosition compressedOffset uncompressedOffset s = Ok s1
    /\ lastHeaderOffset_ s1 = lastHeaderOffset_ s
    /\ bytesReturnedAtLastHeaderOffset_ s1
       = bytesReturnedAtLastHeaderOffset_ s
    /\ forall (v : Z) (s2 : PagedInputStream),
         0 <= v < 2 ^ 64 ->
         seekToPosition (lastHeaderOffset_ s mod 2 ^ 64) v s1 = Ok s2 ->
         input_ s2 = input_ s1
         /\ Input.ByteCount (input_ s2) = compressedOffset
         /\ seeks s2 = compressedOffset :: seeks s.
Proof.
  intros Hc Hu Hne.
  assert (E1 : seekToPosition compressedOffset uncompressedOffset s
               = Ok (full_reseek compressedOffset uncompressedOffset s)).
  { rewrite seekToPosition_unfold by assumption.
    assert (Ec : negb (compressedOffset =? uint64 (lastHeaderOffset_ s))
                 = true)
      by (apply negb_true_iff, Z.eqb_neq; exact Hne).
    rewrite Ec. reflexivity. }
  assert (Hl : lastHeaderOffset_
                 (full_reseek compressedOffset uncompressedOffset s)
               = lastHeaderOffset_ s) by reflexivity.
  assert (Hst : state_ (full_reseek compressedOffset uncompressedOffset s)
                = HEADER) by reflexivity.
  assert (Hi : Input.ByteCount
                 (input_ (full_reseek compressedOffset uncompressedOffset s))
               = compressedOffset) by reflexivity.
  assert (Hcl : seeks (full_reseek compressedOffset uncompressedOffset s)
                = compressedOffset :: seeks s) by reflexivity.
  assert (Hb : bytesReturnedAtLastHeaderOffset_
                 (full_reseek compressedOffset uncompressedOffset s)
               = bytesReturnedAtLastHeaderOffset_ s) by reflexivity.
  revert E1 Hl Hst Hi Hcl Hb.
  generalize (full_reseek compressedOffset uncompressedOffset s) as s1.
  intros s1 E1 Hl Hst Hi Hcl Hb.
  exists s1. split; [exact E1|]. split; [exact Hl|]. split; [exact Hb|].
  intros v s2 Hv.
  pose proof (uint64_range (lastHeaderOffset_ s)) as Hr. unfold uint64 in Hr.
  rewrite seekToPosition_unfold by assumption.
  unfold outsideOriginalWindow.
  rewrite Hl, Hst. unfold uint64 at 1. rewrite Z.eqb_refl.
  cbn [negb orb State_eqb andb].
  destruct (v <? alreadyRead s1).
  - intros H. apply BackUp_keeps_source in H. destruct H as (Hi2 & Hc2 & _).
    rewrite Hi2. split; [reflexivity|]. split; [exact Hi|].
    unfold seeks in *. rewrite Hc2. exact Hcl.
  - intros H. injection H as <-.
    split; [reflexivity|]. split; [exact Hi|exact Hcl].
Qed.

Lemma seek_twice_witness :
  0 <= 13 < 2 ^ 64
  /\ 0 <= 0 < 2 ^ 64
  /\ 13 <> lastHeaderOffset_ two_raw_blocks mod 2 ^ 64
  /\ exists s1 s2,
       seekToPosition 13 0 two_raw_blocks = Ok s1
       /\ seekToPosition 0 0 s1 = Ok s2
       /\ Input.ByteCount (input_ s2) = 13.
Proof.
  assert (Hc : 0 <= 13 < 2 ^ 64) by lia.
  assert (Hu : 0 <= 0 < 2 ^ 64) by lia.
  assert (Hne : 13 <> lastHeaderOffset_ two_raw_blocks mod 2 ^ 64)
    by discriminate.
  split; [exact Hc|]. split; [exact Hu|]. split; [exact Hne|].
  destruct (seek_twice 13 0 two_raw_blocks Hc Hu Hne)
    as (s1 & E1 & _ & _ & H).
  exists s1.
  destruct (seekToPosition 0 0 s1) as [s2| |] eqn:E2.
  - exists s2. split; [exact E1|]. split; [reflexivity|].
    exact (proj1 (proj2 (H 0 s2 Hu E2))).
  - exfalso. assert (E1' : seekToPosition 13 0 two_raw_blocks
                           = Ok (full_reseek 13 0 two_raw_blocks))
      by (vm_compute; reflexivity).
    rewrite E1 in E1'. injection E1' as ->.
    vm_compute in E2. discriminate E2.
  - exfalso. assert (E1' : seekToPosition 13 0 two_raw_blocks
                           = Ok (full_reseek 13 0 two_raw_blocks))
      by (vm_compute; reflexivity).
    rewrite E1 in E1'. injection E1' as ->.
    vm_compute in E2. discriminate E2.
Defined.

(** ** BackUp with no view to rewind *)

Lemma BackUp_rewind_fatal (count : Z) (s : PagedInputStream) :
  BackUp_rewind count s = Fatal BackupWithoutNext ->
  outputBufferPtr_ s = nullptr.
Proof.
  unfold BackUp_rewind, ensure.
  destruct (outputBufferPtr_ s) as [|r off]; [reflexivity|].
  cbn [is_null negb bind].
  destruct (State_eqb (state_ s) ORIGINAL); cbn [bind].
  - destruct (ptr_leb _ _ && ptr_leb _ _); cbn [bind]; [|discriminate].
    destruct (_ <=? _); cbn [bind]; discriminate.
  - discriminate.
Qed.

(** A read that returns false leaves outputBufferPtr_ as it was. *)
Lemma readOrSkip_false_keeps_view (w : bool) (s s' : PagedInputStream) :
  readOrSkip w s = Ok (None, s') ->
  outputBufferPtr_ s' = outputBufferPtr_ s.
Proof.
  unfold readOrSkip.
  destruct (ensure _ _); cbn [bind]; try discriminate.
  destruct (negb (outputBufferLength_ s =? 0)).
  - destruct (readOrSkip_replay w s). discriminate.
  - unfold readOrSkip_block.
    destruct (readOrSkip_fetch w s) as [[r s1]| |] eqn:E; cbn [bind];
      try discriminate.
    destruct r as [[[o input] out]|].
    + destruct (readOrSkip_decrypt w input out s1) as [[[i2 o2] s2]| |];
        cbn [bind]; try discriminate.
      destruct (readOrSkip_decompress w i2 o2 s2) as [[o3 s3]| |];
        cbn [bind]; try discriminate.
    + intros H. injection H as <-.
      apply readOrSkip_fetch_inv in E.
      destruct E as (t1 & E1 & [(_ & _ & ->) | (_ & t2 & _ & H)]).
      * apply readOrSkip_header_frame in E1.
        destruct E1 as (_ & _ & _ & _ & Hp & _). exact Hp.
      * destruct H as [(_ & H & _) | (_ & input & _ & H)];
          discriminate H.
Qed.

Lemma no_view_returned_null (s : PagedInputStream) :
  no_view_returned s -> outputBufferPtr_ s = nullptr.
Proof.
  induction 1 as [ | count s r s' _ IH H | c u s s' _ IH H
                   | count s s' _ IH H | w s s' _ IH H ].
  - reflexivity.
  - unfold skip, ensure in H.
    destruct (0 <=? int64 count); simpl in H; [|discriminate].
    inversion H; subst; exact IH.
  - unfold seekToPosition in H.
    destruct (negb _ || _).
    + inversion H; subst; exact IH.
    + destruct (_ <? _).
      * apply BackUp_null_inv in H; [|exact IH].
        destruct H as (_ & _ & ->). exact IH.
      * inversion H; subst; exact IH.
  - apply BackUp_null_inv in H; [|exact IH].
    destruct H as (_ & _ & ->). exact IH.
  - apply readOrSkip_false_keeps_view in H. rewrite H. exact IH.
Qed.

Example raw_stream_skip_Next :
  skip 10 raw_stream = Ok (true, set_pendingSkip 10 raw_stream)
  /\ Next 2 (set_pendingSkip 10 raw_stream) = Ok (None, raw_stream_skipped).
Proof. split; vm_compute; reflexivity. Qed.

Example empty_stream_Next :
  readOrSkip true (create (MkInput [] 4 0) None None)
  = Ok (None, empty_stream_ended).
Proof. vm_compute; reflexivity. Qed.

(** C10 (as amended): BackUp(count) with count >= 0, zero included,
    fails with "Backup without previous Next" exactly when
    outputBufferPtr_ is null and pendingSkip_ does not take the whole
    count.  On a stream on which no read has returned a view, be it a
    read made by Next or a read made to drain a skip, outputBufferPtr_ is
    null: there BackUp fails so whenever pendingSkip_ is zero, it returns
    exactly when pendingSkip_ is positive and at least count, and it then
    only lowers pendingSkip_ by count. *)
Theorem BackUp_without_read (count : Z) (s : PagedInputStream) :
  0 <= count < 2 ^ 31 ->
  (BackUp count s = Fatal BackupWithoutNext
   <-> outputBufferPtr_ s = nullptr
       /\ (pendingSkip_ s <= 0 \/ pendingSkip_ s < count))
  /\ (no_view_returned s ->
      outputBufferPtr_ s = nullptr
      /\ (pendingSkip_ s = 0 -> BackUp count s = Fatal BackupWithoutNext)
      /\ ((exists s', BackUp count s = Ok s')
          <-> 0 < pendingSkip_ s /\ count <= pendingSkip_ s)
      /\ (forall s', BackUp count s = Ok s' ->
            s' = set_pendingSkip (pendingSkip_ s - count) s)).
Proof.
  intros Hc. split.
  - rewrite BackUp_cases by exact Hc. split.
    + destruct (0 <? pendingSkip_ s) eqn:E1.
      * destruct (count <=? pendingSkip_ s) eqn:E2; [discriminate|].
        intros H. apply BackUp_rewind_fatal in H.
        apply Z.leb_gt in E2. split; [exact H|right; exact E2].
      * intros H. apply BackUp_rewind_fatal in H.
        apply Z.ltb_ge in E1. split; [exact H|left; exact E1].
    + intros [Hn Hp].
      destruct (0 <? pendingSkip_ s) eqn:E1.
      * apply Z.ltb_lt in E1.
        assert (E2 : (count <=? pendingSkip_ s) = false)
          by (apply Z.leb_gt; lia).
        rewrite E2. apply BackUp_rewind_null. exact Hn.
      * apply BackUp_rewind_null. exact Hn.
  - intros Hnr. pose proof (no_view_returned_null s Hnr) as Hn.
    split; [exact Hn|]. split; [|split].
    + intros Hp. rewrite BackUp_cases by exact Hc.
      rewrite Hp. simpl. apply BackUp_rewind_null. exact Hn.
    + split.
      * intros [s' H]. apply BackUp_null_inv in H; [|exact Hn].
        rewrite int32_small in H by lia. tauto.
      * intros [Hp Hle]. rewrite BackUp_cases by exact Hc.
        assert (E1 : (0 <? pendingSkip_ s) = true) by (apply Z.ltb_lt; lia).
        assert (E2 : (count <=? pendingSkip_ s) = true)
          by (apply Z.leb_le; lia).
        rewrite E1, E2. eexists; reflexivity.
    + intros s' H. apply BackUp_null_inv in H; [|exact Hn].
      rewrite int32_small in H by lia. tauto.
Qed.

Lemma BackUp_without_read_witness :
  0 <= 0 < 2 ^ 31
  /\ no_view_returned empty_stream_ended
  /\ BackUp 0 empty_stream_ended = Fatal BackupWithoutNext.
Proof.
  assert (Hc : 0 <= 0 < 2 ^ 31) by lia.
  assert (Hn : no_view_returned empty_stream_ended).
  { apply (no_view_end true (create (MkInput [] 4 0) None None)).
    - apply no_view_create.
    - vm_compute; reflexivity. }
  split; [exact Hc|]. split; [exact Hn|].
  destruct (BackUp_without_read 0 empty_stream_ended Hc) as [_ H].
  destruct (H Hn) as (_ & H0 & _).
  exact (H0 eq_refl).
Defined.

(** C10 as stated fails: that no Next has returned a view does not make
    BackUp fail when pendingSkip_ is zero.  After skip(10) on a raw
    block of ten bytes, Next returns false, but the read it made to drain
    the skip has left outputBufferPtr_ behind: BackUp(0) returns. *)
Theorem BackUp_after_drained_skip :
  ~ (forall (s : PagedInputStream) (count : Z),
       no_successful_Next s -> pendingSkip_ s = 0 -> 0 <= count ->
       exists e, BackUp count s = Fatal e).
Proof.
  intros H.
  assert (Hn : no_successful_Next raw_stream_skipped).
  { apply (no_Next_false 2 (set_pendingSkip 10 raw_stream)).
    - apply (no_Next_skip 10 raw_stream true).
      + apply no_Next_create.
      + vm_compute; reflexivity.
    - vm_compute; reflexivity. }
  destruct (H raw_stream_skipped 0 Hn eq_refl ltac:(lia)) as [e He].
  vm_compute in He. discriminate He.
Qed.

(** ** seekToPosition: the three cases *)




(** A target inside the last window: four bytes are backed up. *)
Example seek_inside_window :
  ~ outsideWindow 0 3 chunked_raw_stream_read
  /\ seekToPosition 0 3 chunked_raw_stream_read
     = BackUp 4 chunked_raw_stream_read
  /\ exists s,
       BackUp 4 chunked_raw_stream_read = Ok s
       /\ outputBufferLength_ s = 4
       /\ seeks s = [].
Proof.
  split; [|split].
  - intros (_ & _ & _ & H). vm_compute in H. discriminate H.
  - vm_compute; reflexivity.
  - eexists. split; [reflexivity|]. split; reflexivity.
Qed.

(** The replay of rewound bytes: after Next, BackUp(3) and a second
    Next, which returns the three bytes again, the stream is as it was
    after the first Next. *)
Example raw_stream_replay :
  (s <- BackUp 3 raw_stream_read ;; Next 1 s)
  = Ok (Some (Ptr InputChunk 10, 3), raw_stream_read).
Proof. vm_compute; reflexivity. Qed.


(** The count of bytes read since the header is an unsigned 64-bit
    integer.  After two reads of two bytes and BackUp(3), which goes
    back over the header of the second block, the count is -1 as an
    integer and 2^64 - 1 as the code computes it: a seek to the start of
    the second block is a full reseek. *)
Example seek_wraps_around :
  ('(_, s) <- Next 1 two_small_blocks ;;
   '(_, s) <- Next 1 s ;;
   BackUp 3 s) = Ok two_small_blocks_backed_up
  /\ bytesReturned_ two_small_blocks_backed_up
     - bytesReturnedAtLastHeaderOffset_ two_small_blocks_backed_up
     + pendingSkip_ two_small_blocks_backed_up = -1
  /\ readSinceHeader two_small_blocks_backed_up = 2 ^ 64 - 1
  /\ lastHeaderOffset_ two_small_blocks_backed_up = 5
  /\ seekToPosition 5 0 two_small_blocks_backed_up
     = Ok (full_reseek 5 0 two_small_blocks_backed_up)
  /\ seeks (full_reseek 5 0 two_small_blocks_backed_up) = [5].
Proof. repeat split; vm_compute; reflexivity. Qed.

(** lastHeaderOffset_ is compared as an unsigned 64-bit integer too: at
    the end of an empty source it is -1, and a seek to 2^64 - 1 is a
    seek to the header last read. *)
Example seek_to_header_at_end :
  lastHeaderOffset_ empty_stream_ended = -1
  /\ seekToPosition (2 ^ 64 - 1) 0 empty_stream_ended
     = Ok empty_stream_ended.
Proof. split; vm_compute; reflexivity. Qed.

(** ** Order of a read: replay window, pending skip, new block bytes *)


Example raw_stream_skip_4 :
  skipAllPending 1 (set_pendingSkip 4 raw_stream)
  = Ok (true, raw_stream_skip_drained)
  /\ readOrSkip true raw_stream_skip_drained
     = Ok (Some (Ptr InputChunk 7, 6), raw_stream_read).
Proof. split; vm_compute; reflexivity. Qed.


(** ** A block behind a decrypter *)

Lemma readOrSkip_decompress_cursor (w : bool) input out
    (s s' : PagedInputStream) out' :
  readOrSkip_decompress w input out s = Ok (out', s') ->
  input_ s' = input_ s
  /\ inputBufferPtr_ s' = inputBufferPtr_ s
  /\ inputBufferPtrEnd_ s' = inputBufferPtrEnd_ s.
Proof.
  unfold readOrSkip_decompress.
  destruct (State_eqb (state_ s) START).
  - destruct (decompressor_ s) as [dz|]; [|discriminate].
    destruct (ensure _ _); cbn [bind]; try discriminate.
    destruct (read_range s input (remainingLength_ s)) as [bytes| |];
      cbn [bind]; try discriminate.
    destruct (getDecompressedLength dz bytes) as [len exact].
    destruct (negb w && exact && (len <=? pendingSkip_ _)).
    + cbn [bind]. intros H; inversion H; subst. simpl. auto.
    + destruct (prepareOutputBuffer_fields len
                  (log (EvGetDecompressedLength bytes) s)) as (b & -> & _).
      cbn [bind outputBuffer_ set_outputBuffer].
      intros H; inversion H; subst. simpl. auto.
  - intros H; inversion H; subst. auto.
Qed.

(** The fetch stage of a read on a stream with a decrypter, a header
    due: the header is read and the whole block that follows it, however
    the chunks of the source cut it, is at [input], continuous. *)
Lemma fetch_whole_block (w : bool) (s : PagedInputStream) (d : Decrypter)
    (b0 b1 b2 : byte) (block rest : list byte) :
  decrypter_ s = Some d ->
  wf_cursor s ->
  wf_buffer (inputBuffer_ s) ->
  state_ s <> END ->
  state_ s = HEADER \/ remainingLength_ s = 0 ->
  unread s = b0 :: b1 :: b2 :: block ++ rest ->
  Z.shiftr (header_value b0 b1 b2) 1 = Z.of_nat (length block) ->
  block <> [] ->
  exists input s1,
    readOrSkip_fetch w s = Ok (Some (false, input, (nullptr, 0)), s1)
    /\ remainingLength_ s1 = Z.of_nat (length block)
    /\ read_range s1 input (remainingLength_ s1) = Ok block
    /\ unread s1 = rest
    /\ decrypter_ s1 = Some d
    /\ state_ s1
       = (if Z.testbit (header_value b0 b1 b2) 0 then ORIGINAL else START)
    /\ outputBuffer_ s1 = outputBuffer_ s.
Proof.
  intros Hd Hwf Hbuf Hst Hdue Hu Hlen Hne.
  unfold readOrSkip_fetch. cbv zeta.
  set (s0 := set_decryptionBuffer None s).
  assert (Hwf0 : wf_cursor s0)
    by (eapply wf_cursor_ext; [| | | |exact Hwf]; reflexivity).
  assert (Hu0 : unread s0 = b0 :: b1 :: b2 :: block ++ rest)
    by (rewrite <- Hu; apply unread_cursor; reflexivity).
  assert (Eh : readOrSkip_header s0 = readHeader s0).
  { unfold readOrSkip_header.
    change (state_ s0) with (state_ s).
    change (remainingLength_ s0) with (remainingLength_ s).
    destruct Hdue as [-> | ->]; [reflexivity|].
    rewrite Z.eqb_refl, orb_true_r. reflexivity. }
  rewrite Eh.
  destruct (readHeader_three s0 b0 b1 b2 (block ++ rest) Hwf0 Hst Hu0)
    as (s1 & E1 & Hs1 & Hr1 & Hu1 & Hwf1 & F1 & Hib1 & _ & Hc1 & Hb1).
  rewrite E1. cbn [bind].
  assert (Est : State_eqb (state_ s1) END = false)
    by (rewrite Hs1; destruct (Z.testbit _ 0); reflexivity).
  rewrite Est.
  destruct (readOrSkip_chunk_some s1 Hwf1)
    as (s2 & E2 & Hwf2 & Hu2 & Hs2 & Hr2 & Hne2 & F2 & Hib2 & Hc2 & Hb2).
  { rewrite Hu1. destruct block; [contradiction|discriminate]. }
  rewrite E2. cbn [bind].
  destruct F1 as (_ & Fd1 & Fob1 & _).
  destruct F2 as (_ & Fd2 & Fob2 & _).
  change (decrypter_ s0) with (decrypter_ s) in Fd1.
  change (outputBuffer_ s0) with (outputBuffer_ s) in Fob1.
  assert (Hd2 : decrypter_ s2 = Some d) by congruence.
  assert (Ho2 : original s2 = false)
    by (unfold original; rewrite Hd2; reflexivity).
  rewrite Ho2.
  assert (Hbuf2 : wf_buffer (inputBuffer_ s2)).
  { rewrite Hib2, Hib1. exact Hbuf. }
  assert (Hr2' : remainingLength_ s2 = Z.of_nat (length block))
    by congruence.
  destruct (ensureInput_block s2 Hwf2 Hbuf2 ltac:(lia)) as [Hens _].
  destruct (Hens block rest ltac:(congruence) Hr2')
    as (input & s3 & E3 & Erd & Hu3 & _).
  rewrite E3. cbn [bind].
  pose proof (ensureInput_frame _ _ _ _ E3) as F3.
  destruct (ensureInput_keeps _ _ _ _ E3) as [Hs3 Hr3].
  destruct F3 as (_ & Fd3 & Fob3 & _).
  exists input, s3. split; [reflexivity|].
  split; [congruence|].
  split; [rewrite Hr3; exact Erd|].
  split; [exact Hu3|].
  split; [congruence|].
  split; congruence.
Qed.

(** C9: with a decrypter configured, a read that takes a new window of a
    block never follows the raw path ([original] is false): the block is
    fetched whole and continuous by ensureInput, all of its
    remainingLength_ bytes are handed to decrypt, and after the read the
    remaining length is zero and the state is HEADER.  When the block is
    raw (state ORIGINAL once fetched), the view returned is the decrypted
    buffer and no call of the decompressor is made.  And the bytes so
    fetched are the block: when a header is due and the unread bytes are
    a header, the block it announces and others, the bytes handed to
    decrypt are that block, wherever the chunks of the source cut it,
    and what stays unread is what follows the block; a raw block is then
    returned as the decrypted block, with no call other than decrypt. *)
Theorem decrypter_takes_whole_block (wantData : bool)
    (s : PagedInputStream) (d : Decrypter) :
  decrypter_ s = Some d ->
  outputBufferLength_ s = 0 ->
  (forall (s' : PagedInputStream) (out : out_params),
      readOrSkip wantData s = Ok (Some out, s') ->
      state_ s' = HEADER
      /\ remainingLength_ s' = 0
      /\ exists input s1 bytes s2,
           readOrSkip_fetch wantData s
           = Ok (Some (false, input, (nullptr, 0)), s1)
           /\ read_range s1 input (remainingLength_ s1) = Ok bytes
           /\ Z.of_nat (length bytes) = remainingLength_ s1
           /\ readOrSkip_decrypt wantData input (nullptr, 0) s1
              = Ok (Ptr DecryptionBuf 0,
                    (if wantData then Ptr DecryptionBuf 0 else nullptr,
                     int32 (Z.of_nat (length (decrypt d bytes)))), s2)
           /\ calls_ s2 = EvDecrypt bytes :: calls_ s1
           /\ decryptionBuffer_ s2 = Some (decrypt d bytes)
           /\ (state_ s1 = ORIGINAL ->
               calls_ s' = calls_ s2
               /\ outputBuffer_ s' = outputBuffer_ s
               /\ decryptionBuffer_ s' = Some (decrypt d bytes)
               /\ out = (if wantData then Ptr DecryptionBuf 0 else nullptr,
                         int32 (Z.of_nat (length (decrypt d bytes))))
               /\ view s' (Ptr DecryptionBuf 0)
                    (Z.of_nat (length (decrypt d bytes)))
                  = decrypt d bytes))
  /\ (forall (b0 b1 b2 : byte) (block rest : list byte),
        wf_cursor s ->
        wf_buffer (inputBuffer_ s) ->
        state_ s <> END ->
        state_ s = HEADER \/ remainingLength_ s = 0 ->
        unread s = b0 :: b1 :: b2 :: block ++ rest ->
        Z.shiftr (header_value b0 b1 b2) 1 = Z.of_nat (length block) ->
        block <> [] ->
        exists input s1 s2,
          readOrSkip_fetch wantData s
          = Ok (Some (false, input, (nullptr, 0)), s1)
          /\ remainingLength_ s1 = Z.of_nat (length block)
          /\ read_range s1 input (remainingLength_ s1) = Ok block
          /\ unread s1 = rest
          /\ readOrSkip_decrypt wantData input (nullptr, 0) s1
             = Ok (Ptr DecryptionBuf 0,
                   (if wantData then Ptr DecryptionBuf 0 else nullptr,
                    int32 (Z.of_nat (length (decrypt d block)))), s2)
          /\ calls_ s2 = EvDecrypt block :: calls_ s1
          /\ decryptionBuffer_ s2 = Some (decrypt d block)
          /\ (forall (s' : PagedInputStream) (out : out_params),
                readOrSkip wantData s = Ok (Some out, s') ->
                unread s' = rest)
          /\ (Z.testbit (header_value b0 b1 b2) 0 = true ->
              (wantData = true -> pendingSkip_ s = 0) ->
              exists s',
                readOrSkip wantData s
                = Ok (Some (if wantData then Ptr DecryptionBuf 0
                            else nullptr,
                            int32 (Z.of_nat (length (decrypt d block)))),
                      s')
                /\ state_ s' = HEADER
                /\ remainingLength_ s' = 0
                /\ calls_ s' = EvDecrypt block :: calls_ s1
                /\ decryptionBuffer_ s' = Some (decrypt d block)
                /\ view s' (Ptr DecryptionBuf 0)
                     (Z.of_nat (length (decrypt d block)))
                   = decrypt d block
                /\ outputBuffer_ s' = outputBuffer_ s
                /\ unread s' = rest)).
Proof.
  intros Hd Hl. split.
  - intros s' out H.
    apply readOrSkip_block_inv in H; [|exact Hl].
    unfold readOrSkip_block in H.
    destruct (readOrSkip_fetch wantData s) as [[[[[orig input] out0]|] s1]| |]
      eqn:Ef; cbn [bind] in H; try discriminate.
    pose proof Ef as Hinv. apply readOrSkip_fetch_inv in Hinv.
    destruct Hinv as (t1 & E1 & Hinv).
    destruct Hinv as [(_ & Hr & _) | (_ & t2 & E2 & Hinv)]; [discriminate|].
    pose proof (readOrSkip_header_frame _ _ E1) as F1.
    pose proof (readOrSkip_chunk_frame _ _ E2) as F2.
    assert (Hd2 : decrypter_ t2 = Some d).
    { destruct F1 as (_ & A & _). destruct F2 as (_ & B & _).
      rewrite B, A. exact Hd. }
    assert (Ho2 : outputBuffer_ t2 = outputBuffer_ s).
    { destruct F1 as (_ & _ & A & _). destruct F2 as (_ & _ & B & _).
      rewrite B, A. reflexivity. }
    assert (Horig : original t2 = false) by (unfold original; rewrite Hd2;
                                             reflexivity).
    destruct Hinv as [(Hc & _) | (_ & input' & E3 & Hr)];
      [rewrite Horig in Hc; discriminate|].
    inversion Hr; subst orig input' out0. clear Hr.
    pose proof (ensureInput_frame _ _ _ _ E3) as F3.
    assert (Hd1 : decrypter_ s1 = Some d).
    { destruct F3 as (_ & A & _). rewrite A. exact Hd2. }
    assert (Ho1 : outputBuffer_ s1 = outputBuffer_ s).
    { destruct F3 as (_ & _ & A & _). rewrite A. exact Ho2. }
    unfold readOrSkip_decrypt in H. rewrite Hd1 in H.
    destruct (read_range s1 input (remainingLength_ s1)) as [bytes| |] eqn:Er;
      cbn [bind] in H; try discriminate.
    match type of H with
    | bind (readOrSkip_decompress _ _ ?o ?t) _ = _ =>
        set (out2 := o) in *; set (s2 := t) in *
    end.
    assert (Hfin : state_ s' = HEADER /\ remainingLength_ s' = 0).
    { destruct (readOrSkip_decompress wantData (Ptr DecryptionBuf 0) out2 s2)
        as [[out3 s3]| |]; cbn [bind] in H; try discriminate.
      inversion H; subst. split; reflexivity. }
    destruct Hfin as [Hs' Hr'].
    split; [exact Hs'|]. split; [exact Hr'|].
    exists input, s1, bytes, s2.
    split; [reflexivity|]. split; [exact Er|].
    split; [eapply read_range_length; exact Er|].
    split.
    { unfold readOrSkip_decrypt. rewrite Hd1, Er. cbn [bind].
      subst out2 s2. unfold write_out. cbn [fst remainingLength_
        set_remainingLength]. reflexivity. }
    split; [reflexivity|]. split; [reflexivity|].
    intros Hst.
    unfold readOrSkip_decompress in H.
    change (state_ s2) with (state_ s1) in H. rewrite Hst in H.
    cbn [State_eqb bind] in H.
    inversion H; subst out s'. cbn.
    split; [reflexivity|]. split; [exact Ho1|]. split; [reflexivity|].
    split; [reflexivity|].
    unfold slice. simpl. rewrite Nat2Z.id. apply firstn_all.
  - intros b0 b1 b2 block rest Hwf Hbuf Hst Hdue Hu Hlen Hne.
    destruct (fetch_whole_block wantData s d b0 b1 b2 block rest
                Hd Hwf Hbuf Hst Hdue Hu Hlen Hne)
      as (input & s1 & Ef & Hr1 & Erd & Hu1 & Hd1 & Hs1 & Hob1).
    assert (Edec : readOrSkip_decrypt wantData input (nullptr, 0) s1
                   = Ok (Ptr DecryptionBuf 0,
                         (if wantData then Ptr DecryptionBuf 0 else nullptr,
                          int32 (Z.of_nat (length (decrypt d block)))),
                         set_outputBufferPtr
                           (ptr_add (Ptr DecryptionBuf 0)
                              (Z.of_nat (length (decrypt d block))))
                           (set_remainingLength
                              (Z.of_nat (length (decrypt d block)))
                              (log (EvDecrypt block)
                                 (set_decryptionBuffer
                                    (Some (decrypt d block)) s1))))).
    { unfold readOrSkip_decrypt. rewrite Hd1, Erd. cbn [bind].
      unfold write_out. cbn [fst remainingLength_ set_remainingLength].
      reflexivity. }
    eexists input, s1, _.
    split; [exact Ef|]. split; [exact Hr1|]. split; [exact Erd|].
    split; [exact Hu1|]. split; [exact Edec|].
    split; [reflexivity|]. split; [reflexivity|].
    split.
    + intros s' out H.
      apply readOrSkip_block_inv in H; [|exact Hl].
      unfold readOrSkip_block in H. rewrite Ef in H. cbn [bind] in H.
      rewrite Edec in H. cbn [bind] in H.
      match type of H with
      | bind (readOrSkip_decompress _ _ ?o ?t) _ = _ =>
          destruct (readOrSkip_decompress wantData (Ptr DecryptionBuf 0) o t)
            as [[out3 s3]| |] eqn:E3; cbn [bind] in H; try discriminate
      end.
      apply readOrSkip_decompress_cursor in E3.
      destruct E3 as (Hi3 & Hp3 & He3). simpl in Hi3, Hp3, He3.
      unfold readOrSkip_finish in H. cbn [negb] in H.
      injection H as _ <-.
      rewrite <- Hu1. apply unread_cursor; simpl; assumption.
    + intros Hbit Hps.
      rewrite Hbit in Hs1.
      rewrite readOrSkip_as_block by assumption.
      unfold readOrSkip_block. rewrite Ef. cbn [bind].
      rewrite Edec. cbn [bind].
      unfold readOrSkip_decompress.
      cbn [state_ set_outputBufferPtr set_remainingLength log set_calls
           set_decryptionBuffer].
      rewrite Hs1. cbn [State_eqb bind].
      unfold readOrSkip_finish. cbn [negb snd].
      eexists. split; [reflexivity|].
      split; [reflexivity|]. split; [reflexivity|].
      split; [reflexivity|]. split; [reflexivity|].
      split.
      { unfold view. cbn [region_bytes]. simpl. apply slice_all. }
      split; [exact Hob1|].
      rewrite <- Hu1. apply unread_cursor; reflexivity.
Qed.

(** A block of ten bytes that the source hands out in three chunks,
    after a chunk with the header: the ten bytes are put together in
    inputBuffer_ and handed to decrypt in one call. *)
Example chunked_encrypted_stream_read :
  match readOrSkip true chunked_encrypted_stream with
  | Ok (Some (p, n), s') =>
      p = Ptr DecryptionBuf 0
      /\ n = 10
      /\ calls_ s' = [EvDecrypt ten_bytes; EvNext; EvNext; EvNext; EvNext]
      /\ inputBuffer_ s' = MkBuffer 10 ten_bytes
      /\ map byte_val (view s' p n)
         = [255; 254; 253; 252; 251; 250; 249; 248; 247; 246]
  | _ => False
  end.
Proof. vm_compute. repeat split. Qed.

Lemma decrypter_takes_whole_block_witness :
  decrypter_ chunked_encrypted_stream = Some flipping
  /\ outputBufferLength_ chunked_encrypted_stream = 0
  /\ exists input s1 s',
       readOrSkip_fetch true chunked_encrypted_stream
       = Ok (Some (false, input, (nullptr, 0)), s1)
       /\ read_range s1 input (remainingLength_ s1) = Ok ten_bytes
       /\ readOrSkip true chunked_encrypted_stream
          = Ok (Some (Ptr DecryptionBuf 0,
                      int32 (Z.of_nat (length (decrypt flipping ten_bytes)))),
                s')
       /\ calls_ s' = EvDecrypt ten_bytes :: calls_ s1
       /\ view s' (Ptr DecryptionBuf 0)
            (Z.of_nat (length (decrypt flipping ten_bytes)))
          = decrypt flipping ten_bytes.
Proof.
  assert (Hd : decrypter_ chunked_encrypted_stream = Some flipping)
    by reflexivity.
  assert (Hl : outputBufferLength_ chunked_encrypted_stream = 0)
    by reflexivity.
  split; [exact Hd|]. split; [exact Hl|].
  destruct (decrypter_takes_whole_block true chunked_encrypted_stream
              flipping Hd Hl) as [_ H].
  destruct (H "021"%byte "000"%byte "000"%byte ten_bytes [])
    as (input & s1 & s2 & Ef & _ & Erd & _ & _ & _ & _ & _ & Hraw).
  - apply wf_cursor_create. split; simpl; lia.
  - apply wf_buffer_alloc. lia.
  - discriminate.
  - left. reflexivity.
  - vm_compute. reflexivity.
  - vm_compute. reflexivity.
  - discriminate.
  - destruct (Hraw eq_refl (fun _ => eq_refl))
      as (s' & Er & _ & _ & Hc & _ & Hv & _).
    exists input, s1, s'.
    split; [exact Ef|]. split; [exact Erd|]. split; [exact Er|].
    split; [exact Hc|exact Hv].
Defined.
